(** * Device Directory Store: the Redis persistence of device records

    A shallow embedding of [internal/pkg/v2/infrastructure/redis/device.go]
    together with a model of the Redis connection it drives.  The functions
    of [device.go] are transcribed one by one and keep their names; the
    helpers of the same package that live in other files, the error
    package and the Redis server are modelled from the specification and
    are marked as such. *)

From Stdlib Require Import ZArith Ascii String List Lia HexString.
From stdpp Require Import base option gmap strings list.

Local Open Scope string_scope.
Local Open Scope Z_scope.

(** ** Go values *)

(** A Go [[]byte]: a string of bytes. *)
Definition bytes : Type := string.

(** Go's [int] and [int64] are 64-bit two's-complement integers; arithmetic
    on them wraps around. *)
Definition int64_wrap (z : Z) : Z := (z + 2 ^ 63) mod 2 ^ 64 - 2 ^ 63.

(** A Go [error] value of a lower layer (redigo, encoding/json): redigo's
    sentinel [redis.ErrNil], or any other error, known by its text. *)
Inductive goerror : Type :=
| ErrNil
| ErrText (text : string).

Inductive result (A : Type) : Type :=
| Ok (a : A)
| Err (e : goerror).
Arguments Ok {A} a.
Arguments Err {A} e.

(** ** The device record

    The fields of [models.Device] that the store reads or writes. *)
Record Device : Type := mkDevice {
  Id : string;
  Name : string;
  ServiceName : string;
  ProfileName : string;
  Labels : list string;
  Created : Z;
  Modified : Z
}.

(** The zero value [models.Device{}]. *)
Definition zeroDevice : Device := mkDevice "" "" "" "" [] 0 0.

(** [encoding/json] for device records.  The encoder and the decoder are
    external to the store and are taken as a parameter. *)
Class JSON : Type := {
  json_Marshal : Device -> result bytes;
  json_Unmarshal : bytes -> result Device
}.

(** ** Errors

    Modelled from the spec: the error package of go-mod-core-contracts is
    not part of the sources.  The kinds are those of section 7 of the
    specification: DuplicateId, DuplicateName, NotFound, ContractInvalid,
    DatabaseError. *)
Inductive ErrKind : Type :=
| DuplicateId
| DuplicateName
| NotFound
| ContractInvalid
| DatabaseError.

(** The names under which [device.go] refers to the kinds. *)
Definition KindDuplicateName : ErrKind := DuplicateName.
Definition KindContractInvalid : ErrKind := ContractInvalid.
Definition KindDatabaseError : ErrKind := DatabaseError.
Definition KindEntityDoesNotExist : ErrKind := NotFound.

(** Modelled from the spec: an EdgeX error carries its kind, a message and
    the wrapped error of the lower layer, if any ("errors from lower layers
    are wrapped, preserving the original cause"). *)
Inductive EdgeX : Type :=
| CommonEdgeX (kind : ErrKind) (message : string) (err : Cause)
with Cause : Type :=
| CauseNil
| CauseGo (e : goerror)
| CauseEdgeX (e : EdgeX).

Definition Kind (e : EdgeX) : ErrKind :=
  match e with CommonEdgeX k _ _ => k end.

Definition Message (e : EdgeX) : string :=
  match e with CommonEdgeX _ m _ => m end.

Definition NewCommonEdgeX (kind : ErrKind) (message : string) (wrapped : Cause) : EdgeX :=
  CommonEdgeX kind message wrapped.

(** The wrapper keeps the kind of the error it wraps and adds no message. *)
Definition NewCommonEdgeXWrapper (wrapped : EdgeX) : EdgeX :=
  CommonEdgeX (Kind wrapped) "" (CauseEdgeX wrapped).

(** ** Keys *)

(** Modelled from the spec: [DBKeySeparator], [CreateKey] and the name
    constants of package [v2] are declared outside [device.go].  Section 6
    of the specification fixes the layout [<collection>:name],
    [<collection>:service:name:<serviceName>], and so on, which gives the
    separator and the four words. *)
Definition DBKeySeparator : string := ":".
Definition v2_Name : string := "name".
Definition v2_Label : string := "label".
Definition v2_Service : string := "service".
Definition v2_Profile : string := "profile".

(** Modelled from the spec: [CreateKey] joins its arguments with the
    separator. *)
Definition CreateKey (targets : list string) : string :=
  String.concat DBKeySeparator targets.

Definition DeviceCollection : string := "md|dv".
Definition DeviceCollectionName : string :=
  DeviceCollection ++ DBKeySeparator ++ v2_Name.
Definition DeviceCollectionLabel : string :=
  DeviceCollection ++ DBKeySeparator ++ v2_Label.
Definition DeviceCollectionServiceName : string :=
  DeviceCollection ++ DBKeySeparator ++ v2_Service ++ DBKeySeparator ++ v2_Name.
Definition DeviceCollectionProfileName : string :=
  DeviceCollection ++ DBKeySeparator ++ v2_Profile ++ DBKeySeparator ++ v2_Name.

(** deviceStoredKey return the device's stored key which combines the
    collection name and object id *)
Definition deviceStoredKey (id : string) : string :=
  CreateKey [DeviceCollection; id].

(** ** The Redis server

    Modelled from the spec: the key-value substrate is an external
    service (section 6): scalar get/set/delete, ordered-set
    add/remove/range-by-rank, hash-field set/get/delete/exists, and an
    atomic multi-command batch.  One key space holds all three kinds of
    value; a command applied to a key of another kind is refused and
    changes nothing. *)

(** An ordered set: members with their scores, kept in ascending order of
    (score, member). *)
Definition zset : Type := list (string * Z).

Inductive RVal : Type :=
| VString (b : bytes)
| VZSet (z : zset)
| VHash (h : gmap string string).

Inductive Cmd : Type :=
| MULTI
| EXEC
| SET (key : string) (value : bytes)
| GET (key : string)
| DEL (key : string)
| EXISTS (key : string)
| MGET (keys : list string)
| ZADD (key : string) (score : Z) (member : string)
| ZREM (key : string) (member : string)
| ZREVRANGE (key : string) (start stop : Z)
| HSET (key field value : string)
| HGET (key field : string)
| HDEL (key field : string)
| HEXISTS (key field : string).

#[local] Set Warnings "-register-all".
Inductive Reply : Type :=
| RNil
| RInt (n : Z)
| RBulk (b : bytes)
| RStatus (s : string)
| RArray (rs : list Reply)
| RError (msg : string).

Definition zset_le (a b : string * Z) : bool :=
  (a.2 <? b.2) || ((a.2 =? b.2) && String.leb a.1 b.1).

Fixpoint zset_insert (x : string * Z) (z : zset) : zset :=
  match z with
  | [] => [x]
  | y :: z' => if zset_le x y then x :: y :: z' else y :: zset_insert x z'
  end.

Definition zset_remove (member : string) (z : zset) : zset :=
  List.filter (fun y => negb (String.eqb y.1 member)) z.

Definition zset_mem (member : string) (z : zset) : bool :=
  List.existsb (fun y => String.eqb y.1 member) z.

Definition zset_add (member : string) (score : Z) (z : zset) : zset :=
  zset_insert (member, score) (zset_remove member z).

(** Range by rank: both ends inclusive, a negative index counts from the
    end of the list ([-1] is the last element). *)
Definition range_by_rank {A : Type} (l : list A) (start stop : Z) : list A :=
  let llen := Z.of_nat (length l) in
  let start := if start <? 0 then llen + start else start in
  let stop := if stop <? 0 then llen + stop else stop in
  let start := if start <? 0 then 0 else start in
  if (stop <? start) || (llen <=? start) then []
  else
    let stop := if llen <=? stop then llen - 1 else stop in
    firstn (Z.to_nat (stop - start + 1)) (skipn (Z.to_nat start) l).

Definition wrongtype : Reply :=
  RError "WRONGTYPE Operation against a key holding the wrong kind of value".

Definition bool_reply (b : bool) : Reply := RInt (if b then 1 else 0).

(** The effect of one data command on the key space, and its reply. *)
Definition apply_cmd (db : gmap string RVal) (cmd : Cmd) : gmap string RVal * Reply :=
  match cmd with
  | MULTI | EXEC => (db, RError "ERR not a data command")
  | SET k v => (<[k := VString v]> db, RStatus "OK")
  | GET k =>
      match db !! k with
      | None => (db, RNil)
      | Some (VString v) => (db, RBulk v)
      | Some _ => (db, wrongtype)
      end
  | DEL k =>
      match db !! k with
      | None => (db, RInt 0)
      | Some _ => (delete k db, RInt 1)
      end
  | EXISTS k => (db, bool_reply (bool_decide (is_Some (db !! k))))
  | MGET ks =>
      (db, RArray (List.map (fun k => match db !! k with
                                      | Some (VString v) => RBulk v
                                      | _ => RNil
                                      end) ks))
  | ZADD k s m =>
      match db !! k with
      | None => (<[k := VZSet [(m, s)]]> db, RInt 1)
      | Some (VZSet z) =>
          (<[k := VZSet (zset_add m s z)]> db, bool_reply (negb (zset_mem m z)))
      | Some _ => (db, wrongtype)
      end
  | ZREM k m =>
      match db !! k with
      | None => (db, RInt 0)
      | Some (VZSet z) =>
          let z' := zset_remove m z in
          (match z' with [] => delete k db | _ => <[k := VZSet z']> db end,
           bool_reply (zset_mem m z))
      | Some _ => (db, wrongtype)
      end
  | ZREVRANGE k start stop =>
      match db !! k with
      | None => (db, RArray [])
      | Some (VZSet z) =>
          (db, RArray (List.map RBulk (range_by_rank (rev (List.map fst z)) start stop)))
      | Some _ => (db, wrongtype)
      end
  | HSET k f v =>
      match db !! k with
      | None => (<[k := VHash {[f := v]}]> db, RInt 1)
      | Some (VHash h) =>
          (<[k := VHash (<[f := v]> h)]> db, bool_reply (bool_decide (h !! f = None)))
      | Some _ => (db, wrongtype)
      end
  | HGET k f =>
      match db !! k with
      | None => (db, RNil)
      | Some (VHash h) => (db, match h !! f with Some v => RBulk v | None => RNil end)
      | Some _ => (db, wrongtype)
      end
  | HDEL k f =>
      match db !! k with
      | None => (db, RInt 0)
      | Some (VHash h) =>
          let h' := delete f h in
          (if bool_decide (h' = ∅) then delete k db else <[k := VHash h']> db,
           bool_reply (bool_decide (is_Some (h !! f))))
      | Some _ => (db, wrongtype)
      end
  | HEXISTS k f =>
      match db !! k with
      | None => (db, RInt 0)
      | Some (VHash h) => (db, bool_reply (bool_decide (is_Some (h !! f))))
      | Some _ => (db, wrongtype)
      end
  end.

(** The commands queued by a transaction are applied in order, with
    nothing in between. *)
Fixpoint apply_all (db : gmap string RVal) (cmds : list Cmd) : gmap string RVal * list Reply :=
  match cmds with
  | [] => (db, [])
  | cmd :: rest =>
      let '(db1, r) := apply_cmd db cmd in
      let '(db2, rs) := apply_all db1 rest in
      (db2, r :: rs)
  end.

(** ** The connection

    Modelled from the spec: a redigo connection to the server, as far as
    the store uses it.  [db] is the server's key space, [txn] the queue of the transaction
    this connection has open (after MULTI, before EXEC), [faults] the
    schedule of I/O failures (one flag is consumed by each round trip,
    [true] makes it fail) and [trace] the commands the client has issued
    so far, oldest first. *)
Record Conn : Type := mkConn {
  db : gmap string RVal;
  txn : option (list Cmd);
  faults : list bool;
  trace : list Cmd
}.

(** The server receives one command on this connection. *)
Definition serve (c : Conn) (cmd : Cmd) : Conn * Reply :=
  match txn c, cmd with
  | Some _, MULTI => (c, RError "ERR MULTI calls can not be nested")
  | Some q, EXEC =>
      let '(db', rs) := apply_all (db c) q in
      (mkConn db' None (faults c) (trace c), RArray rs)
  | Some q, _ => (mkConn (db c) (Some (q ++ [cmd])%list) (faults c) (trace c), RStatus "QUEUED")
  | None, MULTI => (mkConn (db c) (Some []) (faults c) (trace c), RStatus "OK")
  | None, EXEC => (c, RError "ERR EXEC without MULTI")
  | None, _ =>
      let '(db', r) := apply_cmd (db c) cmd in
      (mkConn db' None (faults c) (trace c), r)
  end.

Definition issued (c : Conn) (cmd : Cmd) : Conn :=
  mkConn (db c) (txn c) (faults c) (trace c ++ [cmd])%list.

(** [conn.Send]: the command goes out without waiting for its reply.
    The server takes it in the order of sending; after MULTI it only
    queues it. *)
Definition Send (c : Conn) (cmd : Cmd) : Conn :=
  fst (serve (issued c cmd) cmd).

(** [conn.Do]: one round trip.  An I/O failure drops the connection's open
    transaction and leaves the key space as it was; an error reply of the
    server is returned as an error. *)
Definition Do (c : Conn) (cmd : Cmd) : Conn * result Reply :=
  let c := issued c cmd in
  match faults c with
  | true :: fs => (mkConn (db c) None fs (trace c), Err (ErrText "i/o failure"))
  | _ =>
      let '(c', r) := serve (mkConn (db c) (txn c) (tail (faults c)) (trace c)) cmd in
      (c', match r with RError msg => Err (ErrText msg) | _ => Ok r end)
  end.

(** ** redigo's reply conversions *)

(** [redis.Bool] *)
Definition redis_Bool (r : result Reply) : result bool :=
  match r with
  | Err e => Err e
  | Ok (RInt n) => Ok (negb (n =? 0))
  | Ok RNil => Err ErrNil
  | Ok _ => Err (ErrText "redigo: unexpected type for Bool")
  end.

(** [redis.Bytes] and [redis.String] *)
Definition redis_Bytes (r : result Reply) : result bytes :=
  match r with
  | Err e => Err e
  | Ok (RBulk b) => Ok b
  | Ok (RStatus s) => Ok s
  | Ok RNil => Err ErrNil
  | Ok _ => Err (ErrText "redigo: unexpected type for Bytes")
  end.

Definition redis_String (r : result Reply) : result string := redis_Bytes r.

(** [redis.ByteSlices] and [redis.Strings]: a nil element becomes the
    empty slice. *)
Fixpoint bulk_elements (rs : list Reply) : result (list bytes) :=
  match rs with
  | [] => Ok []
  | r :: rest =>
      match r, bulk_elements rest with
      | RBulk b, Ok bs => Ok (b :: bs)
      | RNil, Ok bs => Ok ("" :: bs)
      | (RBulk _ | RNil), Err e => Err e
      | _, _ => Err (ErrText "redigo: unexpected element type")
      end
  end.

Definition redis_ByteSlices (r : result Reply) : result (list bytes) :=
  match r with
  | Err e => Err e
  | Ok (RArray rs) => bulk_elements rs
  | Ok RNil => Err ErrNil
  | Ok _ => Err (ErrText "redigo: unexpected type for ByteSlices")
  end.

Definition redis_Strings (r : result Reply) : result (list string) :=
  redis_ByteSlices r.

(** ** The query helpers of the package

    These functions are called by [device.go] and declared in another
    file of the package. *)

Section Store.
Context {codec : JSON}.

(** Modelled from the spec: [objectIdExists] is a pure read check; it
    receives the stored key alone and asks the substrate whether that key
    exists, which by invariant I1 is membership in the Id Membership
    Index.  A database-access failure is reported as an error, distinct
    from absence (section 4.1). *)
Definition objectIdExists (conn : Conn) (id : string) : Conn * bool * option EdgeX :=
  let '(conn, r) := Do conn (EXISTS id) in
  match redis_Bool r with
  | Err err =>
      (conn, false,
       Some (NewCommonEdgeX KindDatabaseError "object Id existence check failed" (CauseGo err)))
  | Ok exists_ => (conn, exists_, None)
  end.

(** Modelled from the spec: [objectNameExists] is a pure read check
    against the Name Uniqueness Index, a hash from name to stored key
    (sections 4.1 and 6). *)
Definition objectNameExists (conn : Conn) (hash name : string) : Conn * bool * option EdgeX :=
  let '(conn, r) := Do conn (HEXISTS hash name) in
  match redis_Bool r with
  | Err err =>
      (conn, false,
       Some (NewCommonEdgeX KindDatabaseError "object name existence check failed" (CauseGo err)))
  | Ok exists_ => (conn, exists_, None)
  end.

(** Modelled from the spec: [getObjectById] fetches the Primary Object
    Table entry at a stored key and decodes it.  Absence is [NotFound], a
    substrate fault is [DatabaseError], a decode failure is
    [ContractInvalid] (section 7). *)
Definition getObjectById (conn : Conn) (id : string) : Conn * Device * option EdgeX :=
  let '(conn, r) := Do conn (GET id) in
  match redis_Bytes r with
  | Err ErrNil =>
      (conn, zeroDevice,
       Some (NewCommonEdgeX KindEntityDoesNotExist
               ("fail to query object, because id: " ++ id ++ " doesn't exist in the database")
               (CauseGo ErrNil)))
  | Err err =>
      (conn, zeroDevice,
       Some (NewCommonEdgeX KindDatabaseError
               ("query object by id: " ++ id ++ " from the database failed") (CauseGo err)))
  | Ok obj =>
      match json_Unmarshal obj with
      | Err err =>
          (conn, zeroDevice,
           Some (NewCommonEdgeX KindContractInvalid
                   "object format parsing failed from the database" (CauseGo err)))
      | Ok out => (conn, out, None)
      end
  end.

(** Modelled from the spec: [getObjectByHash] resolves a field of a hash
    to a stored key and then fetches the object at that key. *)
Definition getObjectByHash (conn : Conn) (hash field : string) : Conn * Device * option EdgeX :=
  let '(conn, r) := Do conn (HGET hash field) in
  match redis_String r with
  | Err ErrNil =>
      (conn, zeroDevice,
       Some (NewCommonEdgeX KindEntityDoesNotExist
               ("query object by field " ++ field ++ " failed: not found in " ++ hash)
               (CauseGo ErrNil)))
  | Err err =>
      (conn, zeroDevice,
       Some (NewCommonEdgeX KindDatabaseError
               ("query object by field " ++ field ++ " from the database failed") (CauseGo err)))
  | Ok id => getObjectById conn id
  end.

(** Modelled from the spec: the batch fetch of the objects at a list of
    stored keys (one round trip; none when there is nothing to fetch). *)
Definition getObjectsByIds (conn : Conn) (ids : list string) : Conn * list bytes * option EdgeX :=
  match ids with
  | [] => (conn, [], None)
  | _ =>
      let '(conn, r) := Do conn (MGET ids) in
      match redis_ByteSlices r with
      | Err err =>
          (conn, [],
           Some (NewCommonEdgeX KindDatabaseError "query objects from the database failed"
                   (CauseGo err)))
      | Ok objects => (conn, objects, None)
      end
  end.

(** Modelled from the spec: [getObjectsByRevRange] is one range read of
    the ordered set at [key], by descending rank from [start] to [end]
    inclusive, followed by one batch fetch (sections 4.4 and 5). *)
Definition getObjectsByRevRange (conn : Conn) (key : string) (start end_ : Z)
  : Conn * list bytes * option EdgeX :=
  let '(conn, r) := Do conn (ZREVRANGE key start end_) in
  match redis_Strings r with
  | Err err =>
      (conn, [],
       Some (NewCommonEdgeX KindDatabaseError
               ("query object ids by range from " ++ key ++ " failed") (CauseGo err)))
  | Ok ids => getObjectsByIds conn ids
  end.

(** The stored keys present in every one of the listings, in the order
    of the first. *)
Definition common_ids (listings : list (list string)) : list string :=
  match listings with
  | [] => []
  | first :: others =>
      List.filter (fun id => forallb (fun l => existsb (String.eqb id) l) others) first
  end.

(** The full listing of each label bucket, in turn. *)
Fixpoint label_listings (conn : Conn) (command : string -> Z -> Z -> Cmd) (key : string)
    (labels : list string) : Conn * list (list string) * option EdgeX :=
  match labels with
  | [] => (conn, [], None)
  | label :: rest =>
      let '(conn, r) := Do conn (command (CreateKey [key; v2_Label; label]) 0 (-1)) in
      match redis_Strings r with
      | Err err =>
          (conn, [],
           Some (NewCommonEdgeX KindDatabaseError
                   ("query object ids by label " ++ label ++ " failed") (CauseGo err)))
      | Ok ids =>
          let '(conn, listings, e) := label_listings conn command key rest in
          (conn, ids :: listings, e)
      end
  end.

(** Modelled from the spec: [getObjectsByLabelsAndSomeRange].  Without
    labels the range is taken over the collection itself (the Id
    Membership Index is the universal collection for label queries); with
    labels it is taken over the intersection of the label buckets, in
    the order of the range command, with the same start and end
    (section 4.4). *)
Definition getObjectsByLabelsAndSomeRange (conn : Conn) (command : string -> Z -> Z -> Cmd)
    (key : string) (labels : list string) (start end_ : Z) : Conn * list bytes * option EdgeX :=
  match labels with
  | [] =>
      let '(conn, r) := Do conn (command key start end_) in
      match redis_Strings r with
      | Err err =>
          (conn, [],
           Some (NewCommonEdgeX KindDatabaseError
                   ("query object ids by range from " ++ key ++ " failed") (CauseGo err)))
      | Ok ids => getObjectsByIds conn ids
      end
  | _ =>
      let '(conn, listings, e) := label_listings conn command key labels in
      match e with
      | Some err => (conn, [], Some err)
      | None => getObjectsByIds conn (range_by_rank (common_ids listings) start end_)
      end
  end.

End Store.

(** ** device.go *)

Section Device.
Context {codec : JSON}.

(** deviceNameExists whether the device exists by name *)
Definition deviceNameExists (conn : Conn) (name : string) : Conn * bool * option EdgeX :=
  let '(conn, exists_, err) := objectNameExists conn DeviceCollectionName name in
  match err with
  | Some err =>
      (conn, false,
       Some (NewCommonEdgeX KindDatabaseError "device existence check by name failed"
               (CauseEdgeX err)))
  | None => (conn, exists_, None)
  end.

(** deviceIdExists checks whether the device exists by id *)
Definition deviceIdExists (conn : Conn) (id : string) : Conn * bool * option EdgeX :=
  let '(conn, exists_, err) := objectIdExists conn (deviceStoredKey id) in
  match err with
  | Some err =>
      (conn, false,
       Some (NewCommonEdgeX KindDatabaseError "device existence check by id failed"
               (CauseEdgeX err)))
  | None => (conn, exists_, None)
  end.

(** The assignments [d.Created = ts] and [d.Modified = ts]. *)
Definition with_Created (d : Device) (ts : Z) : Device :=
  mkDevice (Id d) (Name d) (ServiceName d) (ProfileName d) (Labels d) ts (Modified d).
Definition with_Modified (d : Device) (ts : Z) : Device :=
  mkDevice (Id d) (Name d) (ServiceName d) (ProfileName d) (Labels d) (Created d) ts.

(** addDevice adds a new device into DB.  [ts] is the reading of the
    clock that [common.MakeTimestamp()] returns. *)
Definition addDevice (conn : Conn) (ts : Z) (d : Device) : Conn * Device * option EdgeX :=
  let '(conn, exists_, edgeXerr) := deviceIdExists conn (Id d) in
  match edgeXerr with
  | Some edgeXerr => (conn, d, Some (NewCommonEdgeXWrapper edgeXerr))
  | None =>
  if exists_ then
    (conn, d,
     Some (NewCommonEdgeX KindDuplicateName ("device id " ++ Id d ++ " already exists") CauseNil))
  else
  let '(conn, exists_, edgeXerr) := deviceNameExists conn (Name d) in
  match edgeXerr with
  | Some edgeXerr => (conn, d, Some (NewCommonEdgeXWrapper edgeXerr))
  | None =>
  if exists_ then
    (conn, d,
     Some (NewCommonEdgeX KindDuplicateName ("device name " ++ Name d ++ " already exists")
             CauseNil))
  else
  let d := if Created d =? 0 then with_Created d ts else d in
  let d := with_Modified d ts in
  match json_Marshal d with
  | Err err =>
      (conn, d,
       Some (NewCommonEdgeX KindContractInvalid
               "unable to JSON marshal device for Redis persistence" (CauseGo err)))
  | Ok dsJSONBytes =>
  let storedKey := deviceStoredKey (Id d) in
  let conn := Send conn MULTI in
  let conn := Send conn (SET storedKey dsJSONBytes) in
  let conn := Send conn (ZADD DeviceCollection 0 storedKey) in
  let conn := Send conn (HSET DeviceCollectionName (Name d) storedKey) in
  let conn := Send conn (ZADD (CreateKey [DeviceCollectionServiceName; ServiceName d])
                           (Modified d) storedKey) in
  let conn := Send conn (ZADD (CreateKey [DeviceCollectionProfileName; ProfileName d])
                           (Modified d) storedKey) in
  let conn := fold_left (fun conn label =>
                Send conn (ZADD (CreateKey [DeviceCollectionLabel; label]) (Modified d) storedKey))
                (Labels d) conn in
  let '(conn, r) := Do conn EXEC in
  match r with
  | Err err =>
      (conn, d, Some (NewCommonEdgeX KindDatabaseError "device creation failed" (CauseGo err)))
  | Ok _ => (conn, d, None)
  end
  end
  end
  end.

(** deviceById query device by id from DB *)
Definition deviceById (conn : Conn) (id : string) : Conn * Device * option EdgeX :=
  let '(conn, device, edgeXerr) := getObjectById conn (deviceStoredKey id) in
  match edgeXerr with
  | Some edgeXerr => (conn, device, Some (NewCommonEdgeXWrapper edgeXerr))
  | None => (conn, device, None)
  end.

(** deviceByName query device by name from DB *)
Definition deviceByName (conn : Conn) (name : string) : Conn * Device * option EdgeX :=
  let '(conn, device, edgeXerr) := getObjectByHash conn DeviceCollectionName name in
  match edgeXerr with
  | Some edgeXerr => (conn, device, Some (NewCommonEdgeXWrapper edgeXerr))
  | None => (conn, device, None)
  end.

(** deleteDevice deletes a device *)
Definition deleteDevice (conn : Conn) (device : Device) : Conn * option EdgeX :=
  let storedKey := deviceStoredKey (Id device) in
  let conn := Send conn MULTI in
  let conn := Send conn (DEL storedKey) in
  let conn := Send conn (ZREM DeviceCollection storedKey) in
  let conn := Send conn (HDEL DeviceCollectionName (Name device)) in
  let conn := Send conn (ZREM (CreateKey [DeviceCollectionServiceName; ServiceName device])
                           storedKey) in
  let conn := Send conn (ZREM (CreateKey [DeviceCollectionProfileName; ProfileName device])
                           storedKey) in
  let conn := fold_left (fun conn label =>
                Send conn (ZREM (CreateKey [DeviceCollectionLabel; label]) storedKey))
                (Labels device) conn in
  let '(conn, r) := Do conn EXEC in
  match r with
  | Err err =>
      (conn, Some (NewCommonEdgeX KindDatabaseError "device deletion failed" (CauseGo err)))
  | Ok _ => (conn, None)
  end.

(** deleteDeviceById deletes the device by id *)
Definition deleteDeviceById (conn : Conn) (id : string) : Conn * option EdgeX :=
  let '(conn, device, err) := deviceById conn id in
  match err with
  | Some err => (conn, Some (NewCommonEdgeXWrapper err))
  | None =>
      let '(conn, err) := deleteDevice conn device in
      match err with
      | Some err => (conn, Some (NewCommonEdgeXWrapper err))
      | None => (conn, None)
      end
  end.

(** deleteDeviceByName deletes the device by name *)
Definition deleteDeviceByName (conn : Conn) (name : string) : Conn * option EdgeX :=
  let '(conn, device, err) := deviceByName conn name in
  match err with
  | Some err => (conn, Some (NewCommonEdgeXWrapper err))
  | None =>
      let '(conn, err) := deleteDevice conn device in
      match err with
      | Some err => (conn, Some (NewCommonEdgeXWrapper err))
      | None => (conn, None)
      end
  end.

(** The decoding loop, which the three queries share word for word:
    [devices] has been made with one zero record per object, the objects
    are decoded in turn, each into its slot [i], and the first failure
    returns the empty slice with a database error. *)
Fixpoint decode_into (devices : list Device) (i : nat) (objects : list bytes)
  : list Device * option EdgeX :=
  match objects with
  | [] => (devices, None)
  | in_ :: rest =>
      match json_Unmarshal in_ with
      | Err err =>
          ([], Some (NewCommonEdgeX KindDatabaseError
                       "device format parsing failed from the database" (CauseGo err)))
      | Ok s => decode_into (<[i := s]> devices) (S i) rest
      end
  end.

(** devicesByServiceName query devices by offset, limit and name *)
Definition devicesByServiceName (conn : Conn) (offset limit : Z) (name : string)
  : Conn * list Device * option EdgeX :=
  let end_ := int64_wrap (offset + limit - 1) in
  let end_ := if limit =? -1 then limit else end_ in
  let '(conn, objects, err) :=
    getObjectsByRevRange conn (CreateKey [DeviceCollectionServiceName; name]) offset end_ in
  match err with
  | Some err => (conn, [], Some (NewCommonEdgeXWrapper err))
  | None => let '(devices, edgeXerr) :=
        decode_into (replicate (length objects) zeroDevice) 0%nat objects in
      (conn, devices, edgeXerr)
  end.

(** devicesByLabels query devices with offset, limit and labels *)
Definition devicesByLabels (conn : Conn) (offset limit : Z) (labels : list string)
  : Conn * list Device * option EdgeX :=
  let end_ := int64_wrap (offset + limit - 1) in
  let end_ := if limit =? -1 then limit else end_ in
  let '(conn, objects, edgeXerr) :=
    getObjectsByLabelsAndSomeRange conn ZREVRANGE DeviceCollection labels offset end_ in
  match edgeXerr with
  | Some edgeXerr => (conn, [], Some (NewCommonEdgeXWrapper edgeXerr))
  | None => let '(devices, edgeXerr) :=
        decode_into (replicate (length objects) zeroDevice) 0%nat objects in
      (conn, devices, edgeXerr)
  end.

(** devicesByProfileName query devices by offset, limit and profile name *)
Definition devicesByProfileName (conn : Conn) (offset limit : Z) (profileName : string)
  : Conn * list Device * option EdgeX :=
  let end_ := int64_wrap (offset + limit - 1) in
  let end_ := if limit =? -1 then limit else end_ in
  let '(conn, objects, err) :=
    getObjectsByRevRange conn (CreateKey [DeviceCollectionProfileName; profileName]) offset end_ in
  match err with
  | Some err => (conn, [], Some (NewCommonEdgeXWrapper err))
  | None => let '(devices, edgeXerr) :=
        decode_into (replicate (length objects) zeroDevice) 0%nat objects in
      (conn, devices, edgeXerr)
  end.

End Device.

(** ** A line codec and sample data

    An instance of the codec, used to run the store on concrete records:
    the fields are written on one line, separated by a bar, the labels by
    commas, the timestamps in hexadecimal.  A field that contains the
    bar cannot be encoded. *)
Module Demo.

Fixpoint split (sep : Ascii.ascii) (s : string) : list string :=
  match s with
  | EmptyString => [EmptyString]
  | String ch rest =>
      match split sep rest with
      | [] => []
      | w :: ws => if Ascii.eqb ch sep then EmptyString :: w :: ws else String ch w :: ws
      end
  end.

Fixpoint has_char (sep : Ascii.ascii) (s : string) : bool :=
  match s with
  | EmptyString => false
  | String ch rest => Ascii.eqb ch sep || has_char sep rest
  end.

Definition bar : Ascii.ascii := "|"%char.
Definition comma : Ascii.ascii := ","%char.

Definition marshal (d : Device) : result bytes :=
  let fields :=
    [Id d; Name d; ServiceName d; ProfileName d; String.concat "," (Labels d);
     HexString.of_Z (Created d); HexString.of_Z (Modified d)] in
  if existsb (has_char bar) fields then Err (ErrText "json: unsupported value")
  else Ok (String.concat "|" fields).

Definition unmarshal (b : bytes) : result Device :=
  match split bar b with
  | [i; n; s; p; ls; c; m] =>
      Ok (mkDevice i n s p (if String.eqb ls "" then [] else split comma ls)
            (HexString.to_Z c) (HexString.to_Z m))
  | _ => Err (ErrText "unexpected end of JSON input")
  end.

Definition codec : JSON := {| json_Marshal := marshal; json_Unmarshal := unmarshal |}.

(** A connection to an empty server, with no failure scheduled. *)
Definition conn0 : Conn := mkConn ∅ None [] [].

(** The device of the scenario in section 8 of the specification. *)
Definition d1 : Device :=
  mkDevice "d1" "therm-1" "svc1" "prof1" ["floor1"; "temp"] 0 0.

(** The connection after [d1] has been created at time 1000. *)
Definition conn1 : Conn := (@addDevice codec conn0 1000 d1).1.1.

(** A second record with the id of [d1] and another name, one with the
    name of [d1] and another id, and one that the codec cannot encode. *)
Definition d1_again : Device :=
  mkDevice "d1" "therm-2" "svc2" "prof2" [] 0 0.
Definition d2 : Device :=
  mkDevice "d2" "therm-1" "svc1" "prof1" ["temp"] 0 0.
Definition d3 : Device :=
  mkDevice "d3" "a|b" "svc1" "prof1" [] 7 0.

(** The server of [conn1] behind a connection whose next round trip
    fails, and the same server after the entry of [d1] has been
    overwritten with bytes that are no record. *)
Definition conn1_failing : Conn := mkConn (db conn1) None [true] [].
Definition conn1_corrupt : Conn := (Do (mkConn (db conn1) None [] []) (SET "md|dv:d1" "oops")).1.

End Demo.

(** ** Log levels

    The log entry of package [support_domain] and the check of its
    level. *)
Module support_domain.

Record LogEntry : Type := mkLogEntry {
  Level : string;
  Labels : list string;
  OriginService : string;
  Message : string;
  Created : Z
}.

Definition TRACE : string := "TRACE".
Definition DEBUG : string := "DEBUG".
Definition WARN : string := "WARN".
Definition INFO : string := "INFO".
Definition ERROR : string := "ERROR".

Definition IsValidLogLevel (l : string) : bool :=
  String.eqb l TRACE || String.eqb l DEBUG || String.eqb l WARN || String.eqb l INFO
  || String.eqb l ERROR.

End support_domain.

(** ** More sample data *)
Module Samples.

(** Connections to an empty server whose first, second and third round
    trip fail. *)
Definition conn_fails_1st : Conn := mkConn ∅ None [true] [].
Definition conn_fails_2nd : Conn := mkConn ∅ None [false; true] [].
Definition conn_fails_3rd : Conn := mkConn ∅ None [false; false; true] [].

(** A record whose id is the word that names the name index. *)
Definition d_name : Device :=
  mkDevice "name" "therm-9" "svc1" "prof1" [] 0 0.

(** The connection after [d_name] has been created on the empty server. *)
Definition conn_name : Conn := (@addDevice Demo.codec Demo.conn0 3000 d_name).1.1.

(** The connection after [Demo.d1] has been created and deleted. *)
Definition conn_deleted : Conn := (@deleteDeviceById Demo.codec Demo.conn1 "d1").1.

(** A second device of the service of [Demo.d1], and the connection
    after it has been created beside [Demo.d1]. *)
Definition d4 : Device :=
  mkDevice "d4" "therm-4" "svc1" "prof4" ["temp"] 0 0.
Definition conn_two : Conn := (@addDevice Demo.codec Demo.conn1 2000 d4).1.1.

End Samples.

(** * Properties *)

(** ** What is in the store *)

(** The id is taken: the Primary Object Table has an entry at its stored
    key. *)
Definition id_exists (m : gmap string RVal) (id : string) : bool :=
  bool_decide (is_Some (m !! deviceStoredKey id)).

(** The name is taken: the Name Uniqueness Index maps it to a stored
    key. *)
Definition name_exists (m : gmap string RVal) (name : string) : bool :=
  match m !! DeviceCollectionName with
  | Some (VHash h) => bool_decide (is_Some (h !! name))
  | _ => false
  end.

(** The next [n] round trips of the connection meet no I/O failure. *)
Definition no_fault (n : nat) (c : Conn) : bool :=
  forallb negb (firstn n (faults c)).

(** The commands that are queued by an open transaction. *)
Definition is_data (cmd : Cmd) : bool :=
  match cmd with MULTI | EXEC => false | _ => true end.

(** The commands that only read. *)
Definition is_read (cmd : Cmd) : bool :=
  match cmd with
  | GET _ | EXISTS _ | MGET _ | ZREVRANGE _ _ _ | HGET _ _ | HEXISTS _ _ => true
  | _ => false
  end.

(** The commands that never replace a string value: they act on ordered
    sets and hashes, and are refused on a key that holds a string. *)
Definition keeps_strings (cmd : Cmd) : bool :=
  match cmd with ZADD _ _ _ | HSET _ _ _ => true | _ => false end.

(** The stored keys of the group at [key], in the order of the reverse
    range: by descending score. *)
Definition listing (m : gmap string RVal) (key : string) : list string :=
  match m !! key with
  | Some (VZSet z) => rev (List.map fst z)
  | _ => []
  end.

(** The key is free or holds an ordered set. *)
Definition is_bucket (m : gmap string RVal) (key : string) : bool :=
  match m !! key with
  | None | Some (VZSet _) => true
  | Some _ => false
  end.

(** What a batch fetch returns for a stored key: its string, or the
    empty slice when there is none. *)
Definition entry (m : gmap string RVal) (key : string) : bytes :=
  match m !! key with
  | Some (VString v) => v
  | _ => ""
  end.

(** The window of a group that the specification describes for an
    offset and a limit (section 4.4): everything from the offset on for the limit -1, and at most
    [limit] keys from the offset on otherwise. *)
Definition window (l : list string) (offset limit : Z) : list string :=
  if limit =? -1 then skipn (Z.to_nat offset) l
  else firstn (Z.to_nat limit) (skipn (Z.to_nat offset) l).

(** The entry decodes to a device record. *)
Definition decodes `{JSON} (entry : bytes) : bool :=
  match json_Unmarshal entry with Ok _ => true | Err _ => false end.

(** The name is in no way indexed: a lookup in the Name Uniqueness
    Index finds nothing. *)
Definition name_absent (m : gmap string RVal) (name : string) : bool :=
  match m !! DeviceCollectionName with
  | None => true
  | Some (VHash h) => bool_decide (h !! name = None)
  | Some _ => false
  end.

(** The record as [addDevice] stamps it at time [ts]. *)
Definition stamped (d : Device) (ts : Z) : Device :=
  with_Modified (if Created d =? 0 then with_Created d ts else d) ts.

(** The mutations of a create, in the order of the batch. *)
Definition create_batch (d : Device) (dsJSONBytes : bytes) : list Cmd :=
  let storedKey := deviceStoredKey (Id d) in
  [SET storedKey dsJSONBytes;
   ZADD DeviceCollection 0 storedKey;
   HSET DeviceCollectionName (Name d) storedKey;
   ZADD (CreateKey [DeviceCollectionServiceName; ServiceName d]) (Modified d) storedKey;
   ZADD (CreateKey [DeviceCollectionProfileName; ProfileName d]) (Modified d) storedKey]
  ++ List.map (fun label => ZADD (CreateKey [DeviceCollectionLabel; label]) (Modified d) storedKey)
       (Labels d).

(** The mutations of a delete, in the order of the batch. *)
Definition delete_batch (device : Device) : list Cmd :=
  let storedKey := deviceStoredKey (Id device) in
  [DEL storedKey;
   ZREM DeviceCollection storedKey;
   HDEL DeviceCollectionName (Name device);
   ZREM (CreateKey [DeviceCollectionServiceName; ServiceName device]) storedKey;
   ZREM (CreateKey [DeviceCollectionProfileName; ProfileName device]) storedKey]
  ++ List.map (fun label => ZREM (CreateKey [DeviceCollectionLabel; label]) storedKey)
       (Labels device).

(** The member is in the ordered set at [key]. *)
Definition in_bucket (m : gmap string RVal) (key member : string) : bool :=
  match m !! key with
  | Some (VZSet z) => zset_mem member z
  | _ => false
  end.

(** The key of the Name Uniqueness Index is free or holds a hash. *)
Definition is_index (m : gmap string RVal) : bool :=
  match m !! DeviceCollectionName with
  | None | Some (VHash _) => true
  | Some _ => false
  end.

(** The stored key that the Name Uniqueness Index gives for a name. *)
Definition name_lookup (m : gmap string RVal) (name : string) : option string :=
  match m !! DeviceCollectionName with
  | Some (VHash h) => h !! name
  | _ => None
  end.

(** The commands that only take away. *)
Definition removes_only (cmd : Cmd) : bool :=
  match cmd with DEL _ | ZREM _ _ | HDEL _ _ => true | _ => false end.

(** The key that a command acts on, for the commands on one key. *)
Definition cmd_key (cmd : Cmd) : option string :=
  match cmd with
  | MULTI | EXEC | MGET _ => None
  | SET k _ | GET k | DEL k | EXISTS k | ZADD k _ _ | ZREM k _ | ZREVRANGE k _ _
  | HSET k _ _ | HGET k _ | HDEL k _ | HEXISTS k _ => Some k
  end.

(** The key space can index the record: the keys of its buckets are free
    or hold ordered sets, and its stored key is none of the keys of the
    indexes. *)
Definition indexable (m : gmap string RVal) (d : Device) : bool :=
  let storedKey := deviceStoredKey (Id d) in
  let buckets :=
    DeviceCollection
    :: CreateKey [DeviceCollectionServiceName; ServiceName d]
    :: CreateKey [DeviceCollectionProfileName; ProfileName d]
    :: List.map (fun label => CreateKey [DeviceCollectionLabel; label]) (Labels d) in
  forallb (is_bucket m) buckets
  && forallb (fun key => negb (String.eqb storedKey key)) (DeviceCollectionName :: buckets).

(** ** The connection *)

Lemma serve_trace (c : Conn) (cmd : Cmd) : trace (serve c cmd).1 = trace c.
Proof.
  unfold serve. destruct (txn c) as [q|], cmd; try reflexivity;
    try (destruct (apply_all (db c) q); reflexivity);
    match goal with |- context [apply_cmd ?m ?x] => destruct (apply_cmd m x) end;
    reflexivity.
Qed.

Lemma Send_trace (c : Conn) (cmd : Cmd) : trace (Send c cmd) = (trace c ++ [cmd])%list.
Proof. unfold Send. rewrite serve_trace. reflexivity. Qed.

Lemma Do_trace (c : Conn) (cmd : Cmd) : trace (Do c cmd).1 = (trace c ++ [cmd])%list.
Proof.
  unfold Do. destruct c as [m t f tr]. simpl.
  destruct f as [|[] f]; simpl; try reflexivity;
    match goal with |- context [serve ?c ?x] =>
      pose proof (serve_trace c x) as H; destruct (serve c x) end; exact H.
Qed.

Lemma Send_MULTI (c : Conn) :
  txn c = None ->
  Send c MULTI = mkConn (db c) (Some []) (faults c) (trace c ++ [MULTI])%list.
Proof. intros H. unfold Send, serve, issued. simpl. rewrite H. reflexivity. Qed.

Lemma Send_queued (c : Conn) (q : list Cmd) (cmd : Cmd) :
  txn c = Some q -> is_data cmd = true ->
  Send c cmd = mkConn (db c) (Some (q ++ [cmd])%list) (faults c) (trace c ++ [cmd])%list.
Proof.
  intros H D. unfold Send, serve, issued. simpl. rewrite H.
  destruct cmd; try discriminate D; reflexivity.
Qed.

Lemma Send_all_queued {A : Type} (f : A -> Cmd) (l : list A) :
  (forall x, is_data (f x) = true) ->
  forall (c : Conn) (q : list Cmd), txn c = Some q ->
  fold_left (fun c x => Send c (f x)) l c
  = mkConn (db c) (Some (q ++ List.map f l)%list) (faults c) (trace c ++ List.map f l)%list.
Proof.
  intros D. induction l as [|x l IH]; intros c q H; simpl.
  - rewrite !app_nil_r. destruct c; simpl in *; subst; reflexivity.
  - rewrite (IH (Send c (f x)) (q ++ [f x])%list).
    + rewrite (Send_queued c q (f x) H (D x)). simpl.
      rewrite <- !app_assoc. reflexivity.
    + rewrite (Send_queued c q (f x) H (D x)). reflexivity.
Qed.

(** EXEC commits the queue in one step, or, on an I/O failure, drops it
    and leaves the key space as it was. *)
Lemma Do_EXEC (c : Conn) (q : list Cmd) :
  txn c = Some q ->
  Do c EXEC =
    match faults c with
    | true :: fs =>
        (mkConn (db c) None fs (trace c ++ [EXEC])%list, Err (ErrText "i/o failure"))
    | _ =>
        (mkConn (apply_all (db c) q).1 None (tail (faults c)) (trace c ++ [EXEC])%list,
         Ok (RArray (apply_all (db c) q).2))
    end.
Proof.
  intros H. unfold Do, serve, issued. simpl.
  destruct (faults c) as [|[] fs]; simpl; try reflexivity;
    rewrite H; destruct (apply_all (db c) q); reflexivity.
Qed.

Lemma serve_idle (c : Conn) (cmd : Cmd) :
  txn c = None -> is_data cmd = true ->
  serve c cmd
  = (mkConn (apply_cmd (db c) cmd).1 None (faults c) (trace c), (apply_cmd (db c) cmd).2).
Proof.
  intros T D. unfold serve. rewrite T.
  destruct cmd; try discriminate D;
    match goal with |- context [apply_cmd ?m ?x] => destruct (apply_cmd m x) end;
    reflexivity.
Qed.

(** A round trip on an idle connection that meets no failure applies
    the command to the key space and returns its reply. *)
Lemma Do_idle (c : Conn) (cmd : Cmd) :
  txn c = None -> no_fault 1 c = true -> is_data cmd = true ->
  Do c cmd =
    (mkConn (apply_cmd (db c) cmd).1 None (tail (faults c)) (trace c ++ [cmd])%list,
     match (apply_cmd (db c) cmd).2 with
     | RError msg => Err (ErrText msg)
     | r => Ok r
     end).
Proof.
  intros T F D. unfold Do, issued. destruct c as [m t f tr]. simpl in *. subst t.
  destruct f as [|[] f]; try discriminate F; simpl;
    rewrite serve_idle by (reflexivity || exact D); simpl;
    destruct (apply_cmd m cmd) as [m' []]; reflexivity.
Qed.

(** A failed round trip changes neither the key space nor the device. *)
Lemma Do_fault (c : Conn) (cmd : Cmd) :
  no_fault 1 c = false ->
  Do c cmd = (mkConn (db c) None (tail (faults c)) (trace c ++ [cmd])%list,
              Err (ErrText "i/o failure")).
Proof.
  intros F. unfold Do, issued. destruct c as [m t f tr]. simpl in *.
  destruct f as [|[] f]; try discriminate F; reflexivity.
Qed.

(** Inside an open transaction a data command is only queued. *)
Lemma Do_queued (c : Conn) (q : list Cmd) (cmd : Cmd) :
  txn c = Some q -> no_fault 1 c = true -> is_data cmd = true ->
  Do c cmd =
    (mkConn (db c) (Some (q ++ [cmd])%list) (tail (faults c)) (trace c ++ [cmd])%list,
     Ok (RStatus "QUEUED")).
Proof.
  intros T F D. unfold Do, serve, issued. destruct c as [m t f tr]. simpl in *. subst t.
  destruct f as [|[] f]; try discriminate F;
    destruct cmd; try discriminate D; reflexivity.
Qed.

(** The reads leave the key space alone. *)
Lemma apply_read (m : gmap string RVal) (cmd : Cmd) :
  is_read cmd = true -> (apply_cmd m cmd).1 = m.
Proof.
  destruct cmd; intros R; try discriminate R; simpl; try reflexivity;
    destruct (m !! key) as [[]|]; reflexivity.
Qed.

Lemma is_read_data (cmd : Cmd) : is_read cmd = true -> is_data cmd = true.
Proof. destruct cmd; intros R; try discriminate R; reflexivity. Qed.

Lemma Do_read_db (c : Conn) (cmd : Cmd) : is_read cmd = true -> db (Do c cmd).1 = db c.
Proof.
  intros R. pose proof (is_read_data cmd R) as D.
  destruct (no_fault 1 c) eqn:F.
  - destruct (txn c) as [q|] eqn:T.
    + rewrite (Do_queued c q cmd T F D). reflexivity.
    + rewrite (Do_idle c cmd T F D). simpl. apply apply_read, R.
  - rewrite (Do_fault c cmd F). reflexivity.
Qed.

Section PreChecks.
Context {codec : JSON}.

(** The two existence checks issue one read each and never touch the key
    space. *)
Lemma deviceIdExists_read (conn : Conn) (id : string) :
  db (deviceIdExists conn id).1.1 = db conn /\
  trace (deviceIdExists conn id).1.1 = (trace conn ++ [EXISTS (deviceStoredKey id)])%list.
Proof.
  unfold deviceIdExists, objectIdExists.
  pose proof (Do_read_db conn (EXISTS (deviceStoredKey id)) eq_refl) as Hd.
  pose proof (Do_trace conn (EXISTS (deviceStoredKey id))) as Ht.
  destruct (Do conn (EXISTS (deviceStoredKey id))) as [c r]. simpl in Hd, Ht.
  destruct (redis_Bool r); simpl; auto.
Qed.

Lemma deviceNameExists_read (conn : Conn) (name : string) :
  db (deviceNameExists conn name).1.1 = db conn /\
  trace (deviceNameExists conn name).1.1
  = (trace conn ++ [HEXISTS DeviceCollectionName name])%list.
Proof.
  unfold deviceNameExists, objectNameExists.
  pose proof (Do_read_db conn (HEXISTS DeviceCollectionName name) eq_refl) as Hd.
  pose proof (Do_trace conn (HEXISTS DeviceCollectionName name)) as Ht.
  destruct (Do conn (HEXISTS DeviceCollectionName name)) as [c r]. simpl in Hd, Ht.
  destruct (redis_Bool r); simpl; auto.
Qed.

(** A check that reports no error ran on an idle connection, met no
    failure, and tells the truth about the key space. *)
Lemma deviceIdExists_ok (conn conn' : Conn) (id : string) (b : bool) :
  deviceIdExists conn id = (conn', b, None) ->
  txn conn = None /\ no_fault 1 conn = true /\
  b = id_exists (db conn) id /\
  conn' = mkConn (db conn) None (tail (faults conn))
            (trace conn ++ [EXISTS (deviceStoredKey id)])%list.
Proof.
  unfold deviceIdExists, objectIdExists, id_exists.
  destruct (no_fault 1 conn) eqn:F.
  - destruct (txn conn) as [q|] eqn:T.
    + rewrite (Do_queued conn q (EXISTS (deviceStoredKey id)) T F eq_refl).
      simpl. discriminate.
    + rewrite (Do_idle conn (EXISTS (deviceStoredKey id)) T F eq_refl). simpl.
      destruct (bool_decide (is_Some (db conn !! deviceStoredKey id))); simpl;
        intros H; inversion H; auto.
  - rewrite (Do_fault conn (EXISTS (deviceStoredKey id)) F). simpl. discriminate.
Qed.

Lemma deviceNameExists_ok (conn conn' : Conn) (name : string) (b : bool) :
  deviceNameExists conn name = (conn', b, None) ->
  txn conn = None /\ no_fault 1 conn = true /\
  b = name_exists (db conn) name /\
  conn' = mkConn (db conn) None (tail (faults conn))
            (trace conn ++ [HEXISTS DeviceCollectionName name])%list.
Proof.
  unfold deviceNameExists, objectNameExists, name_exists.
  destruct (no_fault 1 conn) eqn:F.
  - destruct (txn conn) as [q|] eqn:T.
    + rewrite (Do_queued conn q (HEXISTS DeviceCollectionName name) T F eq_refl).
      simpl. discriminate.
    + rewrite (Do_idle conn (HEXISTS DeviceCollectionName name) T F eq_refl). simpl.
      destruct (db conn !! DeviceCollectionName) as [[b0|z|h]|]; simpl;
        try discriminate; try solve [intros H; inversion H; auto].
      destruct (bool_decide (is_Some (h !! name))); simpl;
        intros H; inversion H; auto.
  - rewrite (Do_fault conn (HEXISTS DeviceCollectionName name) F). simpl. discriminate.
Qed.

(** On an idle connection without failure the id check answers. *)
Lemma deviceIdExists_idle (conn : Conn) (id : string) :
  txn conn = None -> no_fault 1 conn = true ->
  deviceIdExists conn id =
    (mkConn (db conn) None (tail (faults conn))
       (trace conn ++ [EXISTS (deviceStoredKey id)])%list,
     id_exists (db conn) id, None).
Proof.
  intros T F. unfold deviceIdExists, objectIdExists, id_exists.
  rewrite (Do_idle conn (EXISTS (deviceStoredKey id)) T F eq_refl). simpl.
  destruct (bool_decide (is_Some (db conn !! deviceStoredKey id))); reflexivity.
Qed.

(** So does the name check when the name is taken. *)
Lemma deviceNameExists_idle_taken (conn : Conn) (name : string) :
  txn conn = None -> no_fault 1 conn = true -> name_exists (db conn) name = true ->
  deviceNameExists conn name =
    (mkConn (db conn) None (tail (faults conn))
       (trace conn ++ [HEXISTS DeviceCollectionName name])%list,
     true, None).
Proof.
  intros T F N. unfold deviceNameExists, objectNameExists.
  rewrite (Do_idle conn (HEXISTS DeviceCollectionName name) T F eq_refl).
  unfold name_exists in N. simpl.
  destruct (db conn !! DeviceCollectionName) as [[b0|z|h]|]; try discriminate N.
  rewrite N. reflexivity.
Qed.

End PreChecks.

(** ** Create *)

Lemma stamped_Id (d : Device) (ts : Z) : Id (stamped d ts) = Id d.
Proof. unfold stamped. destruct (Created d =? 0); reflexivity. Qed.

Lemma stamped_Name (d : Device) (ts : Z) : Name (stamped d ts) = Name d.
Proof. unfold stamped. destruct (Created d =? 0); reflexivity. Qed.

Lemma stamped_ServiceName (d : Device) (ts : Z) : ServiceName (stamped d ts) = ServiceName d.
Proof. unfold stamped. destruct (Created d =? 0); reflexivity. Qed.

Lemma stamped_ProfileName (d : Device) (ts : Z) : ProfileName (stamped d ts) = ProfileName d.
Proof. unfold stamped. destruct (Created d =? 0); reflexivity. Qed.

Lemma stamped_Labels (d : Device) (ts : Z) : Labels (stamped d ts) = Labels d.
Proof. unfold stamped. destruct (Created d =? 0); reflexivity. Qed.

Lemma stamped_Modified (d : Device) (ts : Z) : Modified (stamped d ts) = ts.
Proof. reflexivity. Qed.

Lemma stamped_Created (d : Device) (ts : Z) :
  Created (stamped d ts) = if Created d =? 0 then ts else Created d.
Proof. unfold stamped. destruct (Created d =? 0); reflexivity. Qed.

Section Create.
Context {codec : JSON}.

Lemma create_batch_data (d : Device) (b : bytes) :
  Forall (fun cmd => is_data cmd = true) (create_batch d b).
Proof.
  unfold create_batch. apply Forall_app. split.
  - repeat constructor.
  - apply Forall_map. apply Forall_forall. intros; reflexivity.
Qed.

(** The batch of a create on an idle connection: MULTI, the mutations,
    EXEC; the mutations are applied together when EXEC goes through and
    not at all when it fails. *)
Lemma create_commit (c : Conn) (d : Device) (b : bytes) :
  txn c = None ->
  let storedKey := deviceStoredKey (Id d) in
  Do (fold_left (fun conn label =>
        Send conn (ZADD (CreateKey [DeviceCollectionLabel; label]) (Modified d) storedKey))
        (Labels d)
        (Send (Send (Send (Send (Send (Send c MULTI)
          (SET storedKey b))
          (ZADD DeviceCollection 0 storedKey))
          (HSET DeviceCollectionName (Name d) storedKey))
          (ZADD (CreateKey [DeviceCollectionServiceName; ServiceName d]) (Modified d) storedKey))
          (ZADD (CreateKey [DeviceCollectionProfileName; ProfileName d]) (Modified d) storedKey)))
     EXEC
  = let tr := (trace c ++ [MULTI] ++ create_batch d b ++ [EXEC])%list in
    match faults c with
    | true :: fs => (mkConn (db c) None fs tr, Err (ErrText "i/o failure"))
    | _ => (mkConn (apply_all (db c) (create_batch d b)).1 None (tail (faults c)) tr,
            Ok (RArray (apply_all (db c) (create_batch d b)).2))
    end.
Proof.
  intros T storedKey.
  rewrite (Send_MULTI c T).
  repeat (erewrite Send_queued by (simpl; reflexivity); simpl).
  erewrite (Send_all_queued
              (fun label => ZADD (CreateKey [DeviceCollectionLabel; label]) (Modified d) storedKey))
    by (try reflexivity; intros; reflexivity).
  erewrite Do_EXEC by reflexivity. simpl.
  unfold create_batch. fold storedKey.
  rewrite <- !app_assoc. simpl.
  destruct (faults c) as [|[] fs]; reflexivity.
Qed.

(** What [addDevice] does once both checks have found the id and the name
    free. *)
Lemma addDevice_after_checks (conn c1 c2 : Conn) (ts : Z) (d : Device) :
  deviceIdExists conn (Id d) = (c1, false, None) ->
  deviceNameExists c1 (Name d) = (c2, false, None) ->
  addDevice conn ts d =
    let d' := stamped d ts in
    match json_Marshal d' with
    | Err err =>
        (c2, d',
         Some (NewCommonEdgeX KindContractInvalid
                 "unable to JSON marshal device for Redis persistence" (CauseGo err)))
    | Ok b =>
        let tr := (trace c2 ++ [MULTI] ++ create_batch d' b ++ [EXEC])%list in
        match faults c2 with
        | true :: fs =>
            (mkConn (db c2) None fs tr, d',
             Some (NewCommonEdgeX KindDatabaseError "device creation failed"
                     (CauseGo (ErrText "i/o failure"))))
        | _ =>
            (mkConn (apply_all (db c2) (create_batch d' b)).1 None (tail (faults c2)) tr,
             d', None)
        end
    end.
Proof.
  intros H1 H2. unfold addDevice. rewrite H1, H2. fold (stamped d ts).
  destruct (deviceNameExists_ok _ _ _ _ H2) as (_ & _ & _ & Hc2).
  assert (T : txn c2 = None) by (rewrite Hc2; reflexivity).
  cbv zeta. destruct (json_Marshal (stamped d ts)) as [b|err]; [|reflexivity].
  rewrite (create_commit c2 (stamped d ts) b T). cbv zeta.
  destruct (faults c2) as [|[] fs]; reflexivity.
Qed.

Lemma addDevice_returns_stamped (conn c1 c2 : Conn) (ts : Z) (d : Device) :
  deviceIdExists conn (Id d) = (c1, false, None) ->
  deviceNameExists c1 (Name d) = (c2, false, None) ->
  (addDevice conn ts d).1.2 = stamped d ts.
Proof.
  intros H1 H2. rewrite (addDevice_after_checks conn c1 c2 ts d H1 H2). cbv zeta.
  destruct (json_Marshal (stamped d ts)); [|reflexivity].
  destruct (faults c2) as [|[] fs]; reflexivity.
Qed.

(** A create that fails before the checks are through returns the record
    as it was given. *)
Lemma addDevice_checks (conn : Conn) (ts : Z) (d : Device) :
  (exists c1 c2,
     deviceIdExists conn (Id d) = (c1, false, None) /\
     deviceNameExists c1 (Name d) = (c2, false, None)) \/
  (exists e, addDevice conn ts d = ((deviceIdExists conn (Id d)).1.1, d, Some e) /\
     ((deviceIdExists conn (Id d)).2 = None -> (deviceIdExists conn (Id d)).1.2 = true)) \/
  (exists c1 e,
     deviceIdExists conn (Id d) = (c1, false, None) /\
     addDevice conn ts d = ((deviceNameExists c1 (Name d)).1.1, d, Some e) /\
     ((deviceNameExists c1 (Name d)).2 = None -> (deviceNameExists c1 (Name d)).1.2 = true)).
Proof.
  unfold addDevice.
  destruct (deviceIdExists conn (Id d)) as [[c1 b1] [e1|]]; simpl.
  - right; left. eexists; split; [reflexivity | discriminate].
  - destruct b1.
    + right; left. eexists; split; [reflexivity | reflexivity].
    + destruct (deviceNameExists c1 (Name d)) as [[c2 b2] [e2|]] eqn:E2; simpl.
      * right; right. exists c1. eexists. split; [reflexivity|]. rewrite E2. simpl.
        split; [reflexivity | discriminate].
      * destruct b2.
        -- right; right. exists c1. eexists. split; [reflexivity|]. rewrite E2. simpl.
           split; reflexivity.
        -- left. exists c1, c2. split; [reflexivity | exact E2].
Qed.

(** A create that succeeds has passed both checks, has serialized the
    stamped record and has committed its batch. *)
Lemma addDevice_success (conn conn' : Conn) (ts : Z) (d d' : Device) :
  addDevice conn ts d = (conn', d', None) ->
  exists b : bytes,
    d' = stamped d ts /\
    json_Marshal d' = Ok b /\
    txn conn' = None /\
    db conn' = (apply_all (db conn) (create_batch d' b)).1 /\
    trace conn' =
      (trace conn ++ [EXISTS (deviceStoredKey (Id d)); HEXISTS DeviceCollectionName (Name d)]
       ++ [MULTI] ++ create_batch d' b ++ [EXEC])%list.
Proof.
  intros H.
  destruct (addDevice_checks conn ts d)
    as [(c1 & c2 & H1 & H2) | [(e & He & _) | (c1 & e & _ & He & _)]];
    try (rewrite He in H; discriminate H).
  rewrite (addDevice_after_checks conn c1 c2 ts d H1 H2) in H. cbv zeta in H.
  destruct (deviceIdExists_ok _ _ _ _ H1) as (_ & _ & _ & Hc1).
  destruct (deviceNameExists_ok _ _ _ _ H2) as (_ & _ & _ & Hc2).
  destruct (json_Marshal (stamped d ts)) as [b|err] eqn:M; [|discriminate H].
  assert (Hdb : db c2 = db conn) by (rewrite Hc2, Hc1; reflexivity).
  assert (Htr : trace c2 = (trace conn ++ [EXISTS (deviceStoredKey (Id d));
                                          HEXISTS DeviceCollectionName (Name d)])%list).
  { rewrite Hc2, Hc1. simpl. rewrite <- app_assoc. reflexivity. }
  exists b.
  assert (E : conn' = mkConn (apply_all (db c2) (create_batch (stamped d ts) b)).1 None
                        (tail (faults c2))
                        (trace c2 ++ [MULTI] ++ create_batch (stamped d ts) b ++ [EXEC])%list
              /\ d' = stamped d ts).
  { destruct (faults c2) as [|[] fs]; inversion H; auto. }
  destruct E as [-> ->]. cbn [trace db txn]. rewrite Htr, Hdb.
  repeat split; try reflexivity; try exact M.
  rewrite <- !app_assoc. reflexivity.
Qed.

End Create.

Section CreateClaims.
Context {codec : JSON}.

(** C1.  A successful create issues, after its two existence reads,
    exactly one batch MULTI ... EXEC that holds: the write of the primary
    object at the stored key; the add of the stored key to the id index
    with score 0; the add of name -> stored key to the name index; the
    adds of the stored key, scored by the modified time, to the service
    bucket, to the profile bucket and to the bucket of every label.  It
    issues nothing else, and the key space afterwards is the one before
    with these mutations applied. *)
Theorem addDevice_issues_one_atomic_batch (conn conn' : Conn) (ts : Z) (d d' : Device) :
  addDevice conn ts d = (conn', d', None) ->
  exists dsJSONBytes : bytes,
    let storedKey := deviceStoredKey (Id d) in
    let batch :=
      ([SET storedKey dsJSONBytes;
        ZADD DeviceCollection 0 storedKey;
        HSET DeviceCollectionName (Name d) storedKey;
        ZADD (CreateKey [DeviceCollectionServiceName; ServiceName d]) (Modified d') storedKey;
        ZADD (CreateKey [DeviceCollectionProfileName; ProfileName d]) (Modified d') storedKey]
       ++ List.map (fun label =>
                      ZADD (CreateKey [DeviceCollectionLabel; label]) (Modified d') storedKey)
            (Labels d))%list in
    json_Marshal d' = Ok dsJSONBytes /\
    Modified d' = ts /\
    trace conn' =
      (trace conn ++ [EXISTS storedKey; HEXISTS DeviceCollectionName (Name d)]
       ++ [MULTI] ++ batch ++ [EXEC])%list /\
    db conn' = (apply_all (db conn) batch).1 /\
    txn conn' = None.
Proof.
  intros H. destruct (addDevice_success conn conn' ts d d' H) as (b & Hd & M & T & Hdb & Htr).
  exists b. cbv zeta. rewrite Htr, Hdb. unfold create_batch. subst d'.
  rewrite !stamped_Id, !stamped_Name, !stamped_ServiceName, !stamped_ProfileName,
    !stamped_Labels.
  repeat split; try reflexivity; try assumption.
Qed.

End CreateClaims.

(** The create of [d1] on the empty server, and its batch. *)
Lemma addDevice_issues_one_atomic_batch_witness :
  @addDevice Demo.codec Demo.conn0 1000 Demo.d1
  = (Demo.conn1, stamped Demo.d1 1000, None) /\
  exists dsJSONBytes : bytes,
    Demo.marshal (stamped Demo.d1 1000) = Ok dsJSONBytes /\
    trace Demo.conn1 =
      [EXISTS "md|dv:d1"; HEXISTS "md|dv:name" "therm-1"; MULTI;
       SET "md|dv:d1" dsJSONBytes;
       ZADD "md|dv" 0 "md|dv:d1";
       HSET "md|dv:name" "therm-1" "md|dv:d1";
       ZADD "md|dv:service:name:svc1" 1000 "md|dv:d1";
       ZADD "md|dv:profile:name:prof1" 1000 "md|dv:d1";
       ZADD "md|dv:label:floor1" 1000 "md|dv:d1";
       ZADD "md|dv:label:temp" 1000 "md|dv:d1";
       EXEC].
Proof.
  assert (H : @addDevice Demo.codec Demo.conn0 1000 Demo.d1
              = (Demo.conn1, stamped Demo.d1 1000, None)) by (vm_compute; reflexivity).
  split; [exact H|].
  destruct (@addDevice_issues_one_atomic_batch Demo.codec _ _ _ _ _ H)
    as (b & M & _ & T & _).
  exists b. split; [exact M | exact T].
Defined.

Section DuplicateClaims.
Context {codec : JSON}.

(** C4, as amended.  On an idle connection without I/O failure, a
    record whose id is taken is refused with the kind DuplicateName and
    a message that names the id; a record whose id is free and whose
    name is taken is refused with the kind DuplicateName and a message
    that names the name.  No error of the kind DuplicateId is made. *)
Theorem addDevice_duplicate_kind (conn : Conn) (ts : Z) (d : Device) :
  txn conn = None ->
  no_fault 2 conn = true ->
  id_exists (db conn) (Id d) || name_exists (db conn) (Name d) = true ->
  exists e : EdgeX,
    (addDevice conn ts d).2 = Some e /\
    Kind e = DuplicateName /\
    Message e =
      if id_exists (db conn) (Id d)
      then "device id " ++ Id d ++ " already exists"
      else "device name " ++ Name d ++ " already exists".
Proof.
  intros T F E.
  assert (F1 : no_fault 1 conn = true).
  { unfold no_fault in *. destruct (faults conn) as [|[] fs]; try reflexivity; discriminate F. }
  unfold addDevice. rewrite (deviceIdExists_idle conn (Id d) T F1).
  destruct (id_exists (db conn) (Id d)) eqn:I.
  - eexists. split; [reflexivity|]. split; reflexivity.
  - simpl in E.
    rewrite deviceNameExists_idle_taken.
    + eexists. split; [reflexivity|]. split; reflexivity.
    + reflexivity.
    + unfold no_fault in *. simpl.
      destruct (faults conn) as [|[] [|[] fs]]; try reflexivity; discriminate F.
    + exact E.
Qed.

(** C5.  A create of a record whose id or name is taken fails, returns
    the record as it was given and leaves the key space as it was: all
    it has issued is the existence read of the id, and, when that one
    found the id free, the existence read of the name. *)
Theorem addDevice_duplicate_leaves_store (conn : Conn) (ts : Z) (d : Device) :
  id_exists (db conn) (Id d) || name_exists (db conn) (Name d) = true ->
  db (addDevice conn ts d).1.1 = db conn /\
  is_Some (addDevice conn ts d).2 /\
  (addDevice conn ts d).1.2 = d /\
  (trace (addDevice conn ts d).1.1
   = (trace conn ++ [EXISTS (deviceStoredKey (Id d))])%list \/
   trace (addDevice conn ts d).1.1
   = (trace conn ++ [EXISTS (deviceStoredKey (Id d));
                     HEXISTS DeviceCollectionName (Name d)])%list).
Proof.
  intros E.
  destruct (addDevice_checks conn ts d)
    as [(c1 & c2 & H1 & H2) | [(e & He & _) | (c1 & e & H1 & He & _)]].
  - destruct (deviceIdExists_ok _ _ _ _ H1) as (_ & _ & I & Hc1).
    destruct (deviceNameExists_ok _ _ _ _ H2) as (_ & _ & N & _).
    rewrite Hc1 in N. simpl in N. rewrite <- I, <- N in E. discriminate E.
  - rewrite He. simpl. destruct (deviceIdExists_read conn (Id d)) as [Hd Ht].
    repeat split; eauto.
  - rewrite He. simpl.
    destruct (deviceNameExists_read c1 (Name d)) as [Hd Ht].
    destruct (deviceIdExists_ok _ _ _ _ H1) as (_ & _ & _ & Hc1).
    repeat split; eauto.
    + rewrite Hd, Hc1. reflexivity.
    + right. rewrite Ht, Hc1. simpl. rewrite <- app_assoc. reflexivity.
Qed.

(** C7.  Once the two checks have found the id and the name free, the
    record that [addDevice] returns has its created time set to the
    clock reading if it was zero and kept if it was not, and its
    modified time set to the clock reading whatever it was; the other
    fields are the caller's. *)
Theorem addDevice_timestamps (conn c1 c2 : Conn) (ts : Z) (d : Device) :
  deviceIdExists conn (Id d) = (c1, false, None) ->
  deviceNameExists c1 (Name d) = (c2, false, None) ->
  let d' := (addDevice conn ts d).1.2 in
  Created d' = (if Created d =? 0 then ts else Created d) /\
  Modified d' = ts /\
  (Created d <> 0 -> Created d' = Created d) /\
  (Created d = 0 -> Created d' = ts).
Proof.
  intros H1 H2. cbv zeta. rewrite (addDevice_returns_stamped conn c1 c2 ts d H1 H2).
  rewrite stamped_Created, stamped_Modified.
  repeat split.
  - intros NZ. apply Z.eqb_neq in NZ. rewrite NZ. reflexivity.
  - intros Z0. rewrite Z0. reflexivity.
Qed.

(** C10.  Once the two checks have found the id and the name free, a
    record that cannot be serialized makes [addDevice] fail with the
    kind ContractInvalid on the very connection the checks left: no
    command is issued after the two existence reads, no transaction is
    open, and the key space is the one [addDevice] was called on. *)
Theorem addDevice_marshal_failure
    (conn c1 c2 : Conn) (ts : Z) (d : Device) (err : goerror) :
  deviceIdExists conn (Id d) = (c1, false, None) ->
  deviceNameExists c1 (Name d) = (c2, false, None) ->
  json_Marshal (stamped d ts) = Err err ->
  addDevice conn ts d =
    (c2, stamped d ts,
     Some (NewCommonEdgeX KindContractInvalid
             "unable to JSON marshal device for Redis persistence" (CauseGo err))) /\
  db c2 = db conn /\
  txn c2 = None /\
  trace c2 = (trace conn ++ [EXISTS (deviceStoredKey (Id d));
                             HEXISTS DeviceCollectionName (Name d)])%list.
Proof.
  intros H1 H2 M. rewrite (addDevice_after_checks conn c1 c2 ts d H1 H2). cbv zeta.
  rewrite M.
  destruct (deviceIdExists_ok _ _ _ _ H1) as (_ & _ & _ & Hc1).
  destruct (deviceNameExists_ok _ _ _ _ H2) as (_ & _ & _ & Hc2).
  rewrite Hc2, Hc1. simpl. rewrite <- app_assoc. repeat split; reflexivity.
Qed.

End DuplicateClaims.

(** A second record with the id of [d1], and a name of its own, is refused
    with the kind DuplicateName. *)
Lemma addDevice_duplicate_id_counterexample :
  txn Demo.conn1 = None /\
  no_fault 2 Demo.conn1 = true /\
  id_exists (db Demo.conn1) (Id Demo.d1_again) = true /\
  name_exists (db Demo.conn1) (Name Demo.d1_again) = false /\
  option_map Kind (@addDevice Demo.codec Demo.conn1 2000 Demo.d1_again).2
  = Some DuplicateName /\
  option_map Kind (@addDevice Demo.codec Demo.conn1 2000 Demo.d1_again).2
  <> Some DuplicateId.
Proof.
  repeat split; try (vm_compute; reflexivity); vm_compute; discriminate.
Qed.

(** A record with the name of [d1] and an id of its own. *)
Lemma addDevice_duplicate_kind_witness :
  txn Demo.conn1 = None /\
  no_fault 2 Demo.conn1 = true /\
  id_exists (db Demo.conn1) (Id Demo.d2) || name_exists (db Demo.conn1) (Name Demo.d2) = true /\
  exists e : EdgeX,
    (@addDevice Demo.codec Demo.conn1 2000 Demo.d2).2 = Some e /\
    Kind e = DuplicateName /\
    Message e =
      if id_exists (db Demo.conn1) (Id Demo.d2)
      then "device id " ++ Id Demo.d2 ++ " already exists"
      else "device name " ++ Name Demo.d2 ++ " already exists".
Proof.
  assert (T : txn Demo.conn1 = None) by (vm_compute; reflexivity).
  assert (F : no_fault 2 Demo.conn1 = true) by (vm_compute; reflexivity).
  assert (E : id_exists (db Demo.conn1) (Id Demo.d2)
              || name_exists (db Demo.conn1) (Name Demo.d2) = true)
    by (vm_compute; reflexivity).
  repeat (split; [assumption|]).
  exact (@addDevice_duplicate_kind Demo.codec Demo.conn1 2000 Demo.d2 T F E).
Defined.

(** The same record leaves the server of [conn1] as it was. *)
Lemma addDevice_duplicate_leaves_store_witness :
  id_exists (db Demo.conn1) (Id Demo.d2) || name_exists (db Demo.conn1) (Name Demo.d2) = true /\
  db (@addDevice Demo.codec Demo.conn1 2000 Demo.d2).1.1 = db Demo.conn1 /\
  is_Some (@addDevice Demo.codec Demo.conn1 2000 Demo.d2).2.
Proof.
  assert (E : id_exists (db Demo.conn1) (Id Demo.d2)
              || name_exists (db Demo.conn1) (Name Demo.d2) = true)
    by (vm_compute; reflexivity).
  split; [exact E|].
  destruct (@addDevice_duplicate_leaves_store Demo.codec Demo.conn1 2000 Demo.d2 E)
    as (Hdb & He & _).
  split; [exact Hdb | exact He].
Defined.

(** A created time of 7 is kept, a created time of 0 becomes the clock
    reading. *)
Lemma addDevice_timestamps_witness :
  Created (@addDevice Demo.codec Demo.conn0 1000 Demo.d3).1.2 = 7 /\
  Modified (@addDevice Demo.codec Demo.conn0 1000 Demo.d3).1.2 = 1000 /\
  Created (@addDevice Demo.codec Demo.conn0 1000 Demo.d1).1.2 = 1000.
Proof.
  pose (c1 := mkConn ∅ None [] [EXISTS "md|dv:d3"]).
  pose (c2 := mkConn ∅ None [] [EXISTS "md|dv:d3"; HEXISTS "md|dv:name" "a|b"]).
  assert (H1 : deviceIdExists Demo.conn0 (Id Demo.d3) = (c1, false, None))
    by (vm_compute; reflexivity).
  assert (H2 : deviceNameExists c1 (Name Demo.d3) = (c2, false, None))
    by (vm_compute; reflexivity).
  destruct (@addDevice_timestamps Demo.codec Demo.conn0 c1 c2 1000 Demo.d3 H1 H2)
    as (_ & M & K & _).
  split; [apply K; discriminate|]. split; [exact M|].
  pose (k1 := mkConn ∅ None [] [EXISTS "md|dv:d1"]).
  pose (k2 := mkConn ∅ None [] [EXISTS "md|dv:d1"; HEXISTS "md|dv:name" "therm-1"]).
  assert (G1 : deviceIdExists Demo.conn0 (Id Demo.d1) = (k1, false, None))
    by (vm_compute; reflexivity).
  assert (G2 : deviceNameExists k1 (Name Demo.d1) = (k2, false, None))
    by (vm_compute; reflexivity).
  destruct (@addDevice_timestamps Demo.codec Demo.conn0 k1 k2 1000 Demo.d1 G1 G2)
    as (_ & _ & _ & Z0).
  apply Z0. reflexivity.
Defined.

(** A record whose name the line codec cannot encode. *)
Lemma addDevice_marshal_failure_witness :
  Demo.marshal (stamped Demo.d3 1000) = Err (ErrText "json: unsupported value") /\
  Kind <$> (@addDevice Demo.codec Demo.conn0 1000 Demo.d3).2 = Some ContractInvalid /\
  db (@addDevice Demo.codec Demo.conn0 1000 Demo.d3).1.1 = db Demo.conn0 /\
  trace (@addDevice Demo.codec Demo.conn0 1000 Demo.d3).1.1
  = [EXISTS "md|dv:d3"; HEXISTS "md|dv:name" "a|b"].
Proof.
  pose (c1 := mkConn ∅ None [] [EXISTS "md|dv:d3"]).
  pose (c2 := mkConn ∅ None [] [EXISTS "md|dv:d3"; HEXISTS "md|dv:name" "a|b"]).
  assert (H1 : deviceIdExists Demo.conn0 (Id Demo.d3) = (c1, false, None))
    by (vm_compute; reflexivity).
  assert (H2 : deviceNameExists c1 (Name Demo.d3) = (c2, false, None))
    by (vm_compute; reflexivity).
  assert (M : @json_Marshal Demo.codec (stamped Demo.d3 1000)
              = Err (ErrText "json: unsupported value")) by (vm_compute; reflexivity).
  split; [exact M|].
  destruct (@addDevice_marshal_failure Demo.codec Demo.conn0 c1 c2 1000 Demo.d3 _ H1 H2 M)
    as (E & Hdb & _ & Htr).
  rewrite E. simpl. split; [reflexivity|]. split; [exact Hdb | exact Htr].
Defined.

(** ** Queries *)

Section QueryClaims.
Context {codec : JSON}.

Lemma decode_into_failure (objects : list bytes) :
  Exists (fun entry => decodes entry = false) objects ->
  forall (devices : list Device) (i : nat),
  exists err : goerror,
    decode_into devices i objects =
      ([], Some (NewCommonEdgeX KindDatabaseError
                   "device format parsing failed from the database" (CauseGo err))).
Proof.
  induction objects as [|entry rest IH]; intros Bad devices i.
  - inversion Bad.
  - simpl. unfold decodes in *. destruct (json_Unmarshal entry) as [s|err] eqn:U.
    + apply IH. inversion Bad as [? ? B|]; subst; [|assumption].
      rewrite U in B. discriminate B.
    + exists err. reflexivity.
Qed.

(** C6.  In each of the three paginated queries, when the fetch has
    returned its entries and one of them does not decode, the query
    fails with the kind DatabaseError and returns the empty list: no
    record is returned, whatever the other entries are. *)
Theorem queries_fail_on_undecodable_entry
    (conn conn' : Conn) (offset limit : Z) (objects : list bytes) :
  Exists (fun entry => decodes entry = false) objects ->
  let end_ := if limit =? -1 then limit else int64_wrap (offset + limit - 1) in
  (forall name : string,
     getObjectsByRevRange conn (CreateKey [DeviceCollectionServiceName; name]) offset end_
     = (conn', objects, None) ->
     exists e, devicesByServiceName conn offset limit name = (conn', [], Some e) /\
               Kind e = DatabaseError) /\
  (forall profileName : string,
     getObjectsByRevRange conn (CreateKey [DeviceCollectionProfileName; profileName]) offset end_
     = (conn', objects, None) ->
     exists e, devicesByProfileName conn offset limit profileName = (conn', [], Some e) /\
               Kind e = DatabaseError) /\
  (forall labels : list string,
     getObjectsByLabelsAndSomeRange conn ZREVRANGE DeviceCollection labels offset end_
     = (conn', objects, None) ->
     exists e, devicesByLabels conn offset limit labels = (conn', [], Some e) /\
               Kind e = DatabaseError).
Proof.
  intros Bad end_.
  destruct (decode_into_failure objects Bad (replicate (length objects) zeroDevice) 0%nat)
    as [err D].
  repeat split; intros x H.
  - unfold devicesByServiceName. fold end_. rewrite H, D. eexists; split; reflexivity.
  - unfold devicesByProfileName. fold end_. rewrite H, D. eexists; split; reflexivity.
  - unfold devicesByLabels. fold end_. rewrite H, D. eexists; split; reflexivity.
Qed.

End QueryClaims.

(** The query by service on the server whose entry of [d1] is corrupt. *)
Lemma queries_fail_on_undecodable_entry_witness :
  @decodes Demo.codec "oops" = false /\
  exists conn' e,
    @devicesByServiceName Demo.codec Demo.conn1_corrupt 0 (-1) "svc1" = (conn', [], Some e) /\
    Kind e = DatabaseError.
Proof.
  split; [vm_compute; reflexivity|].
  pose (c := mkConn (db Demo.conn1_corrupt) None []
               [SET "md|dv:d1" "oops"; ZREVRANGE "md|dv:service:name:svc1" 0 (-1);
                MGET ["md|dv:d1"]]).
  assert (Bad : Exists (fun entry => @decodes Demo.codec entry = false) ["oops"]).
  { constructor. vm_compute. reflexivity. }
  assert (H : getObjectsByRevRange Demo.conn1_corrupt
                (CreateKey [DeviceCollectionServiceName; "svc1"]) 0 (-1)
              = (c, ["oops"], None)) by (vm_compute; reflexivity).
  exists c.
  exact (proj1 (@queries_fail_on_undecodable_entry Demo.codec Demo.conn1_corrupt c 0 (-1)
                  ["oops"] Bad) "svc1" H).
Defined.

(** ** Delete *)

Lemma Send_all_trace {A : Type} (f : A -> Cmd) (l : list A) (c : Conn) :
  trace (fold_left (fun c x => Send c (f x)) l c) = (trace c ++ List.map f l)%list.
Proof.
  revert c. induction l as [|x l IH]; intros c; simpl.
  - rewrite app_nil_r. reflexivity.
  - rewrite IH, Send_trace, <- app_assoc. reflexivity.
Qed.

(** Whatever the state of the connection, a delete issues MULTI, its
    mutations and EXEC. *)
Lemma deleteDevice_trace (c : Conn) (device : Device) :
  trace (deleteDevice c device).1
  = (trace c ++ [MULTI] ++ delete_batch device ++ [EXEC])%list.
Proof.
  unfold deleteDevice.
  match goal with |- context [Do ?c0 EXEC] =>
    pose proof (Do_trace c0 EXEC) as H; destruct (Do c0 EXEC) as [c' r] end.
  simpl in H.
  assert (E : trace (match r with
                     | Ok _ => (c', None)
                     | Err err =>
                         (c', Some (NewCommonEdgeX KindDatabaseError "device deletion failed"
                                      (CauseGo err)))
                     end).1 = trace c') by (destruct r; reflexivity).
  rewrite E, H, Send_all_trace, !Send_trace. unfold delete_batch.
  rewrite <- !app_assoc. reflexivity.
Qed.

(** The batch of a delete on an idle connection. *)
Lemma delete_commit (c : Conn) (device : Device) :
  txn c = None ->
  deleteDevice c device =
    let tr := (trace c ++ [MULTI] ++ delete_batch device ++ [EXEC])%list in
    match faults c with
    | true :: fs =>
        (mkConn (db c) None fs tr,
         Some (NewCommonEdgeX KindDatabaseError "device deletion failed"
                 (CauseGo (ErrText "i/o failure"))))
    | _ => (mkConn (apply_all (db c) (delete_batch device)).1 None (tail (faults c)) tr, None)
    end.
Proof.
  intros T. unfold deleteDevice.
  rewrite (Send_MULTI c T).
  repeat (erewrite Send_queued by (simpl; reflexivity); simpl).
  erewrite (Send_all_queued
              (fun label => ZREM (CreateKey [DeviceCollectionLabel; label])
                              (deviceStoredKey (Id device))))
    by (try reflexivity; intros; reflexivity).
  erewrite Do_EXEC by reflexivity. simpl.
  unfold delete_batch. rewrite <- !app_assoc. simpl.
  destruct (faults c) as [|[] fs]; reflexivity.
Qed.

Section Resolution.
Context {codec : JSON}.

(** The lookup of an object on an idle connection: one read; the error,
    if any, says what went wrong. *)
Lemma getObjectById_idle (conn : Conn) (key : string) :
  txn conn = None ->
  (getObjectById conn key).1.1
  = mkConn (db conn) None (tail (faults conn)) (trace conn ++ [GET key])%list /\
  match (getObjectById conn key).2 with
  | Some e => Kind e = NotFound \/ Kind e = DatabaseError \/ Kind e = ContractInvalid
  | None => no_fault 1 conn = true /\
            exists b, db conn !! key = Some (VString b) /\
                      json_Unmarshal b = Ok (getObjectById conn key).1.2
  end /\
  (no_fault 1 conn = true -> db conn !! key = None ->
   Kind <$> (getObjectById conn key).2 = Some NotFound).
Proof.
  intros T. unfold getObjectById.
  destruct (no_fault 1 conn) eqn:F.
  - rewrite (Do_idle conn (GET key) T F eq_refl). simpl.
    destruct (db conn !! key) as [[b|z|h]|] eqn:L; simpl.
    + destruct (json_Unmarshal b) as [out|err] eqn:U; simpl.
      * repeat split; try discriminate. exists b. auto.
      * repeat split; try discriminate. auto.
    + repeat split; try discriminate. auto.
    + repeat split; try discriminate. auto.
    + repeat split; auto.
  - rewrite (Do_fault conn (GET key) F). simpl.
    repeat split; try discriminate. auto.
Qed.

Lemma deviceById_idle (conn : Conn) (id : string) :
  txn conn = None ->
  (deviceById conn id).1.1
  = mkConn (db conn) None (tail (faults conn))
      (trace conn ++ [GET (deviceStoredKey id)])%list /\
  match (deviceById conn id).2 with
  | Some e => Kind e = NotFound \/ Kind e = DatabaseError \/ Kind e = ContractInvalid
  | None => no_fault 1 conn = true /\
            exists b, db conn !! deviceStoredKey id = Some (VString b) /\
                      json_Unmarshal b = Ok (deviceById conn id).1.2
  end /\
  (no_fault 1 conn = true -> db conn !! deviceStoredKey id = None ->
   Kind <$> (deviceById conn id).2 = Some NotFound).
Proof.
  intros T. destruct (getObjectById_idle conn (deviceStoredKey id) T) as (Hc & Hk & Ha).
  unfold deviceById.
  destruct (getObjectById conn (deviceStoredKey id)) as [[c1 device] [e|]]; simpl in *.
  - repeat split; auto.
  - destruct Hk as (F & b & L & U). repeat split; eauto.
Qed.

Lemma deviceByName_idle (conn : Conn) (name : string) :
  txn conn = None ->
  txn (deviceByName conn name).1.1 = None /\
  db (deviceByName conn name).1.1 = db conn /\
  (exists reads, trace (deviceByName conn name).1.1 = (trace conn ++ reads)%list /\
                 Forall (fun cmd => is_read cmd = true) reads) /\
  match (deviceByName conn name).2 with
  | Some e => Kind e = NotFound \/ Kind e = DatabaseError \/ Kind e = ContractInvalid
  | None => True
  end /\
  (no_fault 1 conn = true -> name_absent (db conn) name = true ->
   Kind <$> (deviceByName conn name).2 = Some NotFound).
Proof.
  intros T. unfold deviceByName, getObjectByHash, name_absent.
  destruct (no_fault 1 conn) eqn:F.
  - rewrite (Do_idle conn (HGET DeviceCollectionName name) T F eq_refl). simpl.
    assert (R1 : Forall (fun cmd => is_read cmd = true) [HGET DeviceCollectionName name])
      by (repeat constructor).
    destruct (db conn !! DeviceCollectionName) as [[b|z|h]|] eqn:L; simpl;
      try (repeat split; eauto; discriminate).
    destruct (h !! name) as [key|] eqn:Lh; simpl.
    + set (c1 := mkConn (db conn) None (tail (faults conn))
                   (trace conn ++ [HGET DeviceCollectionName name])%list).
      destruct (getObjectById_idle c1 key eq_refl) as (Hc & Hk & _).
      destruct (getObjectById c1 key) as [[c2 device] [e|]]; simpl in *; subst c2; simpl.
      * repeat split; auto.
        -- exists [HGET DeviceCollectionName name; GET key]. split.
           ++ rewrite <- app_assoc. reflexivity.
           ++ repeat constructor.
        -- intros _ A. discriminate A.
      * repeat split; auto.
        -- exists [HGET DeviceCollectionName name; GET key]. split.
           ++ rewrite <- app_assoc. reflexivity.
           ++ repeat constructor.
        -- intros _ A. discriminate A.
    + repeat split; eauto.
  - rewrite (Do_fault conn (HGET DeviceCollectionName name) F). simpl.
    repeat split; auto; try discriminate.
    exists [HGET DeviceCollectionName name]. split; [reflexivity | repeat constructor].
Qed.

End Resolution.

Section DeleteClaims.
Context {codec : JSON}.

(** The removal that follows a successful resolution. *)
Lemma removal_after_resolution (c1 : Conn) (device : Device) :
  txn c1 = None ->
  let out :=
    let '(c, err) := deleteDevice c1 device in
    match err with
    | Some err => (c, Some (NewCommonEdgeXWrapper err))
    | None => (c, None)
    end in
  trace out.1 = (trace c1 ++ [MULTI] ++ delete_batch device ++ [EXEC])%list /\
  txn out.1 = None /\
  if no_fault 1 c1
  then out.2 = None /\ db out.1 = (apply_all (db c1) (delete_batch device)).1
  else Kind <$> out.2 = Some DatabaseError /\ db out.1 = db c1.
Proof.
  intros T. cbv zeta. rewrite (delete_commit c1 device T). cbv zeta.
  unfold no_fault. destruct (faults c1) as [|[] fs]; simpl; auto.
Qed.

(** C2, as amended.  On an idle connection, [deleteDeviceById] and
    [deleteDeviceByName] first resolve the record, with reads only.  If
    the resolution fails, the delete fails with the kind of the
    resolution error, which is NotFound when the record is absent (and
    DatabaseError or ContractInvalid otherwise), and the key space is
    unchanged.  If it succeeds, the delete issues one batch MULTI ...
    EXEC that deletes the primary object, removes the stored key from
    the id index, removes the name from the name index and removes the
    stored key from the service bucket, the profile bucket and the
    bucket of every label of the record; the batch is applied as a
    whole, or not at all when EXEC fails. *)
Theorem delete_resolves_then_removes (conn : Conn) (id name : string) :
  txn conn = None ->
  let removal (resolved : Conn * Device * option EdgeX) (out : Conn * option EdgeX) : Prop :=
    db resolved.1.1 = db conn /\
    (exists reads, trace resolved.1.1 = (trace conn ++ reads)%list /\
                   Forall (fun cmd => is_read cmd = true) reads) /\
    match resolved.2 with
    | Some e =>
        out = (resolved.1.1, Some (NewCommonEdgeXWrapper e)) /\
        Kind (NewCommonEdgeXWrapper e) = Kind e /\
        (Kind e = NotFound \/ Kind e = DatabaseError \/ Kind e = ContractInvalid)
    | None =>
        let device := resolved.1.2 in
        let storedKey := deviceStoredKey (Id device) in
        let batch :=
          ([DEL storedKey;
            ZREM DeviceCollection storedKey;
            HDEL DeviceCollectionName (Name device);
            ZREM (CreateKey [DeviceCollectionServiceName; ServiceName device]) storedKey;
            ZREM (CreateKey [DeviceCollectionProfileName; ProfileName device]) storedKey]
           ++ List.map (fun label => ZREM (CreateKey [DeviceCollectionLabel; label]) storedKey)
                (Labels device))%list in
        trace out.1 = (trace resolved.1.1 ++ [MULTI] ++ batch ++ [EXEC])%list /\
        txn out.1 = None /\
        if no_fault 1 resolved.1.1
        then out.2 = None /\ db out.1 = (apply_all (db conn) batch).1
        else Kind <$> out.2 = Some DatabaseError /\ db out.1 = db conn
    end in
  removal (deviceById conn id) (deleteDeviceById conn id) /\
  removal (deviceByName conn name) (deleteDeviceByName conn name) /\
  (no_fault 1 conn = true -> db conn !! deviceStoredKey id = None ->
   Kind <$> (deleteDeviceById conn id).2 = Some NotFound) /\
  (no_fault 1 conn = true -> name_absent (db conn) name = true ->
   Kind <$> (deleteDeviceByName conn name).2 = Some NotFound).
Proof.
  intros T removal.
  destruct (deviceById_idle conn id T) as (Hc & Hk & Ha).
  destruct (deviceByName_idle conn name T) as (Nt & Nd & Nr & Nk & Na).
  split; [|split; [|split]].
  - (* by id *)
    unfold removal, deleteDeviceById.
    destruct (deviceById conn id) as [[c1 device] [e|]]; cbn [fst snd] in *.
    + subst c1. split; [reflexivity|]. split.
      * exists [GET (deviceStoredKey id)]. split; [reflexivity | repeat constructor].
      * repeat split; auto.
    + assert (T1 : txn c1 = None) by (subst c1; reflexivity).
      assert (D1 : db c1 = db conn) by (subst c1; reflexivity).
      split; [exact D1|]. split.
      * subst c1. exists [GET (deviceStoredKey id)].
        split; [reflexivity | repeat constructor].
      * pose proof (removal_after_resolution c1 device T1) as R. cbv zeta in R.
        rewrite D1 in R. exact R.
  - (* by name *)
    unfold removal, deleteDeviceByName.
    destruct (deviceByName conn name) as [[c2 device] [e|]]; cbn [fst snd] in *.
    + split; [exact Nd|]. split; [exact Nr|]. repeat split; auto.
    + split; [exact Nd|]. split; [exact Nr|].
      pose proof (removal_after_resolution c2 device Nt) as R. cbv zeta in R.
      rewrite Nd in R. exact R.
  - intros F L. unfold deleteDeviceById. specialize (Ha F L).
    destruct (deviceById conn id) as [[c1 device] [e|]]; cbn [fst snd] in *;
      [exact Ha | discriminate Ha].
  - intros F L. unfold deleteDeviceByName. specialize (Na F L).
    destruct (deviceByName conn name) as [[c2 device] [e|]]; cbn [fst snd] in *;
      [exact Na | discriminate Na].
Qed.

End DeleteClaims.

(** A delete whose resolution meets an I/O failure fails with the kind
    DatabaseError, one whose resolution meets a corrupt entry with the
    kind ContractInvalid; in both the record is there. *)
Lemma delete_resolution_failure_counterexample :
  txn Demo.conn1_failing = None /\
  (@deviceById Demo.codec Demo.conn1_failing "d1").2 <> None /\
  Kind <$> (@deleteDeviceById Demo.codec Demo.conn1_failing "d1").2 = Some DatabaseError /\
  Kind <$> (@deleteDeviceById Demo.codec Demo.conn1_failing "d1").2 <> Some NotFound /\
  db (@deleteDeviceById Demo.codec Demo.conn1_failing "d1").1 = db Demo.conn1_failing /\
  txn Demo.conn1_corrupt = None /\
  (@deviceById Demo.codec Demo.conn1_corrupt "d1").2 <> None /\
  Kind <$> (@deleteDeviceById Demo.codec Demo.conn1_corrupt "d1").2 = Some ContractInvalid /\
  Kind <$> (@deleteDeviceById Demo.codec Demo.conn1_corrupt "d1").2 <> Some NotFound.
Proof.
  repeat split; try (vm_compute; reflexivity); vm_compute; discriminate.
Qed.

(** Deleting an absent id and an absent name, then deleting [d1]. *)
Lemma delete_resolves_then_removes_witness :
  txn Demo.conn1 = None /\
  Kind <$> (@deleteDeviceById Demo.codec Demo.conn1 "d2").2 = Some NotFound /\
  Kind <$> (@deleteDeviceByName Demo.codec Demo.conn1 "therm-2").2 = Some NotFound /\
  (@deleteDeviceById Demo.codec Demo.conn1 "d1").2 = None /\
  trace (@deleteDeviceById Demo.codec Demo.conn1 "d1").1 =
    (trace Demo.conn1 ++
     [GET "md|dv:d1"; MULTI;
      DEL "md|dv:d1";
      ZREM "md|dv" "md|dv:d1";
      HDEL "md|dv:name" "therm-1";
      ZREM "md|dv:service:name:svc1" "md|dv:d1";
      ZREM "md|dv:profile:name:prof1" "md|dv:d1";
      ZREM "md|dv:label:floor1" "md|dv:d1";
      ZREM "md|dv:label:temp" "md|dv:d1";
      EXEC])%list.
Proof.
  assert (T : txn Demo.conn1 = None) by (vm_compute; reflexivity).
  split; [exact T|].
  destruct (@delete_resolves_then_removes Demo.codec Demo.conn1 "d2" "therm-2" T)
    as (_ & _ & A & B).
  split; [apply A; vm_compute; reflexivity|].
  split; [apply B; vm_compute; reflexivity|].
  destruct (@delete_resolves_then_removes Demo.codec Demo.conn1 "d1" "therm-1" T)
    as ((_ & _ & R) & _).
  assert (E : @deviceById Demo.codec Demo.conn1 "d1"
              = (mkConn (db Demo.conn1) None [] (trace Demo.conn1 ++ [GET "md|dv:d1"])%list,
                 stamped Demo.d1 1000, None)) by (vm_compute; reflexivity).
  rewrite E in R. cbn [fst snd] in R. destruct R as (Rt & _ & Rf).
  split; [exact (proj1 Rf)|].
  rewrite Rt. cbn [trace]. rewrite <- app_assoc. reflexivity.
Defined.

(** ** Round trip *)

Lemma apply_all_cons (m : gmap string RVal) (cmd : Cmd) (cmds : list Cmd) :
  (apply_all m (cmd :: cmds)).1 = (apply_all (apply_cmd m cmd).1 cmds).1.
Proof.
  simpl. destruct (apply_cmd m cmd) as [m1 r]. simpl.
  destruct (apply_all m1 cmds). reflexivity.
Qed.

(** An add to an ordered set or to a hash never replaces a string value,
    not even at its own key: there it is refused. *)
Lemma apply_keeps_string (m : gmap string RVal) (cmd : Cmd) (k : string) (b : bytes) :
  keeps_strings cmd = true ->
  m !! k = Some (VString b) ->
  (apply_cmd m cmd).1 !! k = Some (VString b).
Proof.
  intros K L. destruct cmd; try discriminate K; simpl;
    destruct (m !! key) as [[b0|z0|h0]|] eqn:Lk; simpl; try exact L;
    (destruct (decide (key = k)) as [->|Ne];
     [rewrite L in Lk; discriminate Lk | rewrite lookup_insert_ne by exact Ne; exact L]).
Qed.

Lemma apply_all_keeps_string (cmds : list Cmd) (k : string) (b : bytes) :
  Forall (fun cmd => keeps_strings cmd = true) cmds ->
  forall m : gmap string RVal,
  m !! k = Some (VString b) ->
  (apply_all m cmds).1 !! k = Some (VString b).
Proof.
  induction 1 as [|cmd cmds K _ IH]; intros m L.
  - exact L.
  - rewrite apply_all_cons. apply IH. apply apply_keeps_string; assumption.
Qed.

(** After the batch of a create the primary object is the serialized
    record. *)
Lemma create_batch_stores (m : gmap string RVal) (d : Device) (b : bytes) :
  (apply_all m (create_batch d b)).1 !! deviceStoredKey (Id d) = Some (VString b).
Proof.
  unfold create_batch. cbn [app]. rewrite apply_all_cons.
  apply apply_all_keeps_string.
  - repeat constructor. apply Forall_map. apply Forall_forall. intros; reflexivity.
  - simpl. apply lookup_insert_eq.
Qed.

Section RoundTrip.
Context {codec : JSON}.

(** C8.  After a successful create of [d], on a record that the codec
    decodes back from its own encoding and with no I/O failure on the
    next round trip, [deviceById] at the id of [d] returns without error
    the record that the create returned, and this record has the id, the
    name, the service name, the profile name and the labels of [d]:
    only the two timestamps are the server's. *)
Theorem addDevice_then_deviceById (conn conn' : Conn) (ts : Z) (d d' : Device) :
  addDevice conn ts d = (conn', d', None) ->
  (forall b, json_Marshal d' = Ok b -> json_Unmarshal b = Ok d') ->
  no_fault 1 conn' = true ->
  (deviceById conn' (Id d)).1.2 = d' /\
  (deviceById conn' (Id d)).2 = None /\
  Id d' = Id d /\
  Name d' = Name d /\
  ServiceName d' = ServiceName d /\
  ProfileName d' = ProfileName d /\
  Labels d' = Labels d.
Proof.
  intros H RT F.
  destruct (addDevice_success conn conn' ts d d' H) as (b & Hd & M & T & Hdb & _).
  assert (L : db conn' !! deviceStoredKey (Id d) = Some (VString b)).
  { rewrite Hdb. rewrite <- (stamped_Id d ts), <- Hd. apply create_batch_stores. }
  unfold deviceById, getObjectById.
  rewrite (Do_idle conn' (GET (deviceStoredKey (Id d))) T F eq_refl). simpl.
  rewrite L. simpl. rewrite (RT b M). simpl.
  subst d'. repeat split.
  - apply stamped_Id.
  - apply stamped_Name.
  - apply stamped_ServiceName.
  - apply stamped_ProfileName.
  - apply stamped_Labels.
Qed.

End RoundTrip.

(** [d1] read back after its create. *)
Lemma addDevice_then_deviceById_witness :
  @addDevice Demo.codec Demo.conn0 1000 Demo.d1 = (Demo.conn1, stamped Demo.d1 1000, None) /\
  no_fault 1 Demo.conn1 = true /\
  (@deviceById Demo.codec Demo.conn1 "d1").1.2 = stamped Demo.d1 1000 /\
  (@deviceById Demo.codec Demo.conn1 "d1").2 = None /\
  Labels (stamped Demo.d1 1000) = ["floor1"; "temp"].
Proof.
  assert (H : @addDevice Demo.codec Demo.conn0 1000 Demo.d1
              = (Demo.conn1, stamped Demo.d1 1000, None)) by (vm_compute; reflexivity).
  assert (F : no_fault 1 Demo.conn1 = true) by (vm_compute; reflexivity).
  assert (RT : forall b, @json_Marshal Demo.codec (stamped Demo.d1 1000) = Ok b ->
                         @json_Unmarshal Demo.codec b = Ok (stamped Demo.d1 1000)).
  { intros b M. vm_compute in M. inversion M. subst b. vm_compute. reflexivity. }
  split; [exact H|]. split; [exact F|].
  destruct (@addDevice_then_deviceById Demo.codec _ _ _ _ _ H RT F)
    as (A & B & _ & _ & _ & _ & C).
  split; [exact A|]. split; [exact B | exact C].
Defined.

(** ** The commands and their keys *)

Section Traces.
Context {codec : JSON}.

Lemma addDevice_trace (conn : Conn) (ts : Z) (d : Device) :
  exists sent : list Cmd,
    trace (addDevice conn ts d).1.1 = (trace conn ++ sent)%list /\
    (sent = [EXISTS (deviceStoredKey (Id d))] \/
     sent = [EXISTS (deviceStoredKey (Id d)); HEXISTS DeviceCollectionName (Name d)] \/
     exists b : bytes,
       sent = ([EXISTS (deviceStoredKey (Id d)); HEXISTS DeviceCollectionName (Name d); MULTI]
               ++ create_batch (stamped d ts) b ++ [EXEC])%list).
Proof.
  destruct (addDevice_checks conn ts d)
    as [(c1 & c2 & H1 & H2) | [(e & He & _) | (c1 & e & H1 & He & _)]].
  - destruct (deviceIdExists_ok _ _ _ _ H1) as (_ & _ & _ & Hc1).
    destruct (deviceNameExists_ok _ _ _ _ H2) as (_ & _ & _ & Hc2).
    assert (Htr : trace c2 = (trace conn ++ [EXISTS (deviceStoredKey (Id d));
                                            HEXISTS DeviceCollectionName (Name d)])%list).
    { rewrite Hc2, Hc1. simpl. rewrite <- app_assoc. reflexivity. }
    rewrite (addDevice_after_checks conn c1 c2 ts d H1 H2). cbv zeta.
    destruct (json_Marshal (stamped d ts)) as [b|err].
    + eexists. split; [|right; right; exists b; reflexivity].
      destruct (faults c2) as [|[] fs]; cbn [fst snd trace]; rewrite Htr;
        rewrite <- !app_assoc; reflexivity.
    + eexists. split; [exact Htr|]. right; left; reflexivity.
  - rewrite He. eexists. split; [apply deviceIdExists_read|]. left; reflexivity.
  - rewrite He. destruct (deviceIdExists_ok _ _ _ _ H1) as (_ & _ & _ & Hc1).
    eexists. split; [|right; left; reflexivity].
    cbn [fst]. rewrite (proj2 (deviceNameExists_read c1 (Name d))), Hc1. simpl.
    rewrite <- app_assoc. reflexivity.
Qed.

Lemma getObjectById_trace (conn : Conn) (key : string) :
  trace (getObjectById conn key).1.1 = (trace conn ++ [GET key])%list.
Proof.
  unfold getObjectById. pose proof (Do_trace conn (GET key)) as H.
  destruct (Do conn (GET key)) as [c r]. simpl in H.
  destruct (redis_Bytes r) as [obj|[|text]]; try exact H.
  destruct (json_Unmarshal obj); exact H.
Qed.

Lemma deviceById_trace (conn : Conn) (id : string) :
  trace (deviceById conn id).1.1 = (trace conn ++ [GET (deviceStoredKey id)])%list.
Proof.
  unfold deviceById. pose proof (getObjectById_trace conn (deviceStoredKey id)) as H.
  destruct (getObjectById conn (deviceStoredKey id)) as [[c device] [e|]]; exact H.
Qed.

Lemma deviceByName_trace (conn : Conn) (name : string) :
  exists more : list Cmd,
    trace (deviceByName conn name).1.1
    = (trace conn ++ HGET DeviceCollectionName name :: more)%list.
Proof.
  unfold deviceByName, getObjectByHash.
  pose proof (Do_trace conn (HGET DeviceCollectionName name)) as H.
  destruct (Do conn (HGET DeviceCollectionName name)) as [c r]. simpl in H.
  destruct (redis_String r) as [key|[|text]]; try (exists []; exact H).
  pose proof (getObjectById_trace c key) as G.
  destruct (getObjectById c key) as [[c2 device] [e|]]; simpl in *;
    exists [GET key]; rewrite G, H, <- app_assoc; reflexivity.
Qed.

Lemma getObjectsByIds_trace (conn : Conn) (ids : list string) :
  exists more : list Cmd, trace (getObjectsByIds conn ids).1.1 = (trace conn ++ more)%list.
Proof.
  unfold getObjectsByIds. destruct ids as [|id ids].
  - exists []. simpl. rewrite app_nil_r. reflexivity.
  - pose proof (Do_trace conn (MGET (id :: ids))) as H.
    destruct (Do conn (MGET (id :: ids))) as [c r]. simpl in H.
    exists [MGET (id :: ids)]. destruct (redis_ByteSlices r); exact H.
Qed.

Lemma getObjectsByRevRange_trace (conn : Conn) (key : string) (start end_ : Z) :
  exists more : list Cmd,
    trace (getObjectsByRevRange conn key start end_).1.1
    = (trace conn ++ ZREVRANGE key start end_ :: more)%list.
Proof.
  unfold getObjectsByRevRange. pose proof (Do_trace conn (ZREVRANGE key start end_)) as H.
  destruct (Do conn (ZREVRANGE key start end_)) as [c r]. simpl in H.
  destruct (redis_Strings r) as [ids|e]; [|exists []; exact H].
  destruct (getObjectsByIds_trace c ids) as [more G]. exists more.
  rewrite G, H, <- app_assoc. reflexivity.
Qed.

Lemma label_listings_trace (labels : list string) :
  forall (conn : Conn) (key : string),
  exists more : list Cmd,
    trace (label_listings conn ZREVRANGE key labels).1.1 = (trace conn ++ more)%list /\
    match labels with
    | [] => True
    | label :: _ =>
        exists rest, more = ZREVRANGE (CreateKey [key; v2_Label; label]) 0 (-1) :: rest
    end.
Proof.
  induction labels as [|label labels IH]; intros conn key.
  - exists []. simpl. rewrite app_nil_r. auto.
  - cbn [label_listings].
    pose proof (Do_trace conn (ZREVRANGE (CreateKey [key; v2_Label; label]) 0 (-1))) as H.
    destruct (Do conn (ZREVRANGE (CreateKey [key; v2_Label; label]) 0 (-1))) as [c r].
    simpl in H. destruct (redis_Strings r) as [ids|e].
    + destruct (IH c key) as (more & G & _).
      destruct (label_listings c ZREVRANGE key labels) as [[c2 ls] e2]. simpl in G.
      exists (ZREVRANGE (CreateKey [key; v2_Label; label]) 0 (-1) :: more). split.
      * simpl. rewrite G, H, <- app_assoc. reflexivity.
      * exists more. reflexivity.
    + exists [ZREVRANGE (CreateKey [key; v2_Label; label]) 0 (-1)]. split.
      * exact H.
      * exists []. reflexivity.
Qed.

Lemma getObjectsByLabelsAndSomeRange_trace
    (conn : Conn) (key : string) (labels : list string) (start end_ : Z) :
  exists more : list Cmd,
    trace (getObjectsByLabelsAndSomeRange conn ZREVRANGE key labels start end_).1.1
    = (trace conn ++
       match labels with
       | [] => ZREVRANGE key start end_
       | label :: _ => ZREVRANGE (CreateKey [key; v2_Label; label]) 0 (-1)
       end :: more)%list.
Proof.
  unfold getObjectsByLabelsAndSomeRange. destruct labels as [|label labels].
  - pose proof (Do_trace conn (ZREVRANGE key start end_)) as H.
    destruct (Do conn (ZREVRANGE key start end_)) as [c r]. simpl in H.
    destruct (redis_Strings r) as [ids|e]; [|exists []; exact H].
    destruct (getObjectsByIds_trace c ids) as [more G]. exists more.
    rewrite G, H, <- app_assoc. reflexivity.
  - destruct (label_listings_trace (label :: labels) conn key) as (more & G & rest & ->).
    destruct (label_listings conn ZREVRANGE key (label :: labels)) as [[c ls] [e|]];
      simpl in G.
    + exists rest. exact G.
    + destruct (getObjectsByIds_trace c (range_by_rank (common_ids ls) start end_))
        as [more2 G2].
      exists (rest ++ more2)%list. rewrite G2, G, <- app_assoc. reflexivity.
Qed.

End Traces.

Section KeyLayout.
Context {codec : JSON}.

Lemma devicesByServiceName_conn (conn : Conn) (offset limit : Z) (name : string) :
  (devicesByServiceName conn offset limit name).1.1
  = (getObjectsByRevRange conn (CreateKey [DeviceCollectionServiceName; name]) offset
       (if limit =? -1 then limit else int64_wrap (offset + limit - 1))).1.1.
Proof.
  unfold devicesByServiceName. cbv zeta.
  destruct (getObjectsByRevRange _ _ _ _) as [[c objects] [e|]]; [reflexivity|].
  destruct (decode_into _ _ _); reflexivity.
Qed.

Lemma devicesByProfileName_conn (conn : Conn) (offset limit : Z) (profileName : string) :
  (devicesByProfileName conn offset limit profileName).1.1
  = (getObjectsByRevRange conn (CreateKey [DeviceCollectionProfileName; profileName]) offset
       (if limit =? -1 then limit else int64_wrap (offset + limit - 1))).1.1.
Proof.
  unfold devicesByProfileName. cbv zeta.
  destruct (getObjectsByRevRange _ _ _ _) as [[c objects] [e|]]; [reflexivity|].
  destruct (decode_into _ _ _); reflexivity.
Qed.

Lemma devicesByLabels_conn (conn : Conn) (offset limit : Z) (labels : list string) :
  (devicesByLabels conn offset limit labels).1.1
  = (getObjectsByLabelsAndSomeRange conn ZREVRANGE DeviceCollection labels offset
       (if limit =? -1 then limit else int64_wrap (offset + limit - 1))).1.1.
Proof.
  unfold devicesByLabels. cbv zeta.
  destruct (getObjectsByLabelsAndSomeRange _ _ _ _ _ _) as [[c objects] [e|]]; [reflexivity|].
  destruct (decode_into _ _ _); reflexivity.
Qed.

(** C9.  The keys are laid out as [<collection>:<id>] for the primary
    object, [<collection>] for the id index, [<collection>:name] for the
    name index, [<collection>:service:name:<serviceName>],
    [<collection>:profile:name:<profileName>] and
    [<collection>:label:<label>] for the buckets; and these are the keys
    of the commands that create, delete, the two lookups and the three
    queries issue. *)
Theorem keys_follow_layout
    (conn : Conn) (ts : Z) (d : Device) (offset limit : Z) (name label : string)
    (labels : list string) :
  let objectKey (id : string) := DeviceCollection ++ ":" ++ id in
  let idIndex := DeviceCollection in
  let nameIndex := DeviceCollection ++ ":name" in
  let serviceKey (serviceName : string) := DeviceCollection ++ ":service:name:" ++ serviceName in
  let profileKey (profileName : string) := DeviceCollection ++ ":profile:name:" ++ profileName in
  let labelKey (label : string) := DeviceCollection ++ ":label:" ++ label in
  let end_ := if limit =? -1 then limit else int64_wrap (offset + limit - 1) in
  (deviceStoredKey (Id d) = objectKey (Id d) /\
   DeviceCollectionName = nameIndex /\
   CreateKey [DeviceCollectionServiceName; name] = serviceKey name /\
   CreateKey [DeviceCollectionProfileName; name] = profileKey name /\
   CreateKey [DeviceCollectionLabel; label] = labelKey label) /\
  (exists sent : list Cmd,
     trace (addDevice conn ts d).1.1 = (trace conn ++ sent)%list /\
     (sent = [EXISTS (objectKey (Id d))] \/
      sent = [EXISTS (objectKey (Id d)); HEXISTS nameIndex (Name d)] \/
      exists b : bytes,
        sent = ([EXISTS (objectKey (Id d)); HEXISTS nameIndex (Name d); MULTI;
                 SET (objectKey (Id d)) b;
                 ZADD idIndex 0 (objectKey (Id d));
                 HSET nameIndex (Name d) (objectKey (Id d));
                 ZADD (serviceKey (ServiceName d)) ts (objectKey (Id d));
                 ZADD (profileKey (ProfileName d)) ts (objectKey (Id d))]
                ++ List.map (fun l => ZADD (labelKey l) ts (objectKey (Id d))) (Labels d)
                ++ [EXEC])%list)) /\
  trace (deleteDevice conn d).1 =
    (trace conn ++
     [MULTI;
      DEL (objectKey (Id d));
      ZREM idIndex (objectKey (Id d));
      HDEL nameIndex (Name d);
      ZREM (serviceKey (ServiceName d)) (objectKey (Id d));
      ZREM (profileKey (ProfileName d)) (objectKey (Id d))]
     ++ List.map (fun l => ZREM (labelKey l) (objectKey (Id d))) (Labels d)
     ++ [EXEC])%list /\
  trace (deviceById conn (Id d)).1.1 = (trace conn ++ [GET (objectKey (Id d))])%list /\
  (exists more, trace (deviceByName conn name).1.1
                = (trace conn ++ HGET nameIndex name :: more)%list) /\
  (exists more, trace (devicesByServiceName conn offset limit name).1.1
                = (trace conn ++ ZREVRANGE (serviceKey name) offset end_ :: more)%list) /\
  (exists more, trace (devicesByProfileName conn offset limit name).1.1
                = (trace conn ++ ZREVRANGE (profileKey name) offset end_ :: more)%list) /\
  (exists more, trace (devicesByLabels conn offset limit (label :: labels)).1.1
                = (trace conn ++ ZREVRANGE (labelKey label) 0 (-1) :: more)%list) /\
  (exists more, trace (devicesByLabels conn offset limit []).1.1
                = (trace conn ++ ZREVRANGE idIndex offset end_ :: more)%list).
Proof.
  cbv zeta.
  split; [repeat split; reflexivity|].
  split.
  { destruct (addDevice_trace conn ts d) as (sent & Ht & [E | [E | (b & E)]]);
      exists sent; (split; [exact Ht|]).
    - left. exact E.
    - right; left. exact E.
    - right; right. exists b. rewrite E. unfold create_batch.
      rewrite !stamped_Id, !stamped_Name, !stamped_ServiceName, !stamped_ProfileName,
        !stamped_Labels, !stamped_Modified.
      reflexivity. }
  split.
  { rewrite deleteDevice_trace. unfold delete_batch. simpl. reflexivity. }
  split; [apply deviceById_trace|].
  split; [apply deviceByName_trace|].
  split; [rewrite devicesByServiceName_conn; apply getObjectsByRevRange_trace|].
  split; [rewrite devicesByProfileName_conn; apply getObjectsByRevRange_trace|].
  split; rewrite devicesByLabels_conn;
    apply (getObjectsByLabelsAndSomeRange_trace conn DeviceCollection).
Qed.

End KeyLayout.

(** ** Pagination *)

Lemma range_by_rank_nil {A : Type} (start stop : Z) :
  range_by_rank (@nil A) start stop = [].
Proof.
  unfold range_by_rank. simpl length.
  set (s1 := if start <? 0 then Z.of_nat 0 + start else start).
  set (s2 := if s1 <? 0 then 0 else s1).
  assert (H : 0 <= s2).
  { subst s2. destruct (s1 <? 0) eqn:E; [lia | apply Z.ltb_ge in E; lia]. }
  replace (Z.of_nat 0 <=? s2) with true by (symmetry; apply Z.leb_le; lia).
  rewrite orb_true_r. reflexivity.
Qed.

(** With [-1] as its end the range runs from the start to the last
    element. *)
Lemma range_by_rank_to_end {A : Type} (l : list A) (k : Z) :
  0 <= k -> range_by_rank l k (-1) = skipn (Z.to_nat k) l.
Proof.
  intros Hk. unfold range_by_rank.
  replace (k <? 0) with false by (symmetry; apply Z.ltb_ge; lia).
  replace (-1 <? 0) with true by reflexivity.
  replace (k <? 0) with false by (symmetry; apply Z.ltb_ge; lia).
  destruct (Z.of_nat (length l) + -1 <? k) eqn:E1; simpl.
  - apply Z.ltb_lt in E1. symmetry. apply skipn_all2. lia.
  - apply Z.ltb_ge in E1.
    replace (Z.of_nat (length l) <=? k) with false by (symmetry; apply Z.leb_gt; lia).
    replace (Z.of_nat (length l) <=? Z.of_nat (length l) + -1) with false
      by (symmetry; apply Z.leb_gt; lia).
    apply firstn_all2. rewrite length_skipn. lia.
Qed.

(** With a positive limit the range is the window of that many elements
    from the start, cut at the end of the list. *)
Lemma range_by_rank_window {A : Type} (l : list A) (k m : Z) :
  0 <= k -> 0 < m -> k + m - 1 < 2 ^ 63 ->
  range_by_rank l k (int64_wrap (k + m - 1))
  = firstn (Z.to_nat m) (skipn (Z.to_nat k) l).
Proof.
  intros Hk Hm Hov.
  assert (W : int64_wrap (k + m - 1) = k + m - 1).
  { unfold int64_wrap. rewrite Z.mod_small; lia. }
  rewrite W. unfold range_by_rank.
  replace (k <? 0) with false by (symmetry; apply Z.ltb_ge; lia).
  replace (k + m - 1 <? 0) with false by (symmetry; apply Z.ltb_ge; lia).
  replace (k <? 0) with false by (symmetry; apply Z.ltb_ge; lia).
  replace (k + m - 1 <? k) with false by (symmetry; apply Z.ltb_ge; lia).
  simpl. destruct (Z.of_nat (length l) <=? k) eqn:E1.
  - apply Z.leb_le in E1. rewrite skipn_all2 by lia. rewrite firstn_nil. reflexivity.
  - apply Z.leb_gt in E1. destruct (Z.of_nat (length l) <=? k + m - 1) eqn:E2.
    + apply Z.leb_le in E2. rewrite !firstn_all2; try reflexivity; rewrite length_skipn; lia.
    + f_equal. lia.
Qed.

(** A limit of zero at a positive offset gives nothing. *)
Lemma range_by_rank_limit_zero {A : Type} (l : list A) (k : Z) :
  0 < k -> k < 2 ^ 63 -> range_by_rank l k (int64_wrap (k + 0 - 1)) = [].
Proof.
  intros Hk Hov.
  assert (W : int64_wrap (k + 0 - 1) = k - 1).
  { unfold int64_wrap. rewrite Z.mod_small; lia. }
  rewrite W. unfold range_by_rank.
  replace (k <? 0) with false by (symmetry; apply Z.ltb_ge; lia).
  replace (k - 1 <? 0) with false by (symmetry; apply Z.ltb_ge; lia).
  replace (k <? 0) with false by (symmetry; apply Z.ltb_ge; lia).
  replace (k - 1 <? k) with true by (symmetry; apply Z.ltb_lt; lia).
  reflexivity.
Qed.

Lemma bulk_elements_keys (ids : list string) :
  bulk_elements (List.map RBulk ids) = Ok ids.
Proof.
  induction ids as [|id ids IH]; [reflexivity|]. simpl. rewrite IH. reflexivity.
Qed.

Lemma bulk_elements_entries (m : gmap string RVal) (ids : list string) :
  bulk_elements (List.map (fun k => match m !! k with
                                    | Some (VString v) => RBulk v
                                    | _ => RNil
                                    end) ids)
  = Ok (List.map (entry m) ids).
Proof.
  induction ids as [|id ids IH]; [reflexivity|]. simpl. rewrite IH. unfold entry.
  destruct (m !! id) as [[v|z|h]|]; reflexivity.
Qed.

Lemma getObjectsByIds_idle (c : Conn) (ids : list string) :
  txn c = None -> no_fault 1 c = true ->
  (getObjectsByIds c ids).1.2 = List.map (entry (db c)) ids /\
  (getObjectsByIds c ids).2 = None.
Proof.
  intros T F. unfold getObjectsByIds. destruct ids as [|id ids]; [split; reflexivity|].
  remember (id :: ids) as l eqn:E. clear E.
  rewrite (Do_idle c (MGET l) T F eq_refl). cbn [apply_cmd fst snd redis_ByteSlices].
  rewrite bulk_elements_entries. split; reflexivity.
Qed.

(** On an idle connection without failure the range helper returns the
    entries of the stored keys in the range, in their order. *)
Lemma getObjectsByRevRange_idle (conn : Conn) (key : string) (start end_ : Z) :
  txn conn = None -> no_fault 2 conn = true -> is_bucket (db conn) key = true ->
  (getObjectsByRevRange conn key start end_).1.2
  = List.map (entry (db conn)) (range_by_rank (listing (db conn) key) start end_) /\
  (getObjectsByRevRange conn key start end_).2 = None.
Proof.
  intros T F B.
  assert (F1 : no_fault 1 conn = true).
  { unfold no_fault in *. destruct (faults conn) as [|[] fs]; try reflexivity; discriminate F. }
  unfold getObjectsByRevRange.
  rewrite (Do_idle conn (ZREVRANGE key start end_) T F1 eq_refl).
  unfold is_bucket in B. unfold listing. simpl.
  destruct (db conn !! key) as [[v|z|h]|] eqn:L; try discriminate B; simpl.
  - rewrite bulk_elements_keys.
    match goal with |- context [getObjectsByIds ?c ?ids] =>
      apply (getObjectsByIds_idle c ids eq_refl) end.
    unfold no_fault in *. simpl.
    destruct (faults conn) as [|[] [|[] fs]]; try reflexivity; discriminate F.
  - rewrite range_by_rank_nil. split; reflexivity.
Qed.

Section Pagination.
Context {codec : JSON}.

(** The decoding loop returns the decoded records, in the order of the
    entries, when every entry decodes. *)
Lemma decode_into_all (objects : list bytes) (ds : list Device) :
  Forall2 (fun entry d => json_Unmarshal entry = Ok d) objects ds ->
  forall (devices : list Device) (i : nat),
  length devices = (i + length objects)%nat ->
  decode_into devices i objects = ((take i devices ++ ds)%list, None).
Proof.
  induction 1 as [|entry d objects ds U _ IH]; intros devices i Len; simpl in *.
  - rewrite app_nil_r, take_ge by lia. reflexivity.
  - rewrite U. rewrite IH by (rewrite length_insert; lia).
    rewrite (take_S_r _ _ d) by (apply list_lookup_insert_eq; lia).
    rewrite take_insert_ge by lia. rewrite <- app_assoc. reflexivity.
Qed.

(** Away from the slip at offset 0 and limit 0, the queries by service
    and by profile page as property P4 of the specification says: on an
    idle connection
    without failure, for an offset [k >= 0] and a limit that is -1 or
    positive (and does not overflow), they return the decoded entries of
    the window of the group: all from rank [k] on, or at most [limit]
    from rank [k] on, in descending order of the score. *)
Lemma devicesBy_window (conn : Conn) (offset limit : Z) (name : string) (ds : list Device) :
  txn conn = None -> no_fault 2 conn = true ->
  0 <= offset -> limit = -1 \/ (0 < limit /\ offset + limit - 1 < 2 ^ 63) ->
  (let key := CreateKey [DeviceCollectionServiceName; name] in
   is_bucket (db conn) key = true ->
   Forall2 (fun k d => json_Unmarshal (entry (db conn) k) = Ok d)
     (window (listing (db conn) key) offset limit) ds ->
   (devicesByServiceName conn offset limit name).1.2 = ds /\
   (devicesByServiceName conn offset limit name).2 = None) /\
  (let key := CreateKey [DeviceCollectionProfileName; name] in
   is_bucket (db conn) key = true ->
   Forall2 (fun k d => json_Unmarshal (entry (db conn) k) = Ok d)
     (window (listing (db conn) key) offset limit) ds ->
   (devicesByProfileName conn offset limit name).1.2 = ds /\
   (devicesByProfileName conn offset limit name).2 = None).
Proof.
  intros T F Hk Hm.
  assert (W : forall l : list string,
             range_by_rank l offset
               (if limit =? -1 then limit else int64_wrap (offset + limit - 1))
             = window l offset limit).
  { intros l. unfold window. destruct Hm as [-> | [Hm Hov]].
    - simpl. apply range_by_rank_to_end, Hk.
    - replace (limit =? -1) with false by (symmetry; apply Z.eqb_neq; lia).
      apply range_by_rank_window; assumption. }
  split; intros key B D.
  - unfold devicesByServiceName. cbv zeta. fold key.
    destruct (getObjectsByRevRange_idle conn key offset
                (if limit =? -1 then limit else int64_wrap (offset + limit - 1)) T F B)
      as [Ho He].
    destruct (getObjectsByRevRange conn key offset _) as [[c objects] e].
    simpl in Ho, He. subst e objects. rewrite W.
    rewrite (decode_into_all _ ds).
    + split; reflexivity.
    + apply Forall2_fmap_l. exact D.
    + rewrite length_replicate. reflexivity.
  - unfold devicesByProfileName. cbv zeta. fold key.
    destruct (getObjectsByRevRange_idle conn key offset
                (if limit =? -1 then limit else int64_wrap (offset + limit - 1)) T F B)
      as [Ho He].
    destruct (getObjectsByRevRange conn key offset _) as [[c objects] e].
    simpl in Ho, He. subst e objects. rewrite W.
    rewrite (decode_into_all _ ds).
    + split; reflexivity.
    + apply Forall2_fmap_l. exact D.
    + rewrite length_replicate. reflexivity.
Qed.

End Pagination.

(** The first page of one record of the group of [svc1]. *)
Example devicesBy_window_svc1 :
  (@devicesByServiceName Demo.codec Demo.conn1 0 1 "svc1").1.2 = [stamped Demo.d1 1000] /\
  (@devicesByServiceName Demo.codec Demo.conn1 0 1 "svc1").2 = None.
Proof.
  apply (proj1 (@devicesBy_window Demo.codec Demo.conn1 0 1 "svc1" [stamped Demo.d1 1000]
                  eq_refl eq_refl ltac:(lia) ltac:(right; split; [lia | reflexivity]))).
  - vm_compute. reflexivity.
  - vm_compute. repeat constructor.
Qed.

Section PaginationSlip.
Context {codec : JSON}.

(** At offset 0 the end computed for the limit 0 is [0 + 0 - 1 = -1], the
    very value that stands for "to the end": the three queries cannot
    tell the limit 0 from the limit -1. *)
Lemma limit_zero_is_no_limit (conn : Conn) (name : string) (labels : list string) :
  devicesByServiceName conn 0 0 name = devicesByServiceName conn 0 (-1) name /\
  devicesByProfileName conn 0 0 name = devicesByProfileName conn 0 (-1) name /\
  devicesByLabels conn 0 0 labels = devicesByLabels conn 0 (-1) labels.
Proof. repeat split; reflexivity. Qed.

End PaginationSlip.

(** C3.  The group of service [svc1] holds one record.  With offset 0
    and limit -1 the query returns it; with offset 0 and limit 1 it
    returns it; with offset 1 and limit 0 it returns nothing; but with
    offset 0 and limit 0 it returns the record again, one record where
    the limit allows none.  The same holds of the query by profile and
    of the query by labels. *)
Theorem devicesBy_offset_zero_limit_zero :
  let r := stamped Demo.d1 1000 in
  (@devicesByServiceName Demo.codec Demo.conn1 0 (-1) "svc1").1.2 = [r] /\
  (@devicesByServiceName Demo.codec Demo.conn1 0 1 "svc1").1.2 = [r] /\
  (@devicesByServiceName Demo.codec Demo.conn1 1 0 "svc1").1.2 = [] /\
  (@devicesByServiceName Demo.codec Demo.conn1 0 0 "svc1").1.2 = [r] /\
  (@devicesByServiceName Demo.codec Demo.conn1 0 0 "svc1").2 = None /\
  (@devicesByProfileName Demo.codec Demo.conn1 0 0 "prof1").1.2 = [r] /\
  (@devicesByLabels Demo.codec Demo.conn1 0 0 ["floor1"; "temp"]).1.2 = [r] /\
  (@devicesByLabels Demo.codec Demo.conn1 0 0 []).1.2 = [r].
Proof. vm_compute. repeat split; reflexivity. Qed.

(** * Further properties of the store *)

(** ** Reads *)

Section ReadOnly.
Context {codec : JSON}.

Lemma getObjectById_db (conn : Conn) (key : string) :
  db (getObjectById conn key).1.1 = db conn.
Proof.
  unfold getObjectById. pose proof (Do_read_db conn (GET key) eq_refl) as H.
  destruct (Do conn (GET key)) as [c r]. simpl in H.
  destruct (redis_Bytes r) as [obj|[|text]]; try exact H.
  destruct (json_Unmarshal obj); exact H.
Qed.

Lemma getObjectByHash_db (conn : Conn) (hash field : string) :
  db (getObjectByHash conn hash field).1.1 = db conn.
Proof.
  unfold getObjectByHash. pose proof (Do_read_db conn (HGET hash field) eq_refl) as H.
  destruct (Do conn (HGET hash field)) as [c r]. simpl in H.
  destruct (redis_String r) as [key|[|text]]; try exact H.
  rewrite getObjectById_db. exact H.
Qed.

Lemma getObjectsByIds_db (conn : Conn) (ids : list string) :
  db (getObjectsByIds conn ids).1.1 = db conn.
Proof.
  unfold getObjectsByIds. destruct ids as [|id ids]; [reflexivity|].
  pose proof (Do_read_db conn (MGET (id :: ids)) eq_refl) as H.
  destruct (Do conn (MGET (id :: ids))) as [c r]. simpl in H.
  destruct (redis_ByteSlices r); exact H.
Qed.

Lemma getObjectsByRevRange_db (conn : Conn) (key : string) (start end_ : Z) :
  db (getObjectsByRevRange conn key start end_).1.1 = db conn.
Proof.
  unfold getObjectsByRevRange.
  pose proof (Do_read_db conn (ZREVRANGE key start end_) eq_refl) as H.
  destruct (Do conn (ZREVRANGE key start end_)) as [c r]. simpl in H.
  destruct (redis_Strings r) as [ids|e]; [|exact H].
  rewrite getObjectsByIds_db. exact H.
Qed.

Lemma label_listings_db (labels : list string) (conn : Conn) (key : string) :
  db (label_listings conn ZREVRANGE key labels).1.1 = db conn.
Proof.
  revert conn. induction labels as [|label labels IH]; intros conn; [reflexivity|].
  cbn [label_listings].
  pose proof (Do_read_db conn (ZREVRANGE (CreateKey [key; v2_Label; label]) 0 (-1)) eq_refl)
    as H.
  destruct (Do conn (ZREVRANGE (CreateKey [key; v2_Label; label]) 0 (-1))) as [c r].
  simpl in H. destruct (redis_Strings r) as [ids|e]; [|exact H].
  specialize (IH c). destruct (label_listings c ZREVRANGE key labels) as [[c2 ls] e2].
  simpl in *. rewrite IH. exact H.
Qed.

Lemma getObjectsByLabelsAndSomeRange_db
    (conn : Conn) (key : string) (labels : list string) (start end_ : Z) :
  db (getObjectsByLabelsAndSomeRange conn ZREVRANGE key labels start end_).1.1 = db conn.
Proof.
  unfold getObjectsByLabelsAndSomeRange. destruct labels as [|label labels].
  - pose proof (Do_read_db conn (ZREVRANGE key start end_) eq_refl) as H.
    destruct (Do conn (ZREVRANGE key start end_)) as [c r]. simpl in H.
    destruct (redis_Strings r) as [ids|e]; [|exact H].
    rewrite getObjectsByIds_db. exact H.
  - pose proof (label_listings_db (label :: labels) conn key) as H.
    destruct (label_listings conn ZREVRANGE key (label :: labels)) as [[c ls] [e|]];
      simpl in H; [exact H|].
    rewrite getObjectsByIds_db. exact H.
Qed.

(** X1.  The two existence checks, the two lookups and the three queries
    never change the key space, in whatever state the connection is:
    idle or inside a transaction, with or without an I/O failure. *)
Theorem reads_leave_the_key_space
    (conn : Conn) (id name : string) (offset limit : Z) (labels : list string) :
  db (deviceIdExists conn id).1.1 = db conn /\
  db (deviceNameExists conn name).1.1 = db conn /\
  db (deviceById conn id).1.1 = db conn /\
  db (deviceByName conn name).1.1 = db conn /\
  db (devicesByServiceName conn offset limit name).1.1 = db conn /\
  db (devicesByProfileName conn offset limit name).1.1 = db conn /\
  db (devicesByLabels conn offset limit labels).1.1 = db conn.
Proof.
  split; [apply deviceIdExists_read|].
  split; [apply deviceNameExists_read|].
  split.
  { unfold deviceById. pose proof (getObjectById_db conn (deviceStoredKey id)) as H.
    destruct (getObjectById conn (deviceStoredKey id)) as [[c device] [e|]]; exact H. }
  split.
  { unfold deviceByName. pose proof (getObjectByHash_db conn DeviceCollectionName name) as H.
    destruct (getObjectByHash conn DeviceCollectionName name) as [[c device] [e|]]; exact H. }
  split; [rewrite devicesByServiceName_conn; apply getObjectsByRevRange_db|].
  split; [rewrite devicesByProfileName_conn; apply getObjectsByRevRange_db|].
  rewrite devicesByLabels_conn. apply getObjectsByLabelsAndSomeRange_db.
Qed.

(** X2.  In each of the three queries, when the fetch has returned its
    entries and every one of them decodes, the query returns without
    error one record per entry: the decoded entries, in the order of the
    fetch. *)
Theorem queries_return_decoded_entries
    (conn conn' : Conn) (offset limit : Z) (objects : list bytes) (ds : list Device) :
  Forall2 (fun entry d => json_Unmarshal entry = Ok d) objects ds ->
  let end_ := if limit =? -1 then limit else int64_wrap (offset + limit - 1) in
  length ds = length objects /\
  (forall name : string,
     getObjectsByRevRange conn (CreateKey [DeviceCollectionServiceName; name]) offset end_
     = (conn', objects, None) ->
     devicesByServiceName conn offset limit name = (conn', ds, None)) /\
  (forall profileName : string,
     getObjectsByRevRange conn (CreateKey [DeviceCollectionProfileName; profileName]) offset end_
     = (conn', objects, None) ->
     devicesByProfileName conn offset limit profileName = (conn', ds, None)) /\
  (forall labels : list string,
     getObjectsByLabelsAndSomeRange conn ZREVRANGE DeviceCollection labels offset end_
     = (conn', objects, None) ->
     devicesByLabels conn offset limit labels = (conn', ds, None)).
Proof.
  intros D end_.
  assert (E : decode_into (replicate (length objects) zeroDevice) 0%nat objects = (ds, None)).
  { rewrite (decode_into_all objects ds D) by (rewrite length_replicate; reflexivity).
    reflexivity. }
  split; [symmetry; eapply Forall2_length; exact D|].
  repeat split; intros x H.
  - unfold devicesByServiceName. fold end_. rewrite H, E. reflexivity.
  - unfold devicesByProfileName. fold end_. rewrite H, E. reflexivity.
  - unfold devicesByLabels. fold end_. rewrite H, E. reflexivity.
Qed.

(** X3.  A query by service or by profile for a name that has no bucket
    returns the empty list and no error, for every offset and every
    limit, after a single range read. *)
Theorem query_of_unknown_group (conn : Conn) (offset limit : Z) (name : string) :
  txn conn = None -> no_fault 1 conn = true ->
  let end_ := if limit =? -1 then limit else int64_wrap (offset + limit - 1) in
  (let key := CreateKey [DeviceCollectionServiceName; name] in
   db conn !! key = None ->
   devicesByServiceName conn offset limit name
   = (mkConn (db conn) None (tail (faults conn))
        (trace conn ++ [ZREVRANGE key offset end_])%list, [], None)) /\
  (let key := CreateKey [DeviceCollectionProfileName; name] in
   db conn !! key = None ->
   devicesByProfileName conn offset limit name
   = (mkConn (db conn) None (tail (faults conn))
        (trace conn ++ [ZREVRANGE key offset end_])%list, [], None)).
Proof.
  intros T F end_. split; intros key L.
  - unfold devicesByServiceName, getObjectsByRevRange. fold end_. fold key.
    rewrite (Do_idle conn (ZREVRANGE key offset end_) T F eq_refl).
    cbn [apply_cmd]. rewrite L. reflexivity.
  - unfold devicesByProfileName, getObjectsByRevRange. fold end_. fold key.
    rewrite (Do_idle conn (ZREVRANGE key offset end_) T F eq_refl).
    cbn [apply_cmd]. rewrite L. reflexivity.
Qed.

End ReadOnly.

(** The service query of the group of [d1], decoded. *)
Lemma queries_return_decoded_entries_witness :
  @devicesByServiceName Demo.codec Demo.conn1 0 (-1) "svc1"
  = (mkConn (db Demo.conn1) None []
       (trace Demo.conn1 ++ [ZREVRANGE "md|dv:service:name:svc1" 0 (-1); MGET ["md|dv:d1"]])%list,
     [stamped Demo.d1 1000], None).
Proof.
  pose (c := mkConn (db Demo.conn1) None []
               (trace Demo.conn1
                ++ [ZREVRANGE "md|dv:service:name:svc1" 0 (-1); MGET ["md|dv:d1"]])%list).
  pose (objects := ["d1|therm-1|svc1|prof1|floor1,temp|0x3e8|0x3e8"]).
  assert (D : Forall2 (fun entry d => @json_Unmarshal Demo.codec entry = Ok d)
                objects [stamped Demo.d1 1000]).
  { repeat constructor. }
  assert (H : getObjectsByRevRange Demo.conn1
                (CreateKey [DeviceCollectionServiceName; "svc1"]) 0 (-1)
              = (c, objects, None)) by (vm_compute; reflexivity).
  exact (proj1 (proj2 (@queries_return_decoded_entries Demo.codec Demo.conn1 c 0 (-1)
                         objects [stamped Demo.d1 1000] D)) "svc1" H).
Defined.

(** A service without devices on the server of [conn1]. *)
Lemma query_of_unknown_group_witness :
  txn Demo.conn1 = None /\ no_fault 1 Demo.conn1 = true /\
  db Demo.conn1 !! CreateKey [DeviceCollectionServiceName; "svc9"] = None /\
  (@devicesByServiceName Demo.codec Demo.conn1 5 0 "svc9").1.2 = [] /\
  (@devicesByServiceName Demo.codec Demo.conn1 5 0 "svc9").2 = None.
Proof.
  assert (T : txn Demo.conn1 = None) by (vm_compute; reflexivity).
  assert (F : no_fault 1 Demo.conn1 = true) by (vm_compute; reflexivity).
  assert (L : db Demo.conn1 !! CreateKey [DeviceCollectionServiceName; "svc9"] = None)
    by (vm_compute; reflexivity).
  repeat (split; [assumption|]).
  rewrite (proj1 (@query_of_unknown_group Demo.codec Demo.conn1 5 0 "svc9" T F) L).
  split; reflexivity.
Defined.

(** ** Ordered sets *)

Lemma zset_mem_remove_same (member : string) (z : zset) :
  zset_mem member (zset_remove member z) = false.
Proof.
  unfold zset_mem, zset_remove. induction z as [|y z IH]; [reflexivity|]. simpl.
  destruct (String.eqb y.1 member) eqn:E; simpl; [exact IH|]. rewrite E. exact IH.
Qed.

Lemma zset_mem_remove_false (member other : string) (z : zset) :
  zset_mem member z = false -> zset_mem member (zset_remove other z) = false.
Proof.
  unfold zset_mem, zset_remove. induction z as [|y z IH]; [reflexivity|]. simpl.
  intros H. apply orb_false_iff in H as [H1 H2].
  destruct (negb (String.eqb y.1 other)); simpl; [rewrite H1|]; auto.
Qed.

Lemma zset_mem_remove_other (member other : string) (z : zset) :
  member <> other -> zset_mem member z = true ->
  zset_mem member (zset_remove other z) = true.
Proof.
  unfold zset_mem, zset_remove. intros Ne. induction z as [|y z IH]; [discriminate|]. simpl.
  intros H. apply orb_true_iff in H as [H|H].
  - apply String.eqb_eq in H.
    assert (E : String.eqb y.1 other = false) by (apply String.eqb_neq; congruence).
    rewrite E. simpl. rewrite (proj2 (String.eqb_eq _ _) H). reflexivity.
  - destruct (negb (String.eqb y.1 other)); simpl; [rewrite (IH H); apply orb_true_r | auto].
Qed.

Lemma zset_mem_insert_same (member : string) (score : Z) (z : zset) :
  zset_mem member (zset_insert (member, score) z) = true.
Proof.
  unfold zset_mem. induction z as [|y z IH]; simpl.
  - rewrite String.eqb_refl. reflexivity.
  - destruct (zset_le (member, score) y); simpl.
    + rewrite String.eqb_refl. reflexivity.
    + rewrite IH. apply orb_true_r.
Qed.

Lemma zset_mem_insert_other (member : string) (x : string * Z) (z : zset) :
  zset_mem member z = true -> zset_mem member (zset_insert x z) = true.
Proof.
  unfold zset_mem. induction z as [|y z IH]; simpl; [discriminate|].
  intros H. destruct (zset_le x y); simpl.
  - rewrite H. apply orb_true_r.
  - apply orb_true_iff in H as [H|H]; [rewrite H; reflexivity|].
    rewrite (IH H). apply orb_true_r.
Qed.

Lemma zset_mem_add_same (member : string) (score : Z) (z : zset) :
  zset_mem member (zset_add member score z) = true.
Proof. apply zset_mem_insert_same. Qed.

Lemma zset_mem_add_other (member other : string) (score : Z) (z : zset) :
  zset_mem member z = true -> zset_mem member (zset_add other score z) = true.
Proof.
  intros H. unfold zset_add. destruct (String.eqb member other) eqn:E.
  - apply String.eqb_eq in E. subst other. apply zset_mem_insert_same.
  - apply String.eqb_neq in E. apply zset_mem_insert_other.
    apply zset_mem_remove_other; assumption.
Qed.

(** ** Batches *)

Lemma apply_all_app (l1 l2 : list Cmd) (m : gmap string RVal) :
  (apply_all m (l1 ++ l2)).1 = (apply_all (apply_all m l1).1 l2).1.
Proof.
  revert m. induction l1 as [|cmd l1 IH]; intros m; [reflexivity|].
  cbn [app]. rewrite !apply_all_cons. apply IH.
Qed.

(** A property of the key space that one command of a batch establishes,
    given an invariant that all of them keep, and that all of them
    preserve, holds after the batch. *)
Lemma batch_establishes (Q P : gmap string RVal -> Prop) (cmd : Cmd) (cmds : list Cmd) :
  (forall m c, In c cmds -> Q m -> Q (apply_cmd m c).1) ->
  (forall m, Q m -> P (apply_cmd m cmd).1) ->
  (forall m c, In c cmds -> Q m -> P m -> P (apply_cmd m c).1) ->
  In cmd cmds ->
  forall m, Q m -> P (apply_all m cmds).1.
Proof.
  intros HQ HE HP.
  assert (G : forall l, (forall c, In c l -> In c cmds) ->
              forall m, Q m -> (P m \/ In cmd l) -> P (apply_all m l).1).
  { induction l as [|c l IH]; intros Sub m Qm [Pm|I].
    - exact Pm.
    - destruct I.
    - rewrite apply_all_cons. apply IH.
      + intros c' I'. apply Sub. right. exact I'.
      + apply HQ; [apply Sub; left; reflexivity | exact Qm].
      + left. apply HP; [apply Sub; left; reflexivity | exact Qm | exact Pm].
    - rewrite apply_all_cons. apply IH.
      + intros c' I'. apply Sub. right. exact I'.
      + apply HQ; [apply Sub; left; reflexivity | exact Qm].
      + destruct I as [->|I]; [left; apply HE; exact Qm | right; exact I]. }
  intros I m Qm. apply G; auto.
Qed.

(** ** What the commands of a delete do *)

Lemma removal_keeps_absent (m : gmap string RVal) (c : Cmd) (k : string) :
  removes_only c = true -> m !! k = None -> (apply_cmd m c).1 !! k = None.
Proof.
  intros R L. destruct c; try discriminate R; simpl.
  - destruct (m !! key) eqn:Lk; simpl; [|exact L].
    destruct (decide (key = k)) as [->|Ne];
      [apply lookup_delete_eq | rewrite lookup_delete_ne by exact Ne; exact L].
  - destruct (m !! key) as [[b|z|h]|] eqn:Lk; simpl; try exact L.
    destruct (decide (key = k)) as [->|Ne]; [rewrite L in Lk; discriminate Lk|].
    destruct (zset_remove member z);
      [rewrite lookup_delete_ne | rewrite lookup_insert_ne]; auto.
  - destruct (m !! key) as [[b|z|h]|] eqn:Lk; simpl; try exact L.
    destruct (decide (key = k)) as [->|Ne]; [rewrite L in Lk; discriminate Lk|].
    destruct (bool_decide (delete field h = ∅));
      [rewrite lookup_delete_ne | rewrite lookup_insert_ne]; auto.
Qed.

Lemma removal_keeps_out (m : gmap string RVal) (c : Cmd) (key member : string) :
  removes_only c = true ->
  in_bucket m key member = false -> in_bucket (apply_cmd m c).1 key member = false.
Proof.
  intros R L. unfold in_bucket in *. destruct c as [| |?|?|k|?|?|?|k m'|?|?|?|k f|?];
    try discriminate R; simpl.
  - destruct (m !! k) eqn:Lk; simpl; [|exact L].
    destruct (decide (k = key)) as [->|Ne];
      [rewrite lookup_delete_eq; reflexivity | rewrite lookup_delete_ne by exact Ne; exact L].
  - destruct (m !! k) as [[b|z|h]|] eqn:Lk; simpl; try exact L.
    destruct (decide (k = key)) as [->|Ne].
    + rewrite Lk in L. pose proof (zset_mem_remove_false member m' z L) as Z.
      destruct (zset_remove m' z) eqn:E.
      * rewrite lookup_delete_eq. reflexivity.
      * rewrite lookup_insert_eq. exact Z.
    + destruct (zset_remove m' z);
        [rewrite lookup_delete_ne | rewrite lookup_insert_ne]; auto.
  - destruct (m !! k) as [[b|z|h]|] eqn:Lk; simpl; try exact L.
    destruct (decide (k = key)) as [->|Ne].
    + destruct (bool_decide (delete f h = ∅));
        [rewrite lookup_delete_eq | rewrite lookup_insert_eq]; reflexivity.
    + destruct (bool_decide (delete f h = ∅));
        [rewrite lookup_delete_ne | rewrite lookup_insert_ne]; auto.
Qed.

Lemma removal_keeps_unnamed (m : gmap string RVal) (c : Cmd) (name : string) :
  removes_only c = true ->
  name_exists m name = false -> name_exists (apply_cmd m c).1 name = false.
Proof.
  intros R L. unfold name_exists in *. destruct c as [| |?|?|k|?|?|?|k m'|?|?|?|k f|?];
    try discriminate R; simpl.
  - destruct (m !! k) eqn:Lk; simpl; [|exact L].
    destruct (decide (k = DeviceCollectionName)) as [->|Ne];
      [rewrite lookup_delete_eq; reflexivity | rewrite lookup_delete_ne by exact Ne; exact L].
  - destruct (m !! k) as [[b|z|h]|] eqn:Lk; simpl; try exact L.
    destruct (decide (k = DeviceCollectionName)) as [->|Ne].
    + destruct (zset_remove m' z);
        [rewrite lookup_delete_eq | rewrite lookup_insert_eq]; reflexivity.
    + destruct (zset_remove m' z);
        [rewrite lookup_delete_ne | rewrite lookup_insert_ne]; auto.
  - destruct (m !! k) as [[b|z|h]|] eqn:Lk; simpl; try exact L.
    destruct (decide (k = DeviceCollectionName)) as [->|Ne].
    + rewrite Lk in L. apply bool_decide_eq_false in L.
      destruct (bool_decide (delete f h = ∅));
        [rewrite lookup_delete_eq; reflexivity | rewrite lookup_insert_eq].
      apply bool_decide_eq_false. intros [v Hv]. apply L.
      destruct (decide (f = name)) as [->|Nf].
      * rewrite lookup_delete_eq in Hv. discriminate Hv.
      * rewrite lookup_delete_ne in Hv by exact Nf. eauto.
    + destruct (bool_decide (delete f h = ∅));
        [rewrite lookup_delete_ne | rewrite lookup_insert_ne]; auto.
Qed.

Lemma DEL_removes (m : gmap string RVal) (k : string) :
  (apply_cmd m (DEL k)).1 !! k = None.
Proof.
  simpl. destruct (m !! k) eqn:L; simpl; [apply lookup_delete_eq | exact L].
Qed.

Lemma ZREM_removes (m : gmap string RVal) (key member : string) :
  in_bucket (apply_cmd m (ZREM key member)).1 key member = false.
Proof.
  unfold in_bucket. simpl. destruct (m !! key) as [[b|z|h]|] eqn:L; simpl; rewrite ?L; auto.
  pose proof (zset_mem_remove_same member z) as Z.
  destruct (zset_remove member z);
    [rewrite lookup_delete_eq; reflexivity | rewrite lookup_insert_eq; exact Z].
Qed.

Lemma HDEL_removes (m : gmap string RVal) (name : string) :
  name_exists (apply_cmd m (HDEL DeviceCollectionName name)).1 name = false.
Proof.
  unfold name_exists. simpl.
  destruct (m !! DeviceCollectionName) as [[b|z|h]|] eqn:L; simpl; rewrite ?L; auto.
  destruct (bool_decide (delete name h = ∅));
    [rewrite lookup_delete_eq; reflexivity | rewrite lookup_insert_eq].
  apply bool_decide_eq_false. intros [v Hv]. rewrite lookup_delete_eq in Hv. discriminate Hv.
Qed.

Lemma delete_batch_removes_only (device : Device) (c : Cmd) :
  In c (delete_batch device) -> removes_only c = true.
Proof.
  unfold delete_batch. intros I. apply in_app_or in I as [I|I].
  - simpl in I. repeat (destruct I as [<-|I]; [reflexivity|]). destruct I.
  - apply in_map_iff in I as (label & <- & _). reflexivity.
Qed.

(** ** Tear-down *)

Section TearDown.
Context {codec : JSON}.

Lemma delete_batch_result (device : Device) (m : gmap string RVal) :
  let storedKey := deviceStoredKey (Id device) in
  let after := (apply_all m (delete_batch device)).1 in
  after !! storedKey = None /\
  name_exists after (Name device) = false /\
  in_bucket after DeviceCollection storedKey = false /\
  in_bucket after (CreateKey [DeviceCollectionServiceName; ServiceName device]) storedKey
  = false /\
  in_bucket after (CreateKey [DeviceCollectionProfileName; ProfileName device]) storedKey
  = false /\
  (forall label, In label (Labels device) ->
     in_bucket after (CreateKey [DeviceCollectionLabel; label]) storedKey = false).
Proof.
  intros storedKey after. subst after.
  assert (S : forall (P : gmap string RVal -> Prop) (cmd : Cmd),
             (forall m0, P (apply_cmd m0 cmd).1) ->
             (forall m0 c, removes_only c = true -> P m0 -> P (apply_cmd m0 c).1) ->
             In cmd (delete_batch device) ->
             P (apply_all m (delete_batch device)).1).
  { intros P cmd HE HP I.
    apply (batch_establishes (fun _ => True) P cmd (delete_batch device)); auto.
    intros m0 c Ic _ Pm. apply HP; [eapply delete_batch_removes_only; exact Ic | exact Pm]. }
  assert (Head : forall cmd,
             In cmd [DEL storedKey; ZREM DeviceCollection storedKey;
                     HDEL DeviceCollectionName (Name device);
                     ZREM (CreateKey [DeviceCollectionServiceName; ServiceName device])
                       storedKey;
                     ZREM (CreateKey [DeviceCollectionProfileName; ProfileName device])
                       storedKey] ->
             In cmd (delete_batch device)).
  { intros cmd I. unfold delete_batch. apply in_or_app. left. exact I. }
  split; [|split; [|split; [|split; [|split]]]].
  - apply (S (fun m0 => m0 !! storedKey = None) (DEL storedKey)).
    + intros m0. apply DEL_removes.
    + intros m0 c R. apply removal_keeps_absent, R.
    + apply Head. simpl. auto.
  - apply (S (fun m0 => name_exists m0 (Name device) = false)
             (HDEL DeviceCollectionName (Name device))).
    + intros m0. apply HDEL_removes.
    + intros m0 c R. apply removal_keeps_unnamed, R.
    + apply Head. simpl. auto.
  - apply (S (fun m0 => in_bucket m0 DeviceCollection storedKey = false)
             (ZREM DeviceCollection storedKey)).
    + intros m0. apply ZREM_removes.
    + intros m0 c R. apply removal_keeps_out, R.
    + apply Head. simpl. auto.
  - apply (S (fun m0 => in_bucket m0 _ storedKey = false)
             (ZREM (CreateKey [DeviceCollectionServiceName; ServiceName device]) storedKey)).
    + intros m0. apply ZREM_removes.
    + intros m0 c R. apply removal_keeps_out, R.
    + apply Head. simpl. auto.
  - apply (S (fun m0 => in_bucket m0 _ storedKey = false)
             (ZREM (CreateKey [DeviceCollectionProfileName; ProfileName device]) storedKey)).
    + intros m0. apply ZREM_removes.
    + intros m0 c R. apply removal_keeps_out, R.
    + apply Head. simpl. auto 10.
  - intros label I.
    apply (S (fun m0 => in_bucket m0 _ storedKey = false)
             (ZREM (CreateKey [DeviceCollectionLabel; label]) storedKey)).
    + intros m0. apply ZREM_removes.
    + intros m0 c R. apply removal_keeps_out, R.
    + unfold delete_batch. apply in_or_app. right.
      apply (in_map (fun l => ZREM (CreateKey [DeviceCollectionLabel; l]) storedKey)).
      exact I.
Qed.

(** X4.  A delete that is committed (idle connection, no I/O failure)
    leaves nothing of the record: its primary object is gone, its name is
    no longer in the name index, and its stored key is a member neither
    of the id index nor of its service bucket, its profile bucket or the
    bucket of any of its labels. *)
Theorem deleteDevice_removes_everywhere (conn : Conn) (device : Device) :
  txn conn = None -> no_fault 1 conn = true ->
  let storedKey := deviceStoredKey (Id device) in
  let after := db (deleteDevice conn device).1 in
  (deleteDevice conn device).2 = None /\
  after !! storedKey = None /\
  name_exists after (Name device) = false /\
  in_bucket after DeviceCollection storedKey = false /\
  in_bucket after (CreateKey [DeviceCollectionServiceName; ServiceName device]) storedKey
  = false /\
  in_bucket after (CreateKey [DeviceCollectionProfileName; ProfileName device]) storedKey
  = false /\
  (forall label, In label (Labels device) ->
     in_bucket after (CreateKey [DeviceCollectionLabel; label]) storedKey = false).
Proof.
  intros T F storedKey after. subst after.
  rewrite (delete_commit conn device T). cbv zeta.
  assert (E : match faults conn with
              | true :: fs =>
                  (mkConn (db conn) None fs
                     (trace conn ++ [MULTI] ++ delete_batch device ++ [EXEC])%list,
                   Some (NewCommonEdgeX KindDatabaseError "device deletion failed"
                           (CauseGo (ErrText "i/o failure"))))
              | _ =>
                  (mkConn (apply_all (db conn) (delete_batch device)).1 None
                     (tail (faults conn))
                     (trace conn ++ [MULTI] ++ delete_batch device ++ [EXEC])%list, None)
              end
              = (mkConn (apply_all (db conn) (delete_batch device)).1 None
                   (tail (faults conn))
                   (trace conn ++ [MULTI] ++ delete_batch device ++ [EXEC])%list, None)).
  { unfold no_fault in F. destruct (faults conn) as [|[] fs]; try reflexivity; discriminate F. }
  rewrite E. cbn [fst snd db]. split; [reflexivity|].
  apply delete_batch_result.
Qed.

End TearDown.

(** The delete of [d1] on the server of [conn1]. *)
Lemma deleteDevice_removes_everywhere_witness :
  txn Demo.conn1 = None /\ no_fault 1 Demo.conn1 = true /\
  (deleteDevice Demo.conn1 (stamped Demo.d1 1000)).2 = None /\
  db (deleteDevice Demo.conn1 (stamped Demo.d1 1000)).1 !! "md|dv:d1" = None /\
  in_bucket (db (deleteDevice Demo.conn1 (stamped Demo.d1 1000)).1)
    "md|dv:label:temp" "md|dv:d1" = false.
Proof.
  assert (T : txn Demo.conn1 = None) by (vm_compute; reflexivity).
  assert (F : no_fault 1 Demo.conn1 = true) by (vm_compute; reflexivity).
  repeat (split; [assumption|]).
  destruct (deleteDevice_removes_everywhere Demo.conn1 (stamped Demo.d1 1000) T F)
    as (A & B & _ & _ & _ & _ & L).
  split; [exact A|]. split; [exact B|].
  apply (L "temp"). simpl. auto.
Defined.

Lemma removal_keeps_index (m : gmap string RVal) (c : Cmd) :
  removes_only c = true -> is_index m = true -> is_index (apply_cmd m c).1 = true.
Proof.
  intros R L. unfold is_index in *. destruct c as [| |?|?|k|?|?|?|k m'|?|?|?|k f|?];
    try discriminate R; simpl.
  - destruct (m !! k) eqn:Lk; simpl; [|exact L].
    destruct (decide (k = DeviceCollectionName)) as [->|Ne];
      [rewrite lookup_delete_eq; reflexivity | rewrite lookup_delete_ne by exact Ne; exact L].
  - destruct (m !! k) as [[b|z|h]|] eqn:Lk; simpl; try exact L.
    destruct (decide (k = DeviceCollectionName)) as [->|Ne];
      [rewrite Lk in L; discriminate L|].
    destruct (zset_remove m' z);
      [rewrite lookup_delete_ne | rewrite lookup_insert_ne]; auto.
  - destruct (m !! k) as [[b|z|h]|] eqn:Lk; simpl; try exact L.
    destruct (decide (k = DeviceCollectionName)) as [->|Ne].
    + destruct (bool_decide (delete f h = ∅));
        [rewrite lookup_delete_eq | rewrite lookup_insert_eq]; reflexivity.
    + destruct (bool_decide (delete f h = ∅));
        [rewrite lookup_delete_ne | rewrite lookup_insert_ne]; auto.
Qed.

Lemma delete_batch_keeps_index (device : Device) (m : gmap string RVal) :
  is_index m = true -> is_index (apply_all m (delete_batch device)).1 = true.
Proof.
  assert (G : forall l, (forall c, In c l -> removes_only c = true) ->
              forall m0, is_index m0 = true -> is_index (apply_all m0 l).1 = true).
  { induction l as [|c l IH]; intros R m0 I; [exact I|].
    rewrite apply_all_cons. apply IH.
    - intros c' Ic. apply R. right. exact Ic.
    - apply removal_keeps_index; [apply R; left; reflexivity | exact I]. }
  apply G. apply delete_batch_removes_only.
Qed.

Lemma name_absent_iff (m : gmap string RVal) (name : string) :
  is_index m = true -> name_exists m name = false -> name_absent m name = true.
Proof.
  unfold is_index, name_exists, name_absent.
  destruct (m !! DeviceCollectionName) as [[b|z|h]|]; try discriminate; auto.
  intros _ H. apply bool_decide_eq_false in H. apply bool_decide_eq_true.
  destruct (h !! name) eqn:L; [exfalso; apply H; eauto | reflexivity].
Qed.

Section DeleteThenLookup.
Context {codec : JSON}.

(** A lookup by name that succeeds has found a hash at the key of the
    name index. *)
Lemma deviceByName_found (conn : Conn) (name : string) :
  txn conn = None -> (deviceByName conn name).2 = None -> is_index (db conn) = true.
Proof.
  intros T. unfold deviceByName, getObjectByHash, is_index.
  destruct (no_fault 1 conn) eqn:F.
  - rewrite (Do_idle conn (HGET DeviceCollectionName name) T F eq_refl). simpl.
    destruct (db conn !! DeviceCollectionName) as [[b|z|h]|]; simpl;
      try discriminate; reflexivity.
  - rewrite (Do_fault conn (HGET DeviceCollectionName name) F). simpl. discriminate.
Qed.

(** A delete that returns no error has resolved the record and has
    committed its batch. *)
Lemma delete_committed (c1 conn' : Conn) (device : Device) :
  txn c1 = None ->
  (let '(c, err) := deleteDevice c1 device in
   match err with
   | Some err => (c, Some (NewCommonEdgeXWrapper err))
   | None => (c, None)
   end) = (conn', None) ->
  txn conn' = None /\ db conn' = (apply_all (db c1) (delete_batch device)).1.
Proof.
  intros T H. pose proof (removal_after_resolution c1 device T) as R. cbv zeta in R.
  rewrite H in R. cbn [fst snd] in R. destruct R as (_ & Tn & R).
  split; [exact Tn|]. destruct (no_fault 1 c1); [apply R|].
  destruct R as [R _]. discriminate R.
Qed.

(** X5.  On an idle connection, after [deleteDeviceById] has returned
    without error for a record that carries the id it is stored under,
    the id is free again: [deviceIdExists] answers no and [deviceById]
    fails with the kind NotFound.  Likewise, after [deleteDeviceByName]
    for a record that carries the name it is indexed under,
    [deviceNameExists] answers no and [deviceByName] fails with the kind
    NotFound. *)
Theorem delete_then_lookup_finds_nothing (conn : Conn) (id name : string) :
  txn conn = None ->
  (forall conn',
     deleteDeviceById conn id = (conn', None) ->
     Id (deviceById conn id).1.2 = id ->
     no_fault 1 conn' = true ->
     (deviceIdExists conn' id).1.2 = false /\
     (deviceIdExists conn' id).2 = None /\
     Kind <$> (deviceById conn' id).2 = Some NotFound) /\
  (forall conn',
     deleteDeviceByName conn name = (conn', None) ->
     Name (deviceByName conn name).1.2 = name ->
     no_fault 1 conn' = true ->
     (deviceNameExists conn' name).1.2 = false /\
     (deviceNameExists conn' name).2 = None /\
     Kind <$> (deviceByName conn' name).2 = Some NotFound).
Proof.
  intros T. split; intros conn' H Same F.
  - unfold deleteDeviceById in H.
    destruct (deviceById_idle conn id T) as (Hc & _ & _).
    destruct (deviceById conn id) as [[c1 device] [e|]] eqn:R; [discriminate H|].
    cbn [fst snd] in *.
    assert (T1 : txn c1 = None) by (subst c1; reflexivity).
    destruct (delete_committed c1 conn' device T1 H) as [Tn Hdb].
    assert (L : db conn' !! deviceStoredKey id = None).
    { rewrite Hdb, <- Same. exact (proj1 (delete_batch_result device (db c1))). }
    rewrite (deviceIdExists_idle conn' id Tn F). cbn [fst snd].
    unfold id_exists. rewrite L.
    split; [reflexivity|]. split; [reflexivity|].
    apply (deviceById_idle conn' id Tn); assumption.
  - unfold deleteDeviceByName in H.
    pose proof (deviceByName_found conn name T) as Ix.
    destruct (deviceByName_idle conn name T) as (T1 & D1 & _).
    destruct (deviceByName conn name) as [[c1 device] [e|]] eqn:R; [discriminate H|].
    cbn [fst snd] in *. specialize (Ix eq_refl).
    destruct (delete_committed c1 conn' device T1 H) as [Tn Hdb].
    rewrite D1 in Hdb.
    assert (N : name_exists (db conn') name = false).
    { rewrite Hdb, <- Same.
      exact (proj1 (proj2 (delete_batch_result device (db conn)))). }
    assert (A : name_absent (db conn') name = true).
    { apply name_absent_iff; [|exact N]. rewrite Hdb. apply delete_batch_keeps_index, Ix. }
    assert (E : (deviceNameExists conn' name).1.2 = false /\
                (deviceNameExists conn' name).2 = None).
    { unfold deviceNameExists, objectNameExists.
      rewrite (Do_idle conn' (HEXISTS DeviceCollectionName name) Tn F eq_refl).
      unfold name_absent in A. simpl.
      destruct (db conn' !! DeviceCollectionName) as [[b|z|h]|]; try discriminate A;
        [|split; reflexivity].
      apply bool_decide_eq_true in A. rewrite A. split; reflexivity. }
    destruct E as [E1 E2]. split; [exact E1|]. split; [exact E2|].
    apply (deviceByName_idle conn' name Tn); assumption.
Qed.

End DeleteThenLookup.

(** [d1] deleted by id, then looked for. *)
Lemma delete_then_lookup_finds_nothing_witness :
  txn Demo.conn1 = None /\
  @deleteDeviceById Demo.codec Demo.conn1 "d1" = (Samples.conn_deleted, None) /\
  Id (@deviceById Demo.codec Demo.conn1 "d1").1.2 = "d1" /\
  no_fault 1 Samples.conn_deleted = true /\
  (deviceIdExists Samples.conn_deleted "d1").1.2 = false /\
  Kind <$> (@deviceById Demo.codec Samples.conn_deleted "d1").2 = Some NotFound.
Proof.
  assert (T : txn Demo.conn1 = None) by (vm_compute; reflexivity).
  assert (H : @deleteDeviceById Demo.codec Demo.conn1 "d1" = (Samples.conn_deleted, None))
    by (vm_compute; reflexivity).
  assert (S : Id (@deviceById Demo.codec Demo.conn1 "d1").1.2 = "d1")
    by (vm_compute; reflexivity).
  assert (F : no_fault 1 Samples.conn_deleted = true) by (vm_compute; reflexivity).
  repeat (split; [assumption|]).
  destruct (proj1 (@delete_then_lookup_finds_nothing Demo.codec Demo.conn1 "d1" "therm-1" T)
              Samples.conn_deleted H S F) as (A & _ & B).
  split; [exact A | exact B].
Defined.

(** ** What the commands of a create do *)

(** A command changes nothing but the value at its key. *)
Lemma apply_frame (m : gmap string RVal) (c : Cmd) (k : string) :
  cmd_key c <> Some k -> (apply_cmd m c).1 !! k = m !! k.
Proof.
  intros Ne.
  assert (N : forall key, cmd_key c = Some key -> key <> k) by (intros key E; congruence).
  destruct c; simpl in *; try reflexivity;
    try (specialize (N key eq_refl));
    try (destruct (m !! key) as [[b0|z0|h0]|]; simpl; try reflexivity);
    rewrite ?lookup_insert_ne, ?lookup_delete_ne by exact N; try reflexivity.
  - destruct (zset_remove member z0); simpl;
      rewrite ?lookup_insert_ne, ?lookup_delete_ne by exact N; reflexivity.
  - destruct (bool_decide (delete field h0 = ∅)); simpl;
      rewrite ?lookup_insert_ne, ?lookup_delete_ne by exact N; reflexivity.
Qed.

(** The commands of the batch of a create, one by one. *)
Lemma create_batch_cases (d : Device) (b : bytes) (c : Cmd) :
  In c (create_batch d b) ->
  let storedKey := deviceStoredKey (Id d) in
  c = SET storedKey b \/
  c = HSET DeviceCollectionName (Name d) storedKey \/
  exists key score,
    c = ZADD key score storedKey /\
    (key = DeviceCollection \/
     key = CreateKey [DeviceCollectionServiceName; ServiceName d] \/
     key = CreateKey [DeviceCollectionProfileName; ProfileName d] \/
     exists label, In label (Labels d) /\ key = CreateKey [DeviceCollectionLabel; label]).
Proof.
  unfold create_batch. intros I. apply in_app_or in I as [I|I].
  - simpl in I. destruct I as [<-|[<-|[<-|[<-|[<-|[]]]]]]; eauto 10.
  - apply in_map_iff in I as (label & <- & I). right; right. eauto 10.
Qed.

(** No bucket key is the key of the name index. *)
Lemma bucket_key_not_index (d : Device) (key : string) :
  key = DeviceCollection \/
  key = CreateKey [DeviceCollectionServiceName; ServiceName d] \/
  key = CreateKey [DeviceCollectionProfileName; ProfileName d] \/
  (exists label, In label (Labels d) /\ key = CreateKey [DeviceCollectionLabel; label]) ->
  key <> DeviceCollectionName.
Proof.
  intros [->|[->|[->|(label & _ & ->)]]] H; cbv in H; discriminate H.
Qed.

Lemma create_batch_names (m : gmap string RVal) (d : Device) (b : bytes) :
  is_index m = true ->
  deviceStoredKey (Id d) <> DeviceCollectionName ->
  name_lookup (apply_all m (create_batch d b)).1 (Name d) = Some (deviceStoredKey (Id d)).
Proof.
  intros Ix Ne.
  apply (batch_establishes (fun m0 => is_index m0 = true)
           (fun m0 => name_lookup m0 (Name d) = Some (deviceStoredKey (Id d)))
           (HSET DeviceCollectionName (Name d) (deviceStoredKey (Id d)))
           (create_batch d b)); [| | | | exact Ix].
  - intros m0 c I Q. unfold is_index in *.
    destruct (create_batch_cases d b c I) as [->|[->|(key & score & -> & K)]].
    + rewrite apply_frame by (simpl; congruence). exact Q.
    + simpl. destruct (m0 !! DeviceCollectionName) as [[b0|z0|h0]|];
        try discriminate Q; simpl; rewrite ?lookup_insert_eq; auto.
    + rewrite apply_frame; [exact Q|]. simpl.
      pose proof (bucket_key_not_index d key K). congruence.
  - intros m0 Q. unfold is_index, name_lookup in *. simpl.
    destruct (m0 !! DeviceCollectionName) as [[b0|z0|h0]|]; try discriminate Q; simpl;
      rewrite lookup_insert_eq.
    + apply lookup_insert_eq.
    + apply lookup_singleton_eq.
  - intros m0 c I Q P. unfold is_index, name_lookup in *.
    destruct (create_batch_cases d b c I) as [->|[->|(key & score & -> & K)]].
    + rewrite apply_frame by (simpl; congruence). exact P.
    + simpl. destruct (m0 !! DeviceCollectionName) as [[b0|z0|h0]|]; try discriminate Q;
        simpl; rewrite lookup_insert_eq; [apply lookup_insert_eq | apply lookup_singleton_eq].
    + rewrite apply_frame; [exact P|]. simpl.
      pose proof (bucket_key_not_index d key K). congruence.
  - unfold create_batch. apply in_or_app. left. simpl. auto.
Qed.

Lemma create_batch_buckets (m : gmap string RVal) (d : Device) (b : bytes)
    (key : string) (score : Z) :
  is_bucket m key = true ->
  deviceStoredKey (Id d) <> key ->
  key <> DeviceCollectionName ->
  In (ZADD key score (deviceStoredKey (Id d))) (create_batch d b) ->
  in_bucket (apply_all m (create_batch d b)).1 key (deviceStoredKey (Id d)) = true.
Proof.
  intros B Ne Nx I.
  apply (batch_establishes (fun m0 => is_bucket m0 key = true)
           (fun m0 => in_bucket m0 key (deviceStoredKey (Id d)) = true)
           (ZADD key score (deviceStoredKey (Id d)))
           (create_batch d b)); [| | | exact I | exact B].
  - intros m0 c Ic Q. unfold is_bucket in *.
    destruct (create_batch_cases d b c Ic) as [->|[->|(key' & score' & -> & _)]].
    + rewrite apply_frame by (simpl; congruence). exact Q.
    + rewrite apply_frame by (simpl; congruence). exact Q.
    + destruct (decide (key' = key)) as [->|Nk].
      * simpl. destruct (m0 !! key) as [[b0|z0|h0]|]; try discriminate Q; simpl;
          rewrite lookup_insert_eq; reflexivity.
      * rewrite apply_frame by (simpl; congruence). exact Q.
  - intros m0 Q. unfold is_bucket, in_bucket in *. simpl.
    destruct (m0 !! key) as [[b0|z0|h0]|]; try discriminate Q; simpl;
      rewrite lookup_insert_eq.
    + apply zset_mem_add_same.
    + unfold zset_mem. simpl. rewrite String.eqb_refl. reflexivity.
  - intros m0 c Ic Q P. unfold in_bucket in *.
    destruct (create_batch_cases d b c Ic) as [->|[->|(key' & score' & -> & _)]].
    + rewrite apply_frame by (simpl; congruence). exact P.
    + rewrite apply_frame by (simpl; congruence). exact P.
    + destruct (decide (key' = key)) as [->|Nk].
      * simpl. destruct (m0 !! key) as [[b0|z0|h0]|]; try discriminate P; simpl.
        rewrite lookup_insert_eq. apply zset_mem_add_other, P.
      * rewrite apply_frame by (simpl; congruence). exact P.
Qed.

Section CreateIndexes.
Context {codec : JSON}.

Lemma deviceNameExists_index (conn conn' : Conn) (name : string) (b : bool) :
  deviceNameExists conn name = (conn', b, None) -> is_index (db conn) = true.
Proof.
  unfold deviceNameExists, objectNameExists, is_index.
  destruct (no_fault 1 conn) eqn:F.
  - destruct (txn conn) as [q|] eqn:T.
    + rewrite (Do_queued conn q (HEXISTS DeviceCollectionName name) T F eq_refl).
      simpl. discriminate.
    + rewrite (Do_idle conn (HEXISTS DeviceCollectionName name) T F eq_refl). simpl.
      destruct (db conn !! DeviceCollectionName) as [[b0|z|h]|]; simpl;
        try discriminate; reflexivity.
  - rewrite (Do_fault conn (HEXISTS DeviceCollectionName name) F). simpl. discriminate.
Qed.

Lemma addDevice_success_index (conn conn' : Conn) (ts : Z) (d d' : Device) :
  addDevice conn ts d = (conn', d', None) -> is_index (db conn) = true.
Proof.
  intros H.
  destruct (addDevice_checks conn ts d)
    as [(c1 & c2 & H1 & H2) | [(e & He & _) | (c1 & e & _ & He & _)]];
    try (rewrite He in H; discriminate H).
  destruct (deviceIdExists_ok _ _ _ _ H1) as (_ & _ & _ & Hc1).
  pose proof (deviceNameExists_index _ _ _ _ H2) as Ix. rewrite Hc1 in Ix. exact Ix.
Qed.

(** X6.  After a successful create of a record that the key space can
    index (the keys of its buckets are free or hold ordered sets, and its
    stored key is none of the index keys), the record is in every index:
    the primary object is its serialization, the name index maps its
    name to its stored key, and its stored key is a member of the id
    index, of its service bucket, of its profile bucket and of the bucket
    of each of its labels. *)
Theorem addDevice_indexes_the_record (conn conn' : Conn) (ts : Z) (d d' : Device) :
  addDevice conn ts d = (conn', d', None) ->
  indexable (db conn) d = true ->
  let storedKey := deviceStoredKey (Id d) in
  (exists b, json_Marshal d' = Ok b /\ db conn' !! storedKey = Some (VString b)) /\
  name_lookup (db conn') (Name d) = Some storedKey /\
  in_bucket (db conn') DeviceCollection storedKey = true /\
  in_bucket (db conn') (CreateKey [DeviceCollectionServiceName; ServiceName d]) storedKey
  = true /\
  in_bucket (db conn') (CreateKey [DeviceCollectionProfileName; ProfileName d]) storedKey
  = true /\
  (forall label, In label (Labels d) ->
     in_bucket (db conn') (CreateKey [DeviceCollectionLabel; label]) storedKey = true).
Proof.
  intros H X storedKey.
  pose proof (addDevice_success_index conn conn' ts d d' H) as Ix.
  destruct (addDevice_success conn conn' ts d d' H) as (b & Hd & M & _ & Hdb & _).
  assert (Ei : Id d' = Id d) by (subst d'; apply stamped_Id).
  assert (En : Name d' = Name d) by (subst d'; apply stamped_Name).
  assert (Es : ServiceName d' = ServiceName d) by (subst d'; apply stamped_ServiceName).
  assert (Ep : ProfileName d' = ProfileName d) by (subst d'; apply stamped_ProfileName).
  assert (El : Labels d' = Labels d) by (subst d'; apply stamped_Labels).
  unfold indexable in X. apply andb_true_iff in X as [XB XN].
  rewrite forallb_forall in XB, XN.
  assert (NE : forall key,
             In key (DeviceCollectionName :: DeviceCollection
                     :: CreateKey [DeviceCollectionServiceName; ServiceName d]
                     :: CreateKey [DeviceCollectionProfileName; ProfileName d]
                     :: List.map (fun label => CreateKey [DeviceCollectionLabel; label])
                          (Labels d)) ->
             deviceStoredKey (Id d) <> key).
  { intros key I E. specialize (XN key I). apply negb_true_iff in XN.
    apply String.eqb_neq in XN. apply XN. exact E. }
  assert (Bk : forall key score,
             In key (DeviceCollection
                     :: CreateKey [DeviceCollectionServiceName; ServiceName d]
                     :: CreateKey [DeviceCollectionProfileName; ProfileName d]
                     :: List.map (fun label => CreateKey [DeviceCollectionLabel; label])
                          (Labels d)) ->
             key <> DeviceCollectionName ->
             In (ZADD key score (deviceStoredKey (Id d'))) (create_batch d' b) ->
             in_bucket (db conn') key storedKey = true).
  { intros key score I Nx Ic. rewrite Hdb. subst storedKey. rewrite <- Ei.
    apply (create_batch_buckets (db conn) d' b key score); auto.
    - rewrite Ei. apply NE. right. exact I. }
  split; [|split; [|split; [|split; [|split]]]].
  - exists b. split; [exact M|]. rewrite Hdb. subst storedKey. rewrite <- Ei.
    apply create_batch_stores.
  - rewrite Hdb. subst storedKey. rewrite <- Ei, <- En. apply create_batch_names; [exact Ix|].
    rewrite Ei. apply NE. left. reflexivity.
  - apply (Bk DeviceCollection 0).
    + left. reflexivity.
    + intros E. cbv in E. discriminate E.
    + unfold create_batch. apply in_or_app. left. simpl. auto.
  - apply (Bk _ (Modified d')).
    + right; left. reflexivity.
    + intros E. cbv in E. discriminate E.
    + unfold create_batch. apply in_or_app. left. rewrite Es. simpl. auto 10.
  - apply (Bk _ (Modified d')).
    + right; right; left. reflexivity.
    + intros E. cbv in E. discriminate E.
    + unfold create_batch. apply in_or_app. left. rewrite Ep. simpl. auto 10.
  - intros label I. apply (Bk _ (Modified d')).
    + right; right; right.
      apply (in_map (fun l => CreateKey [DeviceCollectionLabel; l])). exact I.
    + intros E. cbv in E. discriminate E.
    + unfold create_batch. apply in_or_app. right. rewrite El.
      apply (in_map (fun l => ZADD (CreateKey [DeviceCollectionLabel; l]) (Modified d')
                                (deviceStoredKey (Id d')))).
      exact I.
Qed.

End CreateIndexes.

(** The create of [d1] on the empty server. *)
Lemma addDevice_indexes_the_record_witness :
  @addDevice Demo.codec Demo.conn0 1000 Demo.d1 = (Demo.conn1, stamped Demo.d1 1000, None) /\
  indexable (db Demo.conn0) Demo.d1 = true /\
  name_lookup (db Demo.conn1) "therm-1" = Some "md|dv:d1" /\
  in_bucket (db Demo.conn1) "md|dv:service:name:svc1" "md|dv:d1" = true /\
  in_bucket (db Demo.conn1) "md|dv:label:floor1" "md|dv:d1" = true.
Proof.
  assert (H : @addDevice Demo.codec Demo.conn0 1000 Demo.d1
              = (Demo.conn1, stamped Demo.d1 1000, None)) by (vm_compute; reflexivity).
  assert (X : indexable (db Demo.conn0) Demo.d1 = true) by (vm_compute; reflexivity).
  repeat (split; [assumption|]).
  destruct (@addDevice_indexes_the_record Demo.codec _ _ _ _ _ H X)
    as (_ & N & _ & S & _ & L).
  split; [exact N|]. split; [exact S|]. apply (L "floor1"). simpl. auto.
Defined.

(** ** Sequences of operations *)

Lemma stored_key_is_index_key (id : string) :
  deviceStoredKey id = DeviceCollectionName -> id = "name".
Proof. intros H. cbv in H. injection H as H. exact H. Qed.

Lemma HGET_name_lookup (m : gmap string RVal) (name k : string) :
  name_lookup m name = Some k ->
  apply_cmd m (HGET DeviceCollectionName name) = (m, RBulk k).
Proof.
  unfold name_lookup, apply_cmd.
  destruct (m !! DeviceCollectionName) as [[b0|z0|h0]|]; try discriminate.
  intros H. unfold bytes. rewrite H. reflexivity.
Qed.

Lemma GET_string (m : gmap string RVal) (k : string) (b : bytes) :
  m !! k = Some (VString b) -> apply_cmd m (GET k) = (m, RBulk b).
Proof. intros L. simpl. rewrite L. reflexivity. Qed.

Section Sequences.
Context {codec : JSON}.

(** After a successful create the connection is idle, the primary object
    of the record is its serialization, and, unless the stored key is the
    key of the name index, the name index maps the name to the stored
    key. *)
Lemma addDevice_success_store (conn conn' : Conn) (ts : Z) (d d' : Device) :
  addDevice conn ts d = (conn', d', None) ->
  txn conn' = None /\
  (exists b, json_Marshal d' = Ok b /\
             db conn' !! deviceStoredKey (Id d) = Some (VString b)) /\
  (Id d <> "name" -> name_lookup (db conn') (Name d) = Some (deviceStoredKey (Id d))).
Proof.
  intros H.
  pose proof (addDevice_success_index conn conn' ts d d' H) as Ix.
  destruct (addDevice_success conn conn' ts d d' H) as (b & Hd & M & T & Hdb & _).
  assert (Ei : Id d' = Id d) by (subst d'; apply stamped_Id).
  assert (En : Name d' = Name d) by (subst d'; apply stamped_Name).
  split; [exact T|]. split.
  - exists b. split; [exact M|]. rewrite Hdb, <- Ei. apply create_batch_stores.
  - intros Ne. rewrite Hdb, <- Ei, <- En. apply create_batch_names; [exact Ix|].
    rewrite Ei. intros E. apply Ne, stored_key_is_index_key, E.
Qed.

Lemma no_fault_2 (c : Conn) :
  no_fault 2 c = true ->
  no_fault 1 c = true /\
  no_fault 1 (mkConn (db c) None (tail (faults c)) (trace c)) = true.
Proof.
  unfold no_fault. simpl. destruct (faults c) as [|[] [|[] fs]]; simpl; auto; discriminate.
Qed.

(** X7.  After a successful create of a record whose id is not the word
    ["name"], on a record that the codec decodes back from its own
    encoding and with no I/O failure on the next two round trips,
    [deviceByName] at the name of the record returns without error the
    record that the create returned. *)
Theorem addDevice_then_deviceByName (conn conn' : Conn) (ts : Z) (d d' : Device) :
  addDevice conn ts d = (conn', d', None) ->
  Id d <> "name" ->
  (forall b, json_Marshal d' = Ok b -> json_Unmarshal b = Ok d') ->
  no_fault 2 conn' = true ->
  (deviceByName conn' (Name d)).1.2 = d' /\
  (deviceByName conn' (Name d)).2 = None.
Proof.
  intros H Ne RT F.
  destruct (addDevice_success_store conn conn' ts d d' H) as (T & (b & M & L) & N).
  specialize (N Ne). destruct (no_fault_2 conn' F) as [F1 F2].
  unfold deviceByName, getObjectByHash.
  rewrite (Do_idle conn' (HGET DeviceCollectionName (Name d)) T F1 eq_refl).
  rewrite (HGET_name_lookup _ _ _ N). cbn [fst snd redis_String redis_Bytes].
  unfold getObjectById.
  rewrite Do_idle; [| reflexivity | exact F2 | reflexivity].
  cbn [db]. rewrite (GET_string _ _ _ L). cbn [fst snd redis_Bytes].
  rewrite (RT b M). split; reflexivity.
Qed.

(** X8.  After a successful create, a second create is refused with the
    kind DuplicateName, returns its record as given and leaves the key
    space as it is, whenever its record has the id of the first (the
    message names the id), or a free id and the name of the first (the
    message names the name; the first id is not the word ["name"]). *)
Theorem second_create_is_refused (conn conn' : Conn) (ts ts2 : Z) (d d' d2 : Device) :
  addDevice conn ts d = (conn', d', None) ->
  (Id d2 = Id d -> no_fault 1 conn' = true ->
   (addDevice conn' ts2 d2).2
   = Some (NewCommonEdgeX KindDuplicateName
             ("device id " ++ Id d2 ++ " already exists") CauseNil) /\
   (addDevice conn' ts2 d2).1.2 = d2 /\
   db (addDevice conn' ts2 d2).1.1 = db conn') /\
  (Name d2 = Name d -> Id d <> "name" -> id_exists (db conn') (Id d2) = false ->
   no_fault 2 conn' = true ->
   (addDevice conn' ts2 d2).2
   = Some (NewCommonEdgeX KindDuplicateName
             ("device name " ++ Name d2 ++ " already exists") CauseNil) /\
   (addDevice conn' ts2 d2).1.2 = d2 /\
   db (addDevice conn' ts2 d2).1.1 = db conn').
Proof.
  intros H.
  destruct (addDevice_success_store conn conn' ts d d' H) as (T & (b & M & L) & N).
  split.
  - intros Ei F. unfold addDevice. rewrite (deviceIdExists_idle conn' (Id d2) T F).
    unfold id_exists. rewrite Ei, L. cbn. repeat split; reflexivity.
  - intros En Ne I F. specialize (N Ne). destruct (no_fault_2 conn' F) as [F1 F2].
    unfold addDevice. rewrite (deviceIdExists_idle conn' (Id d2) T F1), I.
    rewrite deviceNameExists_idle_taken; [cbn; repeat split; reflexivity | reflexivity | | ].
    + exact F2.
    + cbn [db]. rewrite En. unfold name_exists. unfold name_lookup in N.
      destruct (db conn' !! DeviceCollectionName) as [[b0|z0|h0]|]; try discriminate N.
      rewrite N. reflexivity.
Qed.

End Sequences.

(** [d1] read back by its name after its create. *)
Lemma addDevice_then_deviceByName_witness :
  @addDevice Demo.codec Demo.conn0 1000 Demo.d1 = (Demo.conn1, stamped Demo.d1 1000, None) /\
  Id Demo.d1 <> "name" /\
  no_fault 2 Demo.conn1 = true /\
  (@deviceByName Demo.codec Demo.conn1 "therm-1").1.2 = stamped Demo.d1 1000 /\
  (@deviceByName Demo.codec Demo.conn1 "therm-1").2 = None.
Proof.
  assert (H : @addDevice Demo.codec Demo.conn0 1000 Demo.d1
              = (Demo.conn1, stamped Demo.d1 1000, None)) by (vm_compute; reflexivity).
  assert (Ne : Id Demo.d1 <> "name") by discriminate.
  assert (F : no_fault 2 Demo.conn1 = true) by (vm_compute; reflexivity).
  assert (RT : forall b, @json_Marshal Demo.codec (stamped Demo.d1 1000) = Ok b ->
                         @json_Unmarshal Demo.codec b = Ok (stamped Demo.d1 1000)).
  { intros b M. vm_compute in M. inversion M. subst b. vm_compute. reflexivity. }
  repeat (split; [assumption|]).
  exact (@addDevice_then_deviceByName Demo.codec _ _ _ _ _ H Ne RT F).
Defined.

(** After [d1], a record with its id and a record with its name. *)
Lemma second_create_is_refused_witness :
  @addDevice Demo.codec Demo.conn0 1000 Demo.d1 = (Demo.conn1, stamped Demo.d1 1000, None) /\
  Kind <$> (@addDevice Demo.codec Demo.conn1 2000 Demo.d1_again).2 = Some DuplicateName /\
  db (@addDevice Demo.codec Demo.conn1 2000 Demo.d1_again).1.1 = db Demo.conn1 /\
  Kind <$> (@addDevice Demo.codec Demo.conn1 2000 Demo.d2).2 = Some DuplicateName /\
  db (@addDevice Demo.codec Demo.conn1 2000 Demo.d2).1.1 = db Demo.conn1.
Proof.
  assert (H : @addDevice Demo.codec Demo.conn0 1000 Demo.d1
              = (Demo.conn1, stamped Demo.d1 1000, None)) by (vm_compute; reflexivity).
  split; [exact H|].
  destruct (@second_create_is_refused Demo.codec _ _ _ 2000 _ _ Demo.d1_again H) as [A _].
  destruct (@second_create_is_refused Demo.codec _ _ _ 2000 _ _ Demo.d2 H) as [_ B].
  destruct (A eq_refl ltac:(vm_compute; reflexivity)) as (A1 & _ & A3).
  destruct (B eq_refl ltac:(discriminate) ltac:(vm_compute; reflexivity)
              ltac:(vm_compute; reflexivity)) as (B1 & _ & B3).
  rewrite A1, B1. repeat split; assumption.
Defined.

(** ** I/O failures during a create *)

Section CreateFailures.
Context {codec : JSON}.

Lemma deviceNameExists_idle (conn : Conn) (name : string) :
  txn conn = None -> no_fault 1 conn = true -> is_index (db conn) = true ->
  deviceNameExists conn name =
    (mkConn (db conn) None (tail (faults conn))
       (trace conn ++ [HEXISTS DeviceCollectionName name])%list,
     name_exists (db conn) name, None).
Proof.
  intros T F Ix. unfold deviceNameExists, objectNameExists, name_exists.
  rewrite (Do_idle conn (HEXISTS DeviceCollectionName name) T F eq_refl).
  unfold is_index in Ix. simpl.
  destruct (db conn !! DeviceCollectionName) as [[b0|z|h]|]; try discriminate Ix;
    [|reflexivity].
  simpl. destruct (bool_decide (is_Some (h !! name))); reflexivity.
Qed.

(** X9.  An I/O failure on any of the three round trips of a create
    makes it fail with the kind DatabaseError and leaves the key space as
    it was.  When the failure is on one of the two existence reads the
    record is returned as given; when it is on the commit (the id and
    the name being free and the record serializable) the whole batch has
    been sent, none of it is applied, and the record is returned with
    its timestamps set. *)
Theorem addDevice_io_failure (conn : Conn) (ts : Z) (d : Device) (fs : list bool) :
  txn conn = None ->
  (faults conn = true :: fs ->
   Kind <$> (addDevice conn ts d).2 = Some DatabaseError /\
   (addDevice conn ts d).1.2 = d /\
   db (addDevice conn ts d).1.1 = db conn) /\
  (faults conn = false :: true :: fs ->
   id_exists (db conn) (Id d) = false ->
   Kind <$> (addDevice conn ts d).2 = Some DatabaseError /\
   (addDevice conn ts d).1.2 = d /\
   db (addDevice conn ts d).1.1 = db conn) /\
  (faults conn = false :: false :: true :: fs ->
   id_exists (db conn) (Id d) = false ->
   is_index (db conn) = true ->
   name_exists (db conn) (Name d) = false ->
   forall b, json_Marshal (stamped d ts) = Ok b ->
   addDevice conn ts d =
     (mkConn (db conn) None fs
        (trace conn
         ++ [EXISTS (deviceStoredKey (Id d)); HEXISTS DeviceCollectionName (Name d); MULTI]
         ++ create_batch (stamped d ts) b ++ [EXEC])%list,
      stamped d ts,
      Some (NewCommonEdgeX KindDatabaseError "device creation failed"
              (CauseGo (ErrText "i/o failure"))))).
Proof.
  intros T. split; [|split].
  - intros Fl. unfold addDevice, deviceIdExists, objectIdExists.
    rewrite (Do_fault conn (EXISTS (deviceStoredKey (Id d))))
      by (unfold no_fault; rewrite Fl; reflexivity).
    simpl. repeat split; reflexivity.
  - intros Fl I. unfold addDevice.
    rewrite (deviceIdExists_idle conn (Id d) T)
      by (unfold no_fault; rewrite Fl; reflexivity).
    rewrite I. unfold deviceNameExists, objectNameExists.
    rewrite Do_fault by (unfold no_fault; simpl; rewrite Fl; reflexivity).
    simpl. repeat split; reflexivity.
  - intros Fl I Ix N b M.
    assert (H1 : deviceIdExists conn (Id d)
                 = (mkConn (db conn) None (tail (faults conn))
                      (trace conn ++ [EXISTS (deviceStoredKey (Id d))])%list, false, None)).
    { rewrite (deviceIdExists_idle conn (Id d) T)
        by (unfold no_fault; rewrite Fl; reflexivity).
      rewrite I. reflexivity. }
    assert (H2 : deviceNameExists
                   (mkConn (db conn) None (tail (faults conn))
                      (trace conn ++ [EXISTS (deviceStoredKey (Id d))])%list) (Name d)
                 = (mkConn (db conn) None (tail (tail (faults conn)))
                      ((trace conn ++ [EXISTS (deviceStoredKey (Id d))])
                       ++ [HEXISTS DeviceCollectionName (Name d)])%list, false, None)).
    { rewrite deviceNameExists_idle; [| reflexivity | | exact Ix].
      - cbn [db faults trace]. rewrite N. reflexivity.
      - unfold no_fault. simpl. rewrite Fl. reflexivity. }
    rewrite (addDevice_after_checks conn _ _ ts d H1 H2). cbv zeta. rewrite M.
    cbn [faults db trace]. rewrite Fl. cbn [tail].
    rewrite <- !app_assoc. reflexivity.
Qed.

End CreateFailures.

(** The create of [d1] on connections that fail at the first, the second
    and the third round trip. *)
Lemma addDevice_io_failure_witness :
  Kind <$> (@addDevice Demo.codec Samples.conn_fails_1st 1000 Demo.d1).2 = Some DatabaseError /\
  Kind <$> (@addDevice Demo.codec Samples.conn_fails_2nd 1000 Demo.d1).2 = Some DatabaseError /\
  Kind <$> (@addDevice Demo.codec Samples.conn_fails_3rd 1000 Demo.d1).2 = Some DatabaseError /\
  db (@addDevice Demo.codec Samples.conn_fails_3rd 1000 Demo.d1).1.1 = ∅ /\
  (@addDevice Demo.codec Samples.conn_fails_3rd 1000 Demo.d1).1.2 = stamped Demo.d1 1000.
Proof.
  destruct (@addDevice_io_failure Demo.codec Samples.conn_fails_1st 1000 Demo.d1 [] eq_refl)
    as ((A & _) & _); [reflexivity|].
  destruct (@addDevice_io_failure Demo.codec Samples.conn_fails_2nd 1000 Demo.d1 [] eq_refl)
    as (_ & B & _).
  destruct (B eq_refl ltac:(vm_compute; reflexivity)) as (B1 & _).
  destruct (@addDevice_io_failure Demo.codec Samples.conn_fails_3rd 1000 Demo.d1 [] eq_refl)
    as (_ & _ & C).
  rewrite (C eq_refl ltac:(vm_compute; reflexivity) ltac:(vm_compute; reflexivity)
             ltac:(vm_compute; reflexivity)
             "d1|therm-1|svc1|prof1|floor1,temp|0x3e8|0x3e8" ltac:(vm_compute; reflexivity)).
  repeat split; assumption.
Defined.

(** ** An id that is an index key *)

Section IndexKeyAsId.
Context {codec : JSON}.

(** X10.  The stored key of the id ["name"] is the key of the name
    index.  A create of a record with that id, which succeeds while no
    name index exists yet, therefore puts the serialized record where
    the name index belongs: afterwards no name is indexed, not even its
    own, and on the same connection every name check, every lookup by
    name and every create of a record with a free id fails with the kind
    DatabaseError. *)
Theorem addDevice_with_id_name_breaks_the_name_index
    (conn conn' : Conn) (ts : Z) (d d' : Device) :
  addDevice conn ts d = (conn', d', None) ->
  Id d = "name" ->
  is_index (db conn') = false /\
  (forall name, name_exists (db conn') name = false) /\
  (forall name, no_fault 1 conn' = true ->
     Kind <$> (deviceNameExists conn' name).2 = Some DatabaseError /\
     Kind <$> (deviceByName conn' name).2 = Some DatabaseError) /\
  (forall ts2 d2, no_fault 2 conn' = true -> id_exists (db conn') (Id d2) = false ->
     Kind <$> (addDevice conn' ts2 d2).2 = Some DatabaseError /\
     db (addDevice conn' ts2 d2).1.1 = db conn').
Proof.
  intros H E.
  destruct (addDevice_success_store conn conn' ts d d' H) as (T & (b & _ & L) & _).
  rewrite E in L. change (deviceStoredKey "name") with DeviceCollectionName in L.
  assert (W : forall c name, txn c = None -> no_fault 1 c = true -> db c = db conn' ->
              exists e, deviceNameExists c name
                        = (mkConn (db c) None (tail (faults c))
                             (trace c ++ [HEXISTS DeviceCollectionName name])%list,
                           false, Some e) /\ Kind e = DatabaseError).
  { intros c name Tc Fc Dc. unfold deviceNameExists, objectNameExists.
    rewrite (Do_idle c (HEXISTS DeviceCollectionName name) Tc Fc eq_refl).
    unfold apply_cmd. rewrite Dc, L. cbn. eexists. split; reflexivity. }
  split; [unfold is_index; rewrite L; reflexivity|].
  split; [intros name; unfold name_exists; rewrite L; reflexivity|].
  split.
  - intros name F. split.
    + destruct (W conn' name T F eq_refl) as (e & -> & K). cbn. rewrite K. reflexivity.
    + unfold deviceByName, getObjectByHash.
      rewrite (Do_idle conn' (HGET DeviceCollectionName name) T F eq_refl).
      unfold apply_cmd. rewrite L. reflexivity.
  - intros ts2 d2 F I. destruct (no_fault_2 conn' F) as [F1 F2].
    unfold addDevice. rewrite (deviceIdExists_idle conn' (Id d2) T F1), I.
    destruct (W (mkConn (db conn') None (tail (faults conn'))
                   (trace conn' ++ [EXISTS (deviceStoredKey (Id d2))])%list)
                (Name d2) eq_refl F2 eq_refl) as (e & -> & K).
    cbn. rewrite K. split; reflexivity.
Qed.

End IndexKeyAsId.

(** A record whose id is ["name"], created on the empty server, and then
    looked up by its own name. *)
Lemma addDevice_with_id_name_breaks_the_name_index_witness :
  @addDevice Demo.codec Demo.conn0 3000 Samples.d_name
  = (Samples.conn_name, stamped Samples.d_name 3000, None) /\
  name_exists (db Samples.conn_name) "therm-9" = false /\
  Kind <$> (@deviceByName Demo.codec Samples.conn_name "therm-9").2 = Some DatabaseError /\
  Kind <$> (@addDevice Demo.codec Samples.conn_name 4000 Demo.d1).2 = Some DatabaseError.
Proof.
  assert (H : @addDevice Demo.codec Demo.conn0 3000 Samples.d_name
              = (Samples.conn_name, stamped Samples.d_name 3000, None))
    by (vm_compute; reflexivity).
  split; [exact H|].
  destruct (@addDevice_with_id_name_breaks_the_name_index Demo.codec _ _ _ _ _ H eq_refl)
    as (_ & N & B & C).
  split; [apply N|]. split.
  - apply B. vm_compute. reflexivity.
  - apply C; vm_compute; reflexivity.
Defined.

(** ** Keys *)

(** X11.  Distinct ids have distinct stored keys, and distinct service
    names, profile names and labels have distinct bucket keys.  The keys
    of the indexes are distinct from one another, but the stored key of
    an id is an index key exactly when the id is ["name"], or begins
    with ["service:name:"], ["profile:name:"] or ["label:"]. *)
Theorem keys_clash_only_through_the_id (a b id service profile label : string) :
  (deviceStoredKey a = deviceStoredKey b -> a = b) /\
  (CreateKey [DeviceCollectionServiceName; a] = CreateKey [DeviceCollectionServiceName; b]
   -> a = b) /\
  (CreateKey [DeviceCollectionProfileName; a] = CreateKey [DeviceCollectionProfileName; b]
   -> a = b) /\
  (CreateKey [DeviceCollectionLabel; a] = CreateKey [DeviceCollectionLabel; b] -> a = b) /\
  (DeviceCollection <> DeviceCollectionName /\
   DeviceCollection <> CreateKey [DeviceCollectionServiceName; service] /\
   DeviceCollection <> CreateKey [DeviceCollectionProfileName; profile] /\
   DeviceCollection <> CreateKey [DeviceCollectionLabel; label] /\
   DeviceCollectionName <> CreateKey [DeviceCollectionServiceName; service] /\
   DeviceCollectionName <> CreateKey [DeviceCollectionProfileName; profile] /\
   DeviceCollectionName <> CreateKey [DeviceCollectionLabel; label] /\
   CreateKey [DeviceCollectionServiceName; service]
   <> CreateKey [DeviceCollectionProfileName; profile] /\
   CreateKey [DeviceCollectionServiceName; service]
   <> CreateKey [DeviceCollectionLabel; label] /\
   CreateKey [DeviceCollectionProfileName; profile]
   <> CreateKey [DeviceCollectionLabel; label]) /\
  deviceStoredKey id <> DeviceCollection /\
  (deviceStoredKey id = DeviceCollectionName <-> id = "name") /\
  (deviceStoredKey id = CreateKey [DeviceCollectionServiceName; service]
   <-> id = "service:name:" ++ service) /\
  (deviceStoredKey id = CreateKey [DeviceCollectionProfileName; profile]
   <-> id = "profile:name:" ++ profile) /\
  (deviceStoredKey id = CreateKey [DeviceCollectionLabel; label]
   <-> id = "label:" ++ label).
Proof.
  repeat split; try (intros H; cbv in H; first [discriminate H | injection H as H; exact H]);
    try (intros ->; reflexivity).
Qed.

(** ** Pages *)

Lemma window_length (l : list string) (offset limit : Z) :
  length (window l offset limit)
  = if limit =? -1 then (length l - Z.to_nat offset)%nat
    else Nat.min (Z.to_nat limit) (length l - Z.to_nat offset)%nat.
Proof.
  unfold window. destruct (limit =? -1).
  - apply length_skipn.
  - rewrite length_firstn, length_skipn. reflexivity.
Qed.

Section Pages.
Context {codec : JSON}.

(** X12.  On an idle connection without I/O failure, for an offset
    [k >= 0] and a limit that is -1 or positive (with [k + limit - 1]
    below [2^63]), a query by service or by profile over a group of [N]
    stored keys whose entries all decode returns, without error, the
    decoded entries of the ranks [k], [k+1], ... of the descending
    listing: all [N - k] of them for the limit -1, and the first
    [min limit (N - k)] of them otherwise. *)
Theorem queries_return_the_page
    (conn : Conn) (offset limit : Z) (name : string) (ds : list Device) :
  txn conn = None -> no_fault 2 conn = true ->
  0 <= offset -> limit = -1 \/ (0 < limit /\ offset + limit - 1 < 2 ^ 63) ->
  let count (group : list string) : nat :=
    if limit =? -1 then (length group - Z.to_nat offset)%nat
    else Nat.min (Z.to_nat limit) (length group - Z.to_nat offset)%nat in
  (let key := CreateKey [DeviceCollectionServiceName; name] in
   is_bucket (db conn) key = true ->
   Forall2 (fun k d => json_Unmarshal (entry (db conn) k) = Ok d)
     (window (listing (db conn) key) offset limit) ds ->
   (devicesByServiceName conn offset limit name).1.2 = ds /\
   (devicesByServiceName conn offset limit name).2 = None /\
   length ds = count (listing (db conn) key)) /\
  (let key := CreateKey [DeviceCollectionProfileName; name] in
   is_bucket (db conn) key = true ->
   Forall2 (fun k d => json_Unmarshal (entry (db conn) k) = Ok d)
     (window (listing (db conn) key) offset limit) ds ->
   (devicesByProfileName conn offset limit name).1.2 = ds /\
   (devicesByProfileName conn offset limit name).2 = None /\
   length ds = count (listing (db conn) key)).
Proof.
  intros T F Hk Hm count.
  destruct (devicesBy_window conn offset limit name ds T F Hk Hm) as [S P].
  split; intros key B D.
  - destruct (S B D) as [R E]. split; [exact R|]. split; [exact E|].
    rewrite <- (Forall2_length _ _ _ D). apply window_length.
  - destruct (P B D) as [R E]. split; [exact R|]. split; [exact E|].
    rewrite <- (Forall2_length _ _ _ D). apply window_length.
Qed.

End Pages.

(** The first page of two records of the group of [svc1], which holds
    one. *)
Lemma queries_return_the_page_witness :
  txn Demo.conn1 = None /\ no_fault 2 Demo.conn1 = true /\
  (@devicesByServiceName Demo.codec Demo.conn1 0 2 "svc1").1.2 = [stamped Demo.d1 1000] /\
  (@devicesByServiceName Demo.codec Demo.conn1 0 2 "svc1").2 = None.
Proof.
  assert (T : txn Demo.conn1 = None) by (vm_compute; reflexivity).
  assert (F : no_fault 2 Demo.conn1 = true) by (vm_compute; reflexivity).
  repeat (split; [assumption|]).
  destruct (proj1 (@queries_return_the_page Demo.codec Demo.conn1 0 2 "svc1"
                     [stamped Demo.d1 1000] T F ltac:(lia)
                     ltac:(right; split; [lia | reflexivity]))
              ltac:(vm_compute; reflexivity)
              ltac:(vm_compute; repeat constructor)) as (R & E & _).
  split; [exact R | exact E].
Defined.

(** ** Create, then delete *)

Section CreateThenDelete.
Context {codec : JSON}.

(** X13.  After a successful create of [d], on a record that the codec
    decodes back from its own encoding and with no I/O failure on the
    next two round trips, [deleteDeviceById] at the id of [d] returns
    without error and leaves nothing of the record: no primary object,
    no entry of its name in the name index, and no membership of its
    stored key in the id index, in its service bucket, in its profile
    bucket or in the bucket of any of its labels. *)
Theorem addDevice_then_deleteDeviceById (conn conn' : Conn) (ts : Z) (d d' : Device) :
  addDevice conn ts d = (conn', d', None) ->
  (forall b, json_Marshal d' = Ok b -> json_Unmarshal b = Ok d') ->
  no_fault 2 conn' = true ->
  let storedKey := deviceStoredKey (Id d) in
  let after := db (deleteDeviceById conn' (Id d)).1 in
  (deleteDeviceById conn' (Id d)).2 = None /\
  after !! storedKey = None /\
  name_exists after (Name d) = false /\
  in_bucket after DeviceCollection storedKey = false /\
  in_bucket after (CreateKey [DeviceCollectionServiceName; ServiceName d]) storedKey = false /\
  in_bucket after (CreateKey [DeviceCollectionProfileName; ProfileName d]) storedKey = false /\
  (forall label, In label (Labels d) ->
     in_bucket after (CreateKey [DeviceCollectionLabel; label]) storedKey = false).
Proof.
  intros H RT F storedKey after. subst after storedKey.
  destruct (addDevice_success_store conn conn' ts d d' H) as (T & (b & M & L) & _).
  destruct (addDevice_success conn conn' ts d d' H) as (_ & Hd & _).
  destruct (no_fault_2 conn' F) as [F1 F2].
  assert (R : deviceById conn' (Id d)
              = (mkConn (db conn') None (tail (faults conn'))
                   (trace conn' ++ [GET (deviceStoredKey (Id d))])%list, d', None)).
  { unfold deviceById, getObjectById.
    rewrite (Do_idle conn' (GET (deviceStoredKey (Id d))) T F1 eq_refl).
    rewrite (GET_string _ _ _ L). cbn [fst snd redis_Bytes]. rewrite (RT b M). reflexivity. }
  unfold deleteDeviceById. rewrite R.
  rewrite delete_commit by reflexivity. cbv zeta. cbn [faults db trace].
  assert (Ei : Id d = Id d') by (subst d'; symmetry; apply stamped_Id).
  assert (En : Name d = Name d') by (subst d'; symmetry; apply stamped_Name).
  assert (Es : ServiceName d = ServiceName d') by (subst d'; symmetry; apply stamped_ServiceName).
  assert (Ep : ProfileName d = ProfileName d') by (subst d'; symmetry; apply stamped_ProfileName).
  assert (El : Labels d = Labels d') by (subst d'; symmetry; apply stamped_Labels).
  rewrite Ei, En, Es, Ep, El.
  unfold no_fault in F2. cbn [faults] in F2.
  destruct (tail (faults conn')) as [|[] fs']; try discriminate F2; cbn [fst snd db];
    (split; [reflexivity | apply delete_batch_result]).
Qed.

End CreateThenDelete.

(** [d1] created on the empty server and deleted again. *)
Lemma addDevice_then_deleteDeviceById_witness :
  @addDevice Demo.codec Demo.conn0 1000 Demo.d1 = (Demo.conn1, stamped Demo.d1 1000, None) /\
  no_fault 2 Demo.conn1 = true /\
  (@deleteDeviceById Demo.codec Demo.conn1 "d1").2 = None /\
  db (@deleteDeviceById Demo.codec Demo.conn1 "d1").1 !! "md|dv:d1" = None /\
  name_exists (db (@deleteDeviceById Demo.codec Demo.conn1 "d1").1) "therm-1" = false.
Proof.
  assert (H : @addDevice Demo.codec Demo.conn0 1000 Demo.d1
              = (Demo.conn1, stamped Demo.d1 1000, None)) by (vm_compute; reflexivity).
  assert (F : no_fault 2 Demo.conn1 = true) by (vm_compute; reflexivity).
  assert (RT : forall b, @json_Marshal Demo.codec (stamped Demo.d1 1000) = Ok b ->
                         @json_Unmarshal Demo.codec b = Ok (stamped Demo.d1 1000)).
  { intros b M. vm_compute in M. inversion M. subst b. vm_compute. reflexivity. }
  repeat (split; [assumption|]).
  destruct (@addDevice_then_deleteDeviceById Demo.codec _ _ _ _ _ H RT F) as (A & B & C & _).
  split; [exact A|]. split; [exact B | exact C].
Defined.

(** ** Log levels *)

(** X14.  [IsValidLogLevel] accepts the five levels TRACE, DEBUG, WARN,
    INFO and ERROR as they are spelled and nothing else: a valid level
    has four or five characters, all of them upper-case letters, so that
    no other spelling of a level (lower case, mixed case, padded) is
    valid. *)
Theorem IsValidLogLevel_exact (l : string) :
  (support_domain.IsValidLogLevel l = true <->
   In l [support_domain.TRACE; support_domain.DEBUG; support_domain.WARN;
         support_domain.INFO; support_domain.ERROR]) /\
  (support_domain.IsValidLogLevel l = true ->
   (4 <= String.length l <= 5)%nat /\
   Forall (fun c => (65 <= nat_of_ascii c <= 90)%nat) (list_ascii_of_string l)).
Proof.
  assert (I : support_domain.IsValidLogLevel l = true <->
              In l [support_domain.TRACE; support_domain.DEBUG; support_domain.WARN;
                    support_domain.INFO; support_domain.ERROR]).
  { unfold support_domain.IsValidLogLevel. rewrite !orb_true_iff, !String.eqb_eq. simpl.
    intuition congruence. }
  split; [exact I|]. intros V. apply I in V. simpl in V.
  destruct V as [<-|[<-|[<-|[<-|[<-|[]]]]]]; (split; [simpl; lia|]);
    repeat constructor; simpl; lia.
Qed.

(** The level INFO. *)
Lemma IsValidLogLevel_exact_witness :
  support_domain.IsValidLogLevel "INFO" = true /\
  (4 <= String.length "INFO" <= 5)%nat /\
  support_domain.IsValidLogLevel "info" = false.
Proof.
  split; [reflexivity|]. split.
  - exact (proj1 (proj2 (IsValidLogLevel_exact "INFO") eq_refl)).
  - reflexivity.
Defined.

(** ** What a mutation leaves alone *)

Lemma stored_key_injective (a b : string) :
  deviceStoredKey a = deviceStoredKey b -> a = b.
Proof. intros H. cbv in H. injection H as H. exact H. Qed.

Lemma removal_keeps_string (m : gmap string RVal) (c : Cmd) (k : string) (b : bytes) :
  removes_only c = true -> c <> DEL k ->
  m !! k = Some (VString b) -> (apply_cmd m c).1 !! k = Some (VString b).
Proof.
  intros R Nd L. destruct c as [| |?|?|k'|?|?|?|k' m'|?|?|?|k' f|?]; try discriminate R.
  - rewrite apply_frame; [exact L|]. simpl. intros E. apply Nd. congruence.
  - destruct (decide (k' = k)) as [->|Ne].
    + simpl. rewrite L. exact L.
    + rewrite apply_frame; [exact L|]. simpl. congruence.
  - destruct (decide (k' = k)) as [->|Ne].
    + simpl. rewrite L. exact L.
    + rewrite apply_frame; [exact L|]. simpl. congruence.
Qed.

Lemma delete_batch_keeps_string (device : Device) (k : string) (b : bytes) :
  k <> deviceStoredKey (Id device) ->
  forall m : gmap string RVal,
  m !! k = Some (VString b) ->
  (apply_all m (delete_batch device)).1 !! k = Some (VString b).
Proof.
  intros Ne.
  assert (G : forall l, (forall c, In c l -> In c (delete_batch device)) ->
              forall m0, m0 !! k = Some (VString b) ->
              (apply_all m0 l).1 !! k = Some (VString b)).
  { induction l as [|c l IH]; intros Sub m0 L; [exact L|].
    rewrite apply_all_cons. apply IH; [intros c' I; apply Sub; right; exact I|].
    assert (Ic : In c (delete_batch device)) by (apply Sub; left; reflexivity).
    apply removal_keeps_string; [eapply delete_batch_removes_only; exact Ic | | exact L].
    intros ->. unfold delete_batch in Ic. apply in_app_or in Ic as [Ic|Ic].
    - simpl in Ic. destruct Ic as [E|[E|[E|[E|[E|[]]]]]]; try discriminate E.
      injection E as E. apply Ne. symmetry. exact E.
    - apply in_map_iff in Ic as (label & E & _). discriminate E. }
  apply G. auto.
Qed.

Section Frame.
Context {codec : JSON}.

(** X15.  A successful create, and a delete whatever its outcome, leave
    the primary object of every other device as it is: the serialized
    record stored under another id is the same afterwards. *)
Theorem other_records_are_untouched
    (conn : Conn) (ts : Z) (d device : Device) (id' : string) (b' : bytes) :
  db conn !! deviceStoredKey id' = Some (VString b') ->
  (forall conn' d', addDevice conn ts d = (conn', d', None) -> id' <> Id d ->
     db conn' !! deviceStoredKey id' = Some (VString b')) /\
  (txn conn = None -> id' <> Id device ->
   db (deleteDevice conn device).1 !! deviceStoredKey id' = Some (VString b')).
Proof.
  intros L. split.
  - intros conn' d' H Ne.
    destruct (addDevice_success conn conn' ts d d' H) as (b & Hd & _ & _ & Hdb & _).
    assert (Ei : Id d' = Id d) by (subst d'; apply stamped_Id).
    rewrite Hdb. unfold create_batch. cbn [app]. rewrite apply_all_cons.
    apply apply_all_keeps_string.
    + repeat constructor. apply Forall_map. apply Forall_forall. intros; reflexivity.
    + rewrite apply_frame; [exact L|]. cbn [cmd_key]. rewrite Ei. intros E.
      apply Ne. symmetry. apply stored_key_injective. congruence.
  - intros T Ne. rewrite (delete_commit conn device T). cbv zeta.
    destruct (faults conn) as [|[] fs]; cbn [fst db]; try exact L;
      (apply delete_batch_keeps_string; [|exact L]);
      intros E; apply Ne, stored_key_injective, E.
Qed.

(** X16.  A create that returns an error has changed nothing in the key
    space, whatever the error and whatever the state of the connection;
    on an idle connection the same holds of [deleteDeviceById] and of
    [deleteDeviceByName]. *)
Theorem failed_mutations_change_nothing (conn : Conn) (ts : Z) (d : Device) (id name : string) :
  ((addDevice conn ts d).2 <> None -> db (addDevice conn ts d).1.1 = db conn) /\
  (txn conn = None -> (deleteDeviceById conn id).2 <> None ->
   db (deleteDeviceById conn id).1 = db conn) /\
  (txn conn = None -> (deleteDeviceByName conn name).2 <> None ->
   db (deleteDeviceByName conn name).1 = db conn).
Proof.
  split; [|split].
  - intros E.
    destruct (addDevice_checks conn ts d)
      as [(c1 & c2 & H1 & H2) | [(e & He & _) | (c1 & e & H1 & He & _)]].
    + destruct (deviceIdExists_ok _ _ _ _ H1) as (_ & _ & _ & Hc1).
      destruct (deviceNameExists_ok _ _ _ _ H2) as (_ & _ & _ & Hc2).
      assert (Hdb : db c2 = db conn) by (rewrite Hc2, Hc1; reflexivity).
      rewrite (addDevice_after_checks conn c1 c2 ts d H1 H2) in *. cbv zeta in *.
      destruct (json_Marshal (stamped d ts)) as [b|err]; [|exact Hdb].
      destruct (faults c2) as [|[] fs]; cbn [fst snd db] in *;
        [exfalso; apply E; reflexivity | exact Hdb | exfalso; apply E; reflexivity].
    + rewrite He. apply deviceIdExists_read.
    + rewrite He. cbn [fst]. rewrite (proj1 (deviceNameExists_read c1 (Name d))).
      destruct (deviceIdExists_ok _ _ _ _ H1) as (_ & _ & _ & Hc1). rewrite Hc1. reflexivity.
  - intros T E. unfold deleteDeviceById in *.
    destruct (deviceById_idle conn id T) as (Hc & _ & _).
    destruct (deviceById conn id) as [[c1 device] [e|]]; cbn [fst snd] in *.
    + subst c1. reflexivity.
    + assert (T1 : txn c1 = None) by (subst c1; reflexivity).
      assert (D1 : db c1 = db conn) by (subst c1; reflexivity).
      rewrite (delete_commit c1 device T1) in *. cbv zeta in *.
      destruct (faults c1) as [|[] fs]; cbn [fst snd db] in *;
        [exfalso; apply E; reflexivity | exact D1 | exfalso; apply E; reflexivity].
  - intros T E. unfold deleteDeviceByName in *.
    destruct (deviceByName_idle conn name T) as (T1 & D1 & _).
    destruct (deviceByName conn name) as [[c1 device] [e|]]; cbn [fst snd] in *.
    + exact D1.
    + rewrite (delete_commit c1 device T1) in *. cbv zeta in *.
      destruct (faults c1) as [|[] fs]; cbn [fst snd db] in *;
        [exfalso; apply E; reflexivity | exact D1 | exfalso; apply E; reflexivity].
Qed.

End Frame.

(** The stored key of the id ["name"], and of an id that is a label
    bucket. *)
Lemma keys_clash_only_through_the_id_witness :
  deviceStoredKey "name" = DeviceCollectionName /\
  deviceStoredKey "label:temp" = CreateKey [DeviceCollectionLabel; "temp"] /\
  (deviceStoredKey "d1" = deviceStoredKey "d4" -> "d1" = "d4").
Proof.
  destruct (keys_clash_only_through_the_id "d1" "d4" "name" "svc1" "prof1" "temp")
    as (I & _ & _ & _ & _ & _ & N & _).
  destruct (keys_clash_only_through_the_id "d1" "d4" "label:temp" "svc1" "prof1" "temp")
    as (_ & _ & _ & _ & _ & _ & _ & _ & _ & Lb).
  split; [apply N; reflexivity|]. split; [apply Lb; reflexivity | exact I].
Defined.

(** The entry of [d1] after [d4] has been created beside it, and after
    [d4] has been deleted again. *)
Lemma other_records_are_untouched_witness :
  db Demo.conn1 !! deviceStoredKey "d1"
  = Some (VString "d1|therm-1|svc1|prof1|floor1,temp|0x3e8|0x3e8") /\
  @addDevice Demo.codec Demo.conn1 2000 Samples.d4
  = (Samples.conn_two, stamped Samples.d4 2000, None) /\
  db Samples.conn_two !! deviceStoredKey "d1"
  = Some (VString "d1|therm-1|svc1|prof1|floor1,temp|0x3e8|0x3e8") /\
  db (deleteDevice Demo.conn1 Samples.d4).1 !! deviceStoredKey "d1"
  = Some (VString "d1|therm-1|svc1|prof1|floor1,temp|0x3e8|0x3e8").
Proof.
  assert (L : db Demo.conn1 !! deviceStoredKey "d1"
              = Some (VString "d1|therm-1|svc1|prof1|floor1,temp|0x3e8|0x3e8"))
    by (vm_compute; reflexivity).
  assert (H : @addDevice Demo.codec Demo.conn1 2000 Samples.d4
              = (Samples.conn_two, stamped Samples.d4 2000, None))
    by (vm_compute; reflexivity).
  split; [exact L|]. split; [exact H|].
  destruct (@other_records_are_untouched Demo.codec Demo.conn1 2000 Samples.d4 Samples.d4
              "d1" _ L) as [A B].
  split.
  - apply (A _ _ H). discriminate.
  - apply B; [vm_compute; reflexivity | discriminate].
Defined.

(** A create refused for its name, and the delete of an absent id. *)
Lemma failed_mutations_change_nothing_witness :
  (@addDevice Demo.codec Demo.conn1 2000 Demo.d2).2 <> None /\
  db (@addDevice Demo.codec Demo.conn1 2000 Demo.d2).1.1 = db Demo.conn1 /\
  (@deleteDeviceById Demo.codec Demo.conn1 "d2").2 <> None /\
  db (@deleteDeviceById Demo.codec Demo.conn1 "d2").1 = db Demo.conn1.
Proof.
  assert (E1 : (@addDevice Demo.codec Demo.conn1 2000 Demo.d2).2 <> None)
    by (vm_compute; discriminate).
  assert (E2 : (@deleteDeviceById Demo.codec Demo.conn1 "d2").2 <> None)
    by (vm_compute; discriminate).
  destruct (@failed_mutations_change_nothing Demo.codec Demo.conn1 2000 Demo.d2 "d2" "x")
    as (A & B & _).
  split; [exact E1|]. split; [exact (A E1)|]. split; [exact E2|].
  apply B; [vm_compute; reflexivity | exact E2].
Defined.
